(** * A product catalog: REST backend and browser client

    This development embeds the two programs of the repository

    - [backend/server.js]: an Express application over a Mongoose model
      [Product], with image upload through multer, and
    - [client-ui/js/app.js]: the page script that fetches the product
      list and filters, sorts and paginates it in memory,

    and states the properties of the catalog over the embedding.

    Conventions.  JavaScript numbers are binary64 floats ([float]).
    Strings are sequences of 8-bit characters; case mapping covers the
    letters A-Z.  Code that can raise an exception lives in the monad
    [Eff], a state monad with exceptions.  Built-ins of the JavaScript
    runtime whose algorithm is not reproduced here (number parsing and
    printing, locale collation, date printing, the sorting of an array)
    are the fields of the class [Js.Engine]; every definition and theorem
    is generic in it. *)

From Stdlib Require Import ZArith NArith Floats List Lia Ascii DecimalString.
From Stdlib Require DecimalPos DecimalZ.
From stdpp Require Import base option list gmap strings.
Import ListNotations.

Set Warnings "-inexact-float".
Local Open Scope string_scope.
Local Open Scope list_scope.
Local Open Scope Z_scope.

(** ** Exceptions and state *)

(** The completion of a JavaScript evaluation: a value, or a thrown
    exception. *)
Inductive Completion (E A : Type) : Type :=
  | Normal (a : A)
  | Thrown (e : E).
Arguments Normal {E A} a.
Arguments Thrown {E A} e.

#[global] Instance Completion_ret {E} : MRet (Completion E) :=
  fun A a => Normal a.
#[global] Instance Completion_bind {E} : MBind (Completion E) :=
  fun A B f m => match m with Normal a => f a | Thrown e => Thrown e end.

(** Code that reads and writes a state [S] and may throw [E].  The state
    reached when an exception is thrown is kept: what was written before
    the [throw] stays written. *)
Definition Eff (S E A : Type) : Type := S -> Completion E A * S.

#[global] Instance Eff_ret {S E} : MRet (Eff S E) :=
  fun A a s => (Normal a, s).
#[global] Instance Eff_bind {S E} : MBind (Eff S E) :=
  fun A B f m s =>
    match m s with
    | (Normal a, s') => f a s'
    | (Thrown e, s') => (Thrown e, s')
    end.

Definition get {S E} : Eff S E S := fun s => (Normal s, s).
Definition modify {S E} (f : S -> S) : Eff S E unit := fun s => (Normal tt, f s).
Definition throw {S E A} (e : E) : Eff S E A := fun s => (Thrown e, s).
Definition liftC {S E A} (c : Completion E A) : Eff S E A := fun s => (c, s).

(** [try { body } catch (err) { handler err }] *)
Definition tryCatch {S E A} (body : Eff S E A) (handler : E -> Eff S E A) : Eff S E A :=
  fun s =>
    match body s with
    | (Normal a, s') => (Normal a, s')
    | (Thrown e, s') => handler e s'
    end.

(** [for (const x of l) { body x }], also [l.forEach(body)]. *)
Fixpoint forEach {S E A} (body : A -> Eff S E unit) (l : list A) : Eff S E unit :=
  match l with
  | [] => mret tt
  | x :: l' => body x ;; forEach body l'
  end.

(** ** JavaScript values and built-ins *)

Module Js.

(** The primitive values a flat JSON object can hold, and [undefined],
    which is what reading a missing property gives. *)
Inductive JsVal : Type :=
  | JUndefined
  | JNull
  | JBool (b : bool)
  | JNum (x : float)
  | JStr (s : string).

(** How [Array.prototype.sort] reads the number its comparator returns:
    negative, positive, or neither ([NaN] counts as zero). *)
Definition sortOrder (v : float) : comparison :=
  if PrimFloat.ltb v 0 then Lt
  else if PrimFloat.ltb 0 v then Gt
  else Eq.

(** Built-ins left to the runtime.  Which pairs [sort] hands to its
    comparator, and in which order, is up to the engine; what every engine
    guarantees is that the array it returns is a rearrangement of the one
    it was given, that it returns when the comparator never throws, and,
    the sort being stable, that elements none of which the comparator
    puts before another keep their order.  When the comparator throws,
    the array is left as it was. *)
Class Engine : Type := {
  (** [Number(s)] on a string: [NaN] when [s] is not a numeric literal. *)
  StringToNumber : string -> float;
  (** [String(x)] on a number. *)
  NumberToString : float -> string;
  (** [a.localeCompare(b)]: negative, zero or positive. *)
  localeCompare : string -> string -> float;
  (** [new Date(ms).toISOString()]. *)
  toISOString : Z -> string;
  (** [l.sort(cmp)], the comparator may throw. *)
  sort : forall {E A : Type},
    (A -> A -> Completion E float) -> list A -> Completion E (list A);
  sort_permutes : forall {E A : Type} (cmp : A -> A -> Completion E float) (l r : list A),
    sort cmp l = Normal r -> Permutation r l;
  sort_returns : forall {E A : Type} (cmp : A -> A -> Completion E float) (l : list A),
    (forall a b, In a l -> In b l -> exists v, cmp a b = Normal v) ->
    exists r, sort cmp l = Normal r;
  sort_keeps_equals : forall {E A : Type} (cmp : A -> A -> Completion E float) (l : list A),
    (forall a b, In a l -> In b l -> exists v, cmp a b = Normal v /\ sortOrder v = Eq) ->
    sort cmp l = Normal l
}.

Definition lowerChar (c : ascii) : ascii :=
  let n := N_of_ascii c in
  if ((65 <=? n) && (n <=? 90))%N then ascii_of_N (n + 32) else c.

(** [s.toLowerCase()] *)
Fixpoint toLowerCase (s : string) : string :=
  match s with
  | EmptyString => EmptyString
  | String c s' => String (lowerChar c) (toLowerCase s')
  end.

Fixpoint startsWith (s sub : string) : bool :=
  match sub, s with
  | EmptyString, _ => true
  | String a sub', String b s' => Ascii.eqb a b && startsWith s' sub'
  | String _ _, EmptyString => false
  end.

(** [s.includes(sub)] *)
Fixpoint includes (s sub : string) : bool :=
  startsWith s sub ||
  match s with
  | EmptyString => false
  | String _ s' => includes s' sub
  end.

(** [s.substring(0, n)] *)
Fixpoint substring0 (n : nat) (s : string) : string :=
  match n, s with
  | S n', String c s' => String c (substring0 n' s')
  | _, _ => EmptyString
  end.

(** [!s] for a string [s]: only the empty string is falsy. *)
Definition isEmpty (s : string) : bool := String.eqb s "".

(** [v === s] for a string [s]. *)
Definition strictEqString (v : JsVal) (s : string) : bool :=
  match v with
  | JStr t => String.eqb t s
  | _ => false
  end.

Section WithEngine.
Context {engine : Engine}.

(** The abstract operation ToNumber. *)
Definition ToNumber (v : JsVal) : float :=
  match v with
  | JUndefined => nan
  | JNull => 0%float
  | JBool true => 1%float
  | JBool false => 0%float
  | JNum x => x
  | JStr s => StringToNumber s
  end.

(** The abstract operation ToString. *)
Definition ToString (v : JsVal) : string :=
  match v with
  | JUndefined => "undefined"
  | JNull => "null"
  | JBool true => "true"
  | JBool false => "false"
  | JNum x => NumberToString x
  | JStr s => s
  end.

End WithEngine.

Section Arrays.
Context {E A : Type}.

(** [l.filter(keep)], the callback may throw. *)
Fixpoint filterM (keep : A -> Completion E bool) (l : list A) : Completion E (list A) :=
  match l with
  | [] => Normal []
  | x :: l' =>
      k ← keep x;
      r ← filterM keep l';
      Normal (if k : bool then x :: r else r)
  end.

(** A relative index of [slice], clamped to the array. *)
Definition relativeIndex (k len : Z) : Z :=
  if k <? 0 then Z.max (len + k) 0 else Z.min k len.

(** [l.slice(start, end)] *)
Definition slice (start end_ : Z) (l : list A) : list A :=
  let len := Z.of_nat (length l) in
  let from := relativeIndex start len in
  let to := relativeIndex end_ len in
  take (Z.to_nat (to - from)) (drop (Z.to_nat from) l).

End Arrays.

End Js.

(** ** The page script: [client-ui/js/app.js] *)

Module Client.
Import Js.

(** A product as the page holds it: one object of the array parsed from the
    response of [GET /api/products]. *)
Abbreviation JsObj := (gmap string JsVal).

(** [o.k]: a missing property reads as [undefined]. *)
Definition prop (o : JsObj) (k : string) : JsVal := default JUndefined (o !! k).

Inductive Exn : Type :=
  | TypeError (expression : string)
  | FetchFailed.

(** *** The document *)

(** The click listener of a pagination button.  [OnNext] keeps the
    [totalPages] its closure captured when the button was drawn. *)
Inductive Listener : Type :=
  | OnPrevious
  | OnPage (i : Z)
  | OnNext (totalPages : Z).

Record Button : Type := {
  listener : Listener;
  disabled : bool;
  active : bool
}.

(** What a product card shows, field by field of the template; the
    interpolated values are kept before their conversion to text. *)
Record Card : Type := {
  cardImage : JsVal;
  cardTitle : JsVal;
  cardPrice : float;
  cardDescription : string;
  cardId : JsVal
}.

(** The content of [#productGrid]. *)
Inductive Grid : Type :=
  | Cards (cards : list Card)
  | NoProductsFound.

(** The state of [#loading]. *)
Inductive Loading : Type :=
  | LoadingHidden
  | LoadingShown
  | LoadingError.

(** The global variables of the script and the parts of the document it
    reads and writes. *)
Record Page : Type := {
  allProducts : list JsObj;
  filteredProducts : list JsObj;
  currentPage : Z;
  categoryFilter : string;      (* categoryFilter.value *)
  sortBySelect : string;        (* sortBySelect.value *)
  searchInput : string;         (* searchInput.value *)
  productGrid : Grid;
  paginationElement : list Button;
  loadingElement : Loading
}.

Definition productsPerPage : Z := 8.

Definition set_allProducts (v : list JsObj) (p : Page) : Page :=
  {| allProducts := v; filteredProducts := filteredProducts p;
     currentPage := currentPage p; categoryFilter := categoryFilter p;
     sortBySelect := sortBySelect p; searchInput := searchInput p;
     productGrid := productGrid p; paginationElement := paginationElement p;
     loadingElement := loadingElement p |}.

Definition set_filteredProducts (v : list JsObj) (p : Page) : Page :=
  {| allProducts := allProducts p; filteredProducts := v;
     currentPage := currentPage p; categoryFilter := categoryFilter p;
     sortBySelect := sortBySelect p; searchInput := searchInput p;
     productGrid := productGrid p; paginationElement := paginationElement p;
     loadingElement := loadingElement p |}.

Definition set_currentPage (v : Z) (p : Page) : Page :=
  {| allProducts := allProducts p; filteredProducts := filteredProducts p;
     currentPage := v; categoryFilter := categoryFilter p;
     sortBySelect := sortBySelect p; searchInput := searchInput p;
     productGrid := productGrid p; paginationElement := paginationElement p;
     loadingElement := loadingElement p |}.

Definition set_categoryFilter (v : string) (p : Page) : Page :=
  {| allProducts := allProducts p; filteredProducts := filteredProducts p;
     currentPage := currentPage p; categoryFilter := v;
     sortBySelect := sortBySelect p; searchInput := searchInput p;
     productGrid := productGrid p; paginationElement := paginationElement p;
     loadingElement := loadingElement p |}.

Definition set_sortBySelect (v : string) (p : Page) : Page :=
  {| allProducts := allProducts p; filteredProducts := filteredProducts p;
     currentPage := currentPage p; categoryFilter := categoryFilter p;
     sortBySelect := v; searchInput := searchInput p;
     productGrid := productGrid p; paginationElement := paginationElement p;
     loadingElement := loadingElement p |}.

Definition set_searchInput (v : string) (p : Page) : Page :=
  {| allProducts := allProducts p; filteredProducts := filteredProducts p;
     currentPage := currentPage p; categoryFilter := categoryFilter p;
     sortBySelect := sortBySelect p; searchInput := v;
     productGrid := productGrid p; paginationElement := paginationElement p;
     loadingElement := loadingElement p |}.

Definition set_productGrid (v : Grid) (p : Page) : Page :=
  {| allProducts := allProducts p; filteredProducts := filteredProducts p;
     currentPage := currentPage p; categoryFilter := categoryFilter p;
     sortBySelect := sortBySelect p; searchInput := searchInput p;
     productGrid := v; paginationElement := paginationElement p;
     loadingElement := loadingElement p |}.

Definition set_paginationElement (v : list Button) (p : Page) : Page :=
  {| allProducts := allProducts p; filteredProducts := filteredProducts p;
     currentPage := currentPage p; categoryFilter := categoryFilter p;
     sortBySelect := sortBySelect p; searchInput := searchInput p;
     productGrid := productGrid p; paginationElement := v;
     loadingElement := loadingElement p |}.

Definition set_loadingElement (v : Loading) (p : Page) : Page :=
  {| allProducts := allProducts p; filteredProducts := filteredProducts p;
     currentPage := currentPage p; categoryFilter := categoryFilter p;
     sortBySelect := sortBySelect p; searchInput := searchInput p;
     productGrid := productGrid p; paginationElement := paginationElement p;
     loadingElement := v |}.

(** *** Pagination *)

(** [Math.ceil(n / productsPerPage)] for an array length [n]. *)
Definition totalPagesOf (n : Z) : Z := (n + (productsPerPage - 1)) / productsPerPage.

Definition totalPages {A} (l : list A) : Z := totalPagesOf (Z.of_nat (length l)).

(** The window of page [page]: [l.slice(startIndex, endIndex)] with
    [startIndex = (page - 1) * productsPerPage] and
    [endIndex = startIndex + productsPerPage]. *)
Definition pageWindow {A} (page : Z) (l : list A) : list A :=
  let startIndex := (page - 1) * productsPerPage in
  let endIndex := startIndex + productsPerPage in
  slice startIndex endIndex l.

(** The buttons [renderPagination] appends for pages [i .. i + n - 1]. *)
Fixpoint pageButtons (current i : Z) (n : nat) : list Button :=
  match n with
  | O => []
  | S n' =>
      {| listener := OnPage i; disabled := false; active := Z.eqb i current |}
      :: pageButtons current (i + 1) n'
  end.

Definition renderPagination : Eff Page Exn unit :=
  modify (set_paginationElement []) ;;
  st ← get;
  let totalPages := totalPages (filteredProducts st) in
  if totalPages <=? 1 then mret tt
  else
    let prevButton :=
      {| listener := OnPrevious; disabled := Z.eqb (currentPage st) 1; active := false |} in
    let nextButton :=
      {| listener := OnNext totalPages; disabled := Z.eqb (currentPage st) totalPages;
         active := false |} in
    modify (set_paginationElement
              ([prevButton]
               ++ pageButtons (currentPage st) 1 (Z.to_nat totalPages)
               ++ [nextButton])).

(** *** Rendering *)

(** The card of one product.  The template reads [product.currentPrice]
    through [toFixed] and [product.description] through [substring] and
    [length]: the first needs a number, the second a string. *)
Definition productCard (product : JsObj) : Completion Exn Card :=
  match prop product "currentPrice" with
  | JNum currentPrice =>
      match prop product "description" with
      | JStr description =>
          Normal {| cardImage := prop product "image";
                    cardTitle := prop product "title";
                    cardPrice := currentPrice;
                    cardDescription :=
                      substring0 60 description
                      ++ (if (60 <? String.length description)%nat then "..." else "");
                    cardId := prop product "_id" |}
      | _ => Thrown (TypeError "product.description.substring")
      end
  | _ => Thrown (TypeError "product.currentPrice.toFixed")
  end.

Definition appendCard (c : Card) (p : Page) : Page :=
  set_productGrid
    (match productGrid p with
     | Cards cs => Cards (cs ++ [c])
     | NoProductsFound => Cards [c]
     end) p.

Definition renderProducts : Eff Page Exn unit :=
  modify (set_productGrid (Cards [])) ;;
  st ← get;
  let currentProducts := pageWindow (currentPage st) (filteredProducts st) in
  if (length currentProducts =? 0)%nat then
    modify (set_productGrid NoProductsFound)
  else
    forEach (fun product => card ← liftC (productCard product); modify (appendCard card))
            currentProducts ;;
    renderPagination.

(** *** Filtering and sorting *)

(** [v.toLowerCase()] for a property value [v]: a method of strings only. *)
Definition lowerCaseOf (expression : string) (v : JsVal) : Completion Exn string :=
  match v with
  | JStr s => Normal (toLowerCase s)
  | _ => Thrown (TypeError expression)
  end.

(** The callback of [allProducts.filter] in [applyFilters]. *)
Definition matchesFilters (categoryValue searchValue : string) (product : JsObj)
  : Completion Exn bool :=
  let matchesCategory :=
    isEmpty categoryValue || strictEqString (prop product "console") categoryValue in
  matchesSearch ←
    (if isEmpty searchValue then Normal true
     else
       title ← lowerCaseOf "product.title.toLowerCase" (prop product "title");
       if includes title searchValue then Normal true
       else
         description ←
           lowerCaseOf "product.description.toLowerCase" (prop product "description");
         Normal (includes description searchValue));
  Normal (matchesCategory && matchesSearch).

Section WithEngine.
Context {engine : Engine}.

(** [(a, b) => a.currentPrice - b.currentPrice] *)
Definition byPriceAscending (a b : JsObj) : Completion Exn float :=
  Normal (ToNumber (prop a "currentPrice") - ToNumber (prop b "currentPrice"))%float.

(** [(a, b) => b.currentPrice - a.currentPrice] *)
Definition byPriceDescending (a b : JsObj) : Completion Exn float :=
  Normal (ToNumber (prop b "currentPrice") - ToNumber (prop a "currentPrice"))%float.

(** [x.title.localeCompare(y.title)]: [x.title] must be a string, [y.title]
    is converted to one. *)
Definition titleLocaleCompare (x y : JsObj) : Completion Exn float :=
  match prop x "title" with
  | JStr s => Normal (localeCompare s (ToString (prop y "title")))
  | _ => Thrown (TypeError "title.localeCompare")
  end.

(** [(a, b) => a.title.localeCompare(b.title)] *)
Definition byNameAscending (a b : JsObj) : Completion Exn float := titleLocaleCompare a b.

(** [(a, b) => b.title.localeCompare(a.title)] *)
Definition byNameDescending (a b : JsObj) : Completion Exn float := titleLocaleCompare b a.

(** The [switch (sortValue)] of [applyFilters]. *)
Definition applySort (sortValue : string) (l : list JsObj) : Completion Exn (list JsObj) :=
  if String.eqb sortValue "price_asc" then sort byPriceAscending l
  else if String.eqb sortValue "price_desc" then sort byPriceDescending l
  else if String.eqb sortValue "name_asc" then sort byNameAscending l
  else if String.eqb sortValue "name_desc" then sort byNameDescending l
  else Normal l.

(** [filteredProducts] is assigned the filtered array and then sorted in
    place; a comparator that throws leaves it filtered and unsorted. *)
Definition applyFilters : Eff Page Exn unit :=
  st ← get;
  let categoryValue := categoryFilter st in
  let searchValue := toLowerCase (searchInput st) in
  let sortValue := sortBySelect st in
  filtered ← liftC (filterM (matchesFilters categoryValue searchValue) (allProducts st));
  modify (set_filteredProducts filtered) ;;
  sorted ← liftC (applySort sortValue filtered);
  modify (set_filteredProducts sorted) ;;
  modify (set_currentPage 1) ;;
  renderProducts.

(** [fetchProducts], given what [fetch] and [response.json()] produced:
    [Some data] for an ok response, [None] for a rejected or failed one. *)
Definition fetchProducts (response : option (list JsObj)) : Eff Page Exn unit :=
  tryCatch
    (modify (set_loadingElement LoadingShown) ;;
     data ← match response with
            | Some data => mret data
            | None => throw FetchFailed
            end;
     modify (set_allProducts data) ;;
     modify (set_filteredProducts data) ;;
     applyFilters ;;
     modify (set_loadingElement LoadingHidden))
    (fun _ => modify (set_loadingElement LoadingError)).

(** *** Events *)

(** The listener of a pagination button. *)
Definition onClick (l : Listener) : Eff Page Exn unit :=
  st ← get;
  match l with
  | OnPrevious =>
      if 1 <? currentPage st
      then modify (set_currentPage (currentPage st - 1)) ;; renderProducts
      else mret tt
  | OnPage i => modify (set_currentPage i) ;; renderProducts
  | OnNext totalPages =>
      if currentPage st <? totalPages
      then modify (set_currentPage (currentPage st + 1)) ;; renderProducts
      else mret tt
  end.

(** What the user can do once the page is loaded: pick a category, pick a
    sort order, type in the search box, or click the [k]-th control of
    [#pagination]. *)
Inductive Event : Type :=
  | CategoryChange (value : string)
  | SortChange (value : string)
  | SearchInput (value : string)
  | Click (k : nat).

Definition isFilterChange (ev : Event) : bool :=
  match ev with
  | Click _ => false
  | _ => true
  end.

(** The listener an event runs.  A disabled button dispatches no click. *)
Definition listenerOf (ev : Event) : Eff Page Exn unit :=
  match ev with
  | CategoryChange v => modify (set_categoryFilter v) ;; applyFilters
  | SortChange v => modify (set_sortBySelect v) ;; applyFilters
  | SearchInput v => modify (set_searchInput v) ;; applyFilters
  | Click k =>
      st ← get;
      match paginationElement st !! k with
      | Some b => if disabled b then mret tt else onClick (listener b)
      | None => mret tt
      end
  end.

(** An exception escaping a listener is reported to the console and
    dropped; the page stays as the listener left it. *)
Definition dispatch (ev : Event) (st : Page) : Page := (listenerOf ev st).2.

(** The page before [DOMContentLoaded], its controls holding the given
    values. *)
Definition initialPage (category sortBy search : string) : Page :=
  {| allProducts := []; filteredProducts := []; currentPage := 1;
     categoryFilter := category; sortBySelect := sortBy; searchInput := search;
     productGrid := Cards []; paginationElement := []; loadingElement := LoadingShown |}.

(** *** What the page should satisfy *)

(** The page after the input change of an event, before its listener. *)
Definition input (ev : Event) (st : Page) : Page :=
  match ev with
  | CategoryChange v => set_categoryFilter v st
  | SortChange v => set_sortBySelect v st
  | SearchInput v => set_searchInput v st
  | Click _ => st
  end.

(** The sequence the active criteria select from [allProducts]: the
    filter, then the sort, of [applyFilters]. *)
Definition selection (st : Page) : Completion Exn (list JsObj) :=
  filtered ← filterM (matchesFilters (categoryFilter st) (toLowerCase (searchInput st)))
                     (allProducts st);
  applySort (sortBySelect st) filtered.

(** [filteredProducts] is what the active criteria select. *)
Definition consistent (st : Page) : Prop :=
  selection st = Normal (filteredProducts st).

End WithEngine.

(** The cards of a window, in order. *)
Fixpoint cardsOf (l : list JsObj) : Completion Exn (list Card) :=
  match l with
  | [] => Normal []
  | product :: l' => c ← productCard product; cs ← cardsOf l'; Normal (c :: cs)
  end.

(** The grid shows the window of [currentPage] over [filteredProducts]:
    its cards, or the placeholder when the window is empty. *)
Definition rendered (st : Page) : Prop :=
  match pageWindow (currentPage st) (filteredProducts st) with
  | [] => productGrid st = NoProductsFound
  | window => exists cards, cardsOf window = Normal cards /\ productGrid st = Cards cards
  end.

(** Two pages that differ at most in what is drawn in the grid and in
    the pagination bar. *)
Definition sameData (st st' : Page) : Prop :=
  allProducts st' = allProducts st
  /\ filteredProducts st' = filteredProducts st
  /\ currentPage st' = currentPage st
  /\ categoryFilter st' = categoryFilter st
  /\ sortBySelect st' = sortBySelect st
  /\ searchInput st' = searchInput st
  /\ loadingElement st' = loadingElement st.

Definition pageCount (st : Page) : Z := totalPages (filteredProducts st).

(** [currentPage] is a page of the filtered sequence; page 1 when the
    sequence is empty. *)
Definition pageInRange (st : Page) : Prop :=
  1 <= currentPage st <= Z.max 1 (pageCount st).

(** A button as [renderPagination] draws it for [n] pages. *)
Definition drawnFor (n : Z) (b : Button) : Prop :=
  match listener b with
  | OnPrevious => True
  | OnPage i => 1 <= i <= n
  | OnNext totalPages => totalPages = n
  end.

(** The controls on screen are those of the filtered sequence the page
    holds. *)
Definition controlsCurrent (st : Page) : Prop :=
  Forall (drawnFor (pageCount st)) (paginationElement st).

Section WithEngine.
Context {engine : Engine}.

(** The page after a sequence of events, each dispatched in turn. *)
Definition dispatchAll (evs : list Event) (st : Page) : Page :=
  fold_left (fun st ev => dispatch ev st) evs st.

(** The page once [DOMContentLoaded] has fired and [fetchProducts] has
    settled, for controls holding the given values. *)
Definition loaded (response : option (list JsObj)) (category sortBy search : string) : Page :=
  (fetchProducts response (initialPage category sortBy search)).2.

End WithEngine.

(** The buttons of a pagination bar that are marked as the current page. *)
Definition activeButtons (bar : list Button) : list Button :=
  List.filter active bar.

(** The cards of the products of a window that come before the first one
    whose card cannot be drawn. *)
Fixpoint cardsBefore (l : list JsObj) : list Card :=
  match l with
  | [] => []
  | product :: l' =>
      match productCard product with
      | Normal c => c :: cardsBefore l'
      | Thrown _ => []
      end
  end.

(** What a run of [renderProducts] for page [c] of the sequence [l]
    answers ([r]) and leaves on the page ([st']), [bar] being the
    pagination bar before the run.  When every card of the window can be
    drawn, it returns, the grid shows the window, and the bar is redrawn
    for the sequence when the window is not empty and left as it was when
    it is empty.  When a card cannot be drawn, it throws what drawing that
    card threw, the grid holds the cards before it, and the bar is left as
    it was. *)
Definition drawn (c : Z) (l : list JsObj) (bar : list Button) (r : Completion Exn unit)
    (st' : Page) : Prop :=
  match cardsOf (pageWindow c l) with
  | Normal _ =>
      r = Normal tt /\ rendered st'
      /\ (pageWindow c l <> [] -> controlsCurrent st')
      /\ (pageWindow c l = [] -> paginationElement st' = bar)
  | Thrown e =>
      r = Thrown e
      /\ productGrid st' = Cards (cardsBefore (pageWindow c l))
      /\ paginationElement st' = bar
  end.

End Client.

(** ** The server: [backend/server.js] *)

Module Backend.
Import Js.

(** *** Documents *)

(** An [ObjectId], read as a number; its text form is 24 hexadecimal
    digits. *)
Abbreviation ObjectId := N.

(** A document of the collection, one field per path of [productSchema]
    plus [_id] and the version key.  A path that is null or not set is
    [None]. *)
Record Product : Type := {
  _id : ObjectId;
  name : option string;
  description : option string;
  price : option float;
  category : option string;
  image : option string;
  stock : option float;
  rating : option float;
  createdAt : Z;
  __v : float
}.

Definition hexDigit (c : ascii) : option N :=
  let n := N_of_ascii c in
  if ((48 <=? n) && (n <=? 57))%N then Some (n - 48)%N
  else if ((97 <=? n) && (n <=? 102))%N then Some (n - 87)%N
  else if ((65 <=? n) && (n <=? 70))%N then Some (n - 55)%N
  else None.

Fixpoint hexValue (acc : N) (s : string) : option N :=
  match s with
  | EmptyString => Some acc
  | String c s' =>
      match hexDigit c with
      | Some d => hexValue (acc * 16 + d)%N s'
      | None => None
      end
  end.

(** The cast of a route parameter to an [ObjectId]: a string of 24
    hexadecimal digits, nothing else. *)
Definition castObjectId (s : string) : option ObjectId :=
  if (String.length s =? 24)%nat then hexValue 0 s else None.

Definition hexChar (d : N) : ascii :=
  ascii_of_N (if (d <? 10)%N then 48 + d else 87 + d)%N.

Fixpoint hexDigits (n : nat) (v : N) (acc : string) : string :=
  match n with
  | O => acc
  | S n' => hexDigits n' (v / 16)%N (String (hexChar (v mod 16)%N) acc)
  end.

(** [id.toHexString()] *)
Definition toHexString (id : ObjectId) : string := hexDigits 24 id "".

(** *** The world the server runs in *)

(** A file of the [uploads] directory: [unlinkSync] removes a [Removable]
    file and throws on one that is [InUse]. *)
Inductive FileState : Type :=
  | Removable
  | InUse.

Inductive Exn : Type :=
  | StoreError (message : string)       (* a store call that rejected *)
  | CastError (path : string)           (* a value the schema cannot cast *)
  | ValidationError (paths : list string)
  | DuplicateKey (id : ObjectId)
  | FsError (code path : string).

Record World : Type := {
  (** the [products] collection, in insertion order *)
  products : list Product;
  (** the directory [uploads], by file name *)
  uploads : gmap string FileState;
  (** [Date.now()], in milliseconds *)
  now : Z;
  (** the identifier the next constructed document receives *)
  nextObjectId : ObjectId;
  (** the outcome of the store calls to come, in order: [None] lets a
      call through, [Some message] makes it reject; once the list is
      used up every call goes through *)
  storeFaults : list (option string)
}.

Definition set_products (v : list Product) (w : World) : World :=
  {| products := v; uploads := uploads w; now := now w;
     nextObjectId := nextObjectId w; storeFaults := storeFaults w |}.

Definition set_uploads (v : gmap string FileState) (w : World) : World :=
  {| products := products w; uploads := v; now := now w;
     nextObjectId := nextObjectId w; storeFaults := storeFaults w |}.

Definition set_nextObjectId (v : ObjectId) (w : World) : World :=
  {| products := products w; uploads := uploads w; now := now w;
     nextObjectId := v; storeFaults := storeFaults w |}.

Definition set_storeFaults (v : list (option string)) (w : World) : World :=
  {| products := products w; uploads := uploads w; now := now w;
     nextObjectId := nextObjectId w; storeFaults := v |}.

Definition set_now (v : Z) (w : World) : World :=
  {| products := products w; uploads := uploads w; now := v;
     nextObjectId := nextObjectId w; storeFaults := storeFaults w |}.

(** A deployment that has never run: an empty collection, an empty
    [uploads] directory, a store that answers. *)
Definition freshWorld (clock : Z) : World :=
  {| products := []; uploads := ∅; now := clock; nextObjectId := 0%N; storeFaults := [] |}.

(** *** The file system *)

(** [fs.existsSync(path.join(__dirname, 'uploads', file))] *)
Definition existsSync (file : string) : Eff World Exn bool :=
  w ← get; mret (bool_decide (is_Some (uploads w !! file))).

(** [fs.unlinkSync(path.join(__dirname, 'uploads', file))] *)
Definition unlinkSync (file : string) : Eff World Exn unit :=
  w ← get;
  match uploads w !! file with
  | Some Removable => modify (set_uploads (delete file (uploads w)))
  | Some InUse => throw (FsError "EPERM" file)
  | None => throw (FsError "ENOENT" file)
  end.

(** *** multer *)

(** The file part of a multipart request, sent under the field [image]:
    the name the client gave the file, and the time, in milliseconds, by
    which the clock has moved when the file is written and the handler
    runs. *)
Record Upload : Type := { originalname : string; storingTime : Z }.

(** [req.file] *)
Record File : Type := { filename : string }.

(** [String(n)] for an integer [n]. *)
Definition decimal (n : Z) : string := NilZero.string_of_int (Z.to_int n).

(** The [filename] callback of the disk storage:
    [Date.now() + '-' + file.originalname]. *)
Definition storageFilename (clock : Z) (file : Upload) : string :=
  decimal clock ++ "-" ++ originalname file.

(** [upload.single('image')], for the requests it lets through to the
    handler: a request without a file part, and a request whose file part
    it has written to [uploads] under [storageFilename], which becomes
    [req.file].  The clock is read when the file is named; the handler
    runs once the file is written.  (A request multer refuses, a file
    under another field or a file it cannot write, does not reach the
    handler.) *)
Definition uploadSingle (upload : option Upload) : Eff World Exn (option File) :=
  match upload with
  | None => mret None
  | Some file =>
      w ← get;
      let name := storageFilename (now w) file in
      modify (set_uploads (<[name := Removable]> (uploads w))) ;;
      modify (set_now (now w + storingTime file)) ;;
      mret (Some {| filename := name |})
  end.

(** *** The model [Product] *)

(** The calls the routes make on the Mongoose model are embedded by what
    they do to the collection:
    - a document is constructed with the next identifier and with every
      value cast to the type of its path; a failed cast is reported when
      the document is validated;
    - [save] and [insertMany] validate ([required], cast failures) before
      anything is written, and the collection holds one document per
      [_id];
    - [findById], [findByIdAndUpdate] and [findByIdAndDelete] cast the
      identifier, and the update, before the store is asked, and a failed
      cast rejects the call; updates run no validators;
    - every round trip to the store can reject ([storeFaults]).
    The clock is read once by multer, for the name of the file, and once
    when a document is constructed, for [createdAt]; between the two the
    file is written ([storingTime]).  A handler's own code runs at one
    instant. *)

(** The result of casting a value to the type of its path. *)
Inductive Cast (A : Type) : Type :=
  | NotSet                 (* undefined *)
  | Null
  | Value (a : A)
  | CastFailed.
Arguments NotSet {A}.
Arguments Null {A}.
Arguments Value {A} a.
Arguments CastFailed {A}.

(** How an update treats a key whose value is [undefined]: the key is
    dropped from the update, or the path is set to null.  Which one
    applies depends on the version of the library. *)
Inductive UndefinedPolicy : Type :=
  | StripUndefined
  | UndefinedAsNull.

(** Truthiness, for [stock || 0] and [rating || 0]. *)
Definition truthy (v : JsVal) : bool :=
  match v with
  | JUndefined | JNull => false
  | JBool b => b
  | JNum x => negb (PrimFloat.eqb x 0 || PrimFloat.is_nan x)
  | JStr s => negb (isEmpty s)
  end.

Definition orElse (v d : JsVal) : JsVal := if truthy v then v else d.

(** The object a document is constructed from, or the object of an update:
    a value per path, [undefined] for a key that is missing or holds it.
    [imageField] is [None] when the object has no key [image]. *)
Record Fields : Type := {
  nameField : JsVal;
  descriptionField : JsVal;
  priceField : JsVal;
  categoryField : JsVal;
  stockField : JsVal;
  ratingField : JsVal;
  imageField : option JsVal
}.

(** [req.body], read through
    [const { name, description, price, category, stock, rating } = req.body]. *)
Record Body : Type := {
  bodyName : JsVal;
  bodyDescription : JsVal;
  bodyPrice : JsVal;
  bodyCategory : JsVal;
  bodyStock : JsVal;
  bodyRating : JsVal
}.

Section WithEngine.
Context {engine : Engine}.

(** The cast of a [String] path. *)
Definition castString (v : JsVal) : Cast string :=
  match v with
  | JUndefined => NotSet
  | JNull => Null
  | _ => Value (ToString v)
  end.

(** The cast of a [Number] path: the empty string is null, a value whose
    number is [NaN] is refused. *)
Definition castNumber (v : JsVal) : Cast float :=
  match v with
  | JUndefined => NotSet
  | JNull => Null
  | JStr EmptyString => Null
  | _ => let x := ToNumber v in if PrimFloat.is_nan x then CastFailed else Value x
  end.

(** The value a path holds after a cast: nothing for undefined, null or a
    failed cast. *)
Definition stored {A} (c : Cast A) : option A :=
  match c with
  | Value a => Some a
  | _ => None
  end.

Definition castFailure {A} (path : string) (c : Cast A) : list string :=
  match c with
  | CastFailed => [path]
  | _ => []
  end.

(** A default applies to a path that was left undefined. *)
Definition withDefault {A} (d : A) (c : Cast A) : option A :=
  match c with
  | NotSet => Some d
  | _ => stored c
  end.

(** The document [new Product(fields)] builds when it is given the
    identifier [id] at time [clock]: every value is cast to its path's
    type, and the defaults of [stock], [rating] and [createdAt] fill what
    was left undefined.  The paths whose cast failed come with it, for
    validation. *)
Definition draft (clock : Z) (id : ObjectId) (fields : Fields) : Product * list string :=
  let image := match imageField fields with Some v => castString v | None => NotSet end in
  ({| _id := id;
      name := stored (castString (nameField fields));
      description := stored (castString (descriptionField fields));
      price := stored (castNumber (priceField fields));
      category := stored (castString (categoryField fields));
      image := stored image;
      stock := withDefault 0%float (castNumber (stockField fields));
      rating := withDefault 0%float (castNumber (ratingField fields));
      createdAt := clock;
      __v := 0%float |},
   (castFailure "price" (castNumber (priceField fields))
    ++ castFailure "stock" (castNumber (stockField fields))
    ++ castFailure "rating" (castNumber (ratingField fields)))%list).

(** [new Product(fields)]: the document takes the next identifier. *)
Definition newProduct (fields : Fields) : Eff World Exn (Product * list string) :=
  w ← get;
  modify (set_nextObjectId (nextObjectId w + 1)%N) ;;
  mret (draft (now w) (nextObjectId w) fields).

End WithEngine.

(** [required: true] on a [String] path: a string that is not empty. *)
Definition requiredString (path : string) (v : option string) : list string :=
  match v with
  | Some s => if isEmpty s then [path] else []
  | None => [path]
  end.

(** [required: true] on a [Number] path. *)
Definition requiredNumber (path : string) (v : option float) : list string :=
  match v with
  | Some _ => []
  | None => [path]
  end.

(** The paths of a document that fail validation against [productSchema]. *)
Definition invalidPaths (doc : Product) (castErrors : list string) : list string :=
  castErrors
  ++ requiredString "name" (name doc)
  ++ requiredString "description" (description doc)
  ++ requiredNumber "price" (price doc)
  ++ requiredString "category" (category doc)
  ++ requiredString "image" (image doc).

Definition validate (doc : Product) (castErrors : list string) : Eff World Exn unit :=
  match invalidPaths doc castErrors with
  | [] => mret tt
  | paths => throw (ValidationError paths)
  end.

(** What the store answers to the next call: [Some message] when it
    rejects. *)
Definition nextStoreCall (w : World) : option string :=
  match storeFaults w with
  | Some message :: _ => Some message
  | _ => None
  end.

(** The world once that call is made. *)
Definition advance (w : World) : World :=
  match storeFaults w with
  | [] => w
  | _ :: rest => set_storeFaults rest w
  end.

(** One round trip to the store: it goes through or rejects, as
    [storeFaults] says. *)
Definition storeCall : Eff World Exn unit :=
  fun w =>
    (match nextStoreCall w with
     | Some message => Thrown (StoreError message)
     | None => Normal tt
     end,
     advance w).

Definition findDoc (id : ObjectId) (l : list Product) : option Product :=
  List.find (fun p => N.eqb (_id p) id) l.

(** The collection refuses a second document with an [_id] it holds. *)
Fixpoint insertDocs (docs : list Product) : Eff World Exn unit :=
  match docs with
  | [] => mret tt
  | doc :: rest =>
      w ← get;
      match findDoc (_id doc) (products w) with
      | Some _ => throw (DuplicateKey (_id doc))
      | None => modify (set_products (products w ++ [doc])) ;; insertDocs rest
      end
  end.

(** [doc.save()] for a new document *)
Definition save (doc : Product) (castErrors : list string) : Eff World Exn Product :=
  validate doc castErrors ;;
  storeCall ;;
  insertDocs [doc] ;;
  mret doc.

(** [Product.find()] *)
Definition find : Eff World Exn (list Product) :=
  storeCall ;; w ← get; mret (products w).

(** [Product.find({ category })] *)
Definition findByCategory (c : string) : Eff World Exn (list Product) :=
  storeCall ;;
  w ← get;
  mret (List.filter
          (fun p => match category p with Some c' => String.eqb c' c | None => false end)
          (products w)).

(** [Product.countDocuments()] *)
Definition countDocuments : Eff World Exn nat :=
  storeCall ;; w ← get; mret (length (products w)).

Definition castId (id : string) : Eff World Exn ObjectId :=
  match castObjectId id with
  | Some oid => mret oid
  | None => throw (CastError "_id")
  end.

(** [Product.findById(id)]: the identifier is cast before the store is
    asked; the result is the document or null. *)
Definition findById (id : string) : Eff World Exn (option Product) :=
  oid ← castId id;
  storeCall ;;
  w ← get;
  mret (findDoc oid (products w)).

(** [Product.findByIdAndDelete(id)] *)
Definition findByIdAndDelete (id : string) : Eff World Exn (option Product) :=
  oid ← castId id;
  storeCall ;;
  w ← get;
  match findDoc oid (products w) with
  | None => mret None
  | Some doc =>
      modify (set_products (List.filter (fun p => negb (N.eqb (_id p) oid)) (products w))) ;;
      mret (Some doc)
  end.

Section WithEngine.
Context {engine : Engine}.

(** What an update writes to one path: the cast value, null, or nothing
    ([None]). *)
Definition updateOf {A} (policy : UndefinedPolicy) (c : Cast A) : option (option A) :=
  match c with
  | NotSet => match policy with StripUndefined => None | UndefinedAsNull => Some None end
  | Null => Some None
  | Value a => Some (Some a)
  | CastFailed => None
  end.

Definition assign {A} (u : option (option A)) (old : option A) : option A :=
  match u with
  | Some v => v
  | None => old
  end.

(** The document after [$set] of the cast update. *)
Definition applyUpdate (policy : UndefinedPolicy) (update : Fields) (doc : Product) : Product :=
  {| _id := _id doc;
     name := assign (updateOf policy (castString (nameField update))) (name doc);
     description :=
       assign (updateOf policy (castString (descriptionField update))) (description doc);
     price := assign (updateOf policy (castNumber (priceField update))) (price doc);
     category := assign (updateOf policy (castString (categoryField update))) (category doc);
     image :=
       match imageField update with
       | Some v => assign (updateOf policy (castString v)) (image doc)
       | None => image doc
       end;
     stock := assign (updateOf policy (castNumber (stockField update))) (stock doc);
     rating := assign (updateOf policy (castNumber (ratingField update))) (rating doc);
     createdAt := createdAt doc;
     __v := __v doc |}.

(** The paths of an update whose cast fails. *)
Definition updateCastFailures (update : Fields) : list string :=
  castFailure "price" (castNumber (priceField update))
  ++ castFailure "stock" (castNumber (stockField update))
  ++ castFailure "rating" (castNumber (ratingField update)).

(** The collection with the document of [doc]'s identifier replaced by
    [doc]. *)
Fixpoint replaceDoc (doc : Product) (l : list Product) : list Product :=
  match l with
  | [] => []
  | p :: l' => if N.eqb (_id p) (_id doc) then doc :: l' else p :: replaceDoc doc l'
  end.

(** [Product.findByIdAndUpdate(id, update, { new: true })]: the
    identifier and the update are cast, then the store is asked; the
    result is the updated document, or null when no document has the
    identifier. *)
Definition findByIdAndUpdate (policy : UndefinedPolicy) (id : string) (update : Fields)
  : Eff World Exn (option Product) :=
  oid ← castId id;
  match updateCastFailures update with
  | path :: _ => throw (CastError path)
  | [] =>
      storeCall ;;
      w ← get;
      match findDoc oid (products w) with
      | None => mret None
      | Some doc =>
          let doc' := applyUpdate policy update doc in
          modify (set_products (replaceDoc doc' (products w))) ;;
          mret (Some doc')
      end
  end.

(** [Product.insertMany(objects)]: every object becomes a document, all are
    validated, and only then are they inserted. *)
Fixpoint newProducts (objects : list Fields) : Eff World Exn (list (Product * list string)) :=
  match objects with
  | [] => mret []
  | o :: rest => d ← newProduct o; ds ← newProducts rest; mret (d :: ds)
  end.

(** The documents [newProducts] constructs at time [clock], the first one
    under the identifier [id]. *)
Fixpoint draftsFrom (clock : Z) (id : ObjectId) (objects : list Fields)
  : list (Product * list string) :=
  match objects with
  | [] => []
  | o :: rest => draft clock id o :: draftsFrom clock (id + 1)%N rest
  end.

Definition insertMany (objects : list Fields) : Eff World Exn (list Product) :=
  drafts ← newProducts objects;
  forEach (fun d => validate d.1 d.2) drafts ;;
  storeCall ;;
  insertDocs (List.map fst drafts) ;;
  mret (List.map fst drafts).

End WithEngine.

(** *** Routes *)

Inductive Payload : Type :=
  | ProductList (l : list Product)
  | OneProduct (p : Product)
  | Message (message : string)          (* { message: '...' } *)
  | ErrorMessage (err : Exn)            (* { message: err.message } *)
  | FileContent (file : string).

Record Response : Type := { status : Z; payload : Payload }.

(** The status a handler answered with; nothing when it threw. *)
Definition statusOf (r : Completion Exn Response) : option Z :=
  match r with
  | Normal response => Some (status response)
  | Thrown _ => None
  end.

(** [res.status(code).json(payload)]; [res.json] alone answers 200. *)
Definition respond (code : Z) (p : Payload) : Eff World Exn Response :=
  mret {| status := code; payload := p |}.

(** [GET /api/products] *)
Definition listProducts : Eff World Exn Response :=
  tryCatch
    (all ← find; respond 200 (ProductList all))
    (fun err => respond 500 (ErrorMessage err)).

(** [GET /api/products/category/:category] *)
Definition listProductsByCategory (c : string) : Eff World Exn Response :=
  tryCatch
    (found ← findByCategory c; respond 200 (ProductList found))
    (fun err => respond 500 (ErrorMessage err)).

(** [GET /api/products/:id] *)
Definition getProduct (id : string) : Eff World Exn Response :=
  tryCatch
    (product ← findById id;
     match product with
     | None => respond 404 (Message "Product not found")
     | Some p => respond 200 (OneProduct p)
     end)
    (fun err => respond 500 (ErrorMessage err)).

(** [GET /api/products/images/:imageName] *)
Definition getImage (imageName : string) : Eff World Exn Response :=
  present ← existsSync imageName;
  if present : bool then respond 200 (FileContent imageName)
  else respond 404 (Message "Image not found").

Section WithEngine.
Context {engine : Engine}.

(** The object [createProduct] constructs the document from. *)
Definition productFields (body : Body) (file : File) : Fields :=
  {| nameField := bodyName body;
     descriptionField := bodyDescription body;
     priceField := bodyPrice body;
     categoryField := bodyCategory body;
     stockField := orElse (bodyStock body) (JNum 0);
     ratingField := orElse (bodyRating body) (JNum 0);
     imageField := Some (JStr (filename file)) |}.

(** The handler of [POST /api/products], after multer. *)
Definition createProduct (body : Body) (file : option File) : Eff World Exn Response :=
  tryCatch
    (match file with
     | None => respond 400 (Message "Image file is required")
     | Some f =>
         constructed ← newProduct (productFields body f);
         savedProduct ← save constructed.1 constructed.2;
         respond 201 (OneProduct savedProduct)
     end)
    (fun err => respond 400 (ErrorMessage err)).

(** [POST /api/products] *)
Definition postProduct (body : Body) (upload : option Upload) : Eff World Exn Response :=
  file ← uploadSingle upload;
  createProduct body file.

(** The deletion of the image a document names, as both the update and
    the delete routes do it: nothing when the document has no image or the
    file does not exist. *)
Definition deleteImageOf (product : Product) : Eff World Exn unit :=
  match image product with
  | Some old =>
      if isEmpty old then mret tt
      else
        present ← existsSync old;
        if present : bool then unlinkSync old else mret tt
  | None => mret tt
  end.

(** The object [updateProduct] passes to [findByIdAndUpdate]: the six
    fields read from the body, and [image] when a file came with the
    request. *)
Definition updateData (body : Body) (file : option File) : Fields :=
  {| nameField := bodyName body;
     descriptionField := bodyDescription body;
     priceField := bodyPrice body;
     categoryField := bodyCategory body;
     stockField := bodyStock body;
     ratingField := bodyRating body;
     imageField := match file with Some f => Some (JStr (filename f)) | None => None end |}.

(** The block the update handler runs when a new image came with the
    request: the document is looked up and the file it names is deleted. *)
Definition deleteOldImage (id : string) : Eff World Exn unit :=
  product ← findById id;
  match product with
  | Some p => deleteImageOf p
  | None => mret tt
  end.

(** The handler of [PUT /api/products/:id], after multer. *)
Definition updateProduct (policy : UndefinedPolicy) (id : string) (body : Body)
    (file : option File) : Eff World Exn Response :=
  tryCatch
    (match file with
     | Some _ => deleteOldImage id
     | None => mret tt
     end ;;
     updatedProduct ← findByIdAndUpdate policy id (updateData body file);
     match updatedProduct with
     | None => respond 404 (Message "Product not found")
     | Some p => respond 200 (OneProduct p)
     end)
    (fun err => respond 400 (ErrorMessage err)).

(** [PUT /api/products/:id] *)
Definition putProduct (policy : UndefinedPolicy) (id : string) (body : Body)
    (upload : option Upload) : Eff World Exn Response :=
  file ← uploadSingle upload;
  updateProduct policy id body file.

End WithEngine.

(** [DELETE /api/products/:id] *)
Definition deleteProduct (id : string) : Eff World Exn Response :=
  tryCatch
    (product ← findById id;
     match product with
     | None => respond 404 (Message "Product not found")
     | Some p =>
         deleteImageOf p ;;
         findByIdAndDelete id ;;
         respond 200 (Message "Product deleted")
     end)
    (fun err => respond 500 (ErrorMessage err)).

(** *** Seeding *)

Definition sample (name description : string) (price : float) (category : string)
    (stock rating : float) (image : string) : Fields :=
  {| nameField := JStr name; descriptionField := JStr description;
     priceField := JNum price; categoryField := JStr category;
     stockField := JNum stock; ratingField := JNum rating;
     imageField := Some (JStr image) |}.

Definition sampleProducts : list Fields :=
  [ sample "Wireless Headphones"
      "High-quality wireless headphones with noise cancellation."
      149.99 "electronics" 50 4.5 "headphones.jpg";
    sample "Smart Watch"
      "Track your fitness and stay connected with this sleek smart watch."
      199.99 "electronics" 30 4.2 "smartwatch.jpg";
    sample "Cotton T-Shirt"
      "Comfortable 100% cotton t-shirt available in multiple colors."
      19.99 "clothing" 100 4.0 "tshirt.jpg";
    sample "Denim Jeans"
      "Classic denim jeans with a modern fit."
      59.99 "clothing" 75 4.3 "jeans.jpg";
    sample "Coffee Maker"
      "Programmable coffee maker for the perfect morning brew."
      89.99 "home" 25 4.7 "coffeemaker.jpg";
    sample "Blender"
      "High-powered blender for smoothies and more."
      79.99 "home" 20 4.1 "blender.jpg";
    sample "Wireless Earbuds"
      "Compact wireless earbuds with amazing sound quality."
      129.99 "electronics" 40 4.6 "earbuds.jpg";
    sample "Running Shoes"
      "Lightweight and comfortable running shoes for all terrains."
      89.99 "clothing" 60 4.4 "shoes.jpg" ].

Section WithEngine.
Context {engine : Engine}.

(** [seedDatabase()]: a rejected [countDocuments] rejects the whole call;
    a rejected [insertMany] is caught and logged. *)
Definition seedDatabase : Eff World Exn unit :=
  count ← countDocuments;
  if (0 <? count)%nat then mret tt
  else tryCatch (insertMany sampleProducts ;; mret tt) (fun _ => mret tt).

(** The callback of [app.listen]: [seedDatabase()] is started and not
    awaited, so a rejection goes nowhere. *)
Definition startup (w : World) : World := (seedDatabase w).2.

(** *** From the server to the page *)

Definition jsonString (v : option string) : JsVal :=
  match v with Some s => JStr s | None => JNull end.

Definition jsonNumber (v : option float) : JsVal :=
  match v with Some x => JNum x | None => JNull end.

(** The object [res.json] sends for a document and [response.json()]
    gives back to the page. *)
Definition toJSON (p : Product) : gmap string JsVal :=
  <["_id" := JStr (toHexString (_id p))]>
  (<["name" := jsonString (name p)]>
  (<["description" := jsonString (description p)]>
  (<["price" := jsonNumber (price p)]>
  (<["category" := jsonString (category p)]>
  (<["image" := jsonString (image p)]>
  (<["stock" := jsonNumber (stock p)]>
  (<["rating" := jsonNumber (rating p)]>
  (<["createdAt" := JStr (toISOString (createdAt p))]>
  (<["__v" := JNum (__v p)]> ∅))))))))).

(** What the page receives from [GET /api/products]: the parsed array for
    a 200, nothing otherwise. *)
Definition fetched (r : Response) : option (list (gmap string JsVal)) :=
  match payload r with
  | ProductList l => if status r =? 200 then Some (List.map toJSON l) else None
  | _ => None
  end.

(** *** What requests and worlds the properties speak of *)

(** A value that casts to a text that is not empty. *)
Definition text (v : JsVal) : Prop :=
  exists s, castString v = Value s /\ s <> "".

(** A value that casts to a number. *)
Definition numeric (v : JsVal) : Prop :=
  exists x, castNumber v = Value x.

(** A body that passes the validation of [productSchema] when a document
    is created from it: the four required fields are there, as non-empty
    texts and a number, and [stock] and [rating] cast when given. *)
Definition acceptable (body : Body) : Prop :=
  text (bodyName body) /\ text (bodyDescription body)
  /\ numeric (bodyPrice body) /\ text (bodyCategory body)
  /\ castNumber (orElse (bodyStock body) (JNum 0)) <> CastFailed
  /\ castNumber (orElse (bodyRating body) (JNum 0)) <> CastFailed.

End WithEngine.

(** A digit or the minus sign: what the text of an integer starts with. *)
Definition digitOrMinus (c : ascii) : bool :=
  let n := N_of_ascii c in
  ((48 <=? n) && (n <=? 57) || (n =? 45))%N.

(** The first character of a string is a digit or the minus sign. *)
Definition startsLikeNumber (s : string) : bool :=
  match s with
  | String c _ => digitOrMinus c
  | EmptyString => false
  end.

(** A name the [filename] callback of the disk storage can give a file. *)
Definition uploadedName (f : string) : Prop :=
  exists clock upload, f = storageFilename clock upload.

(** The store answers its next [n] calls. *)
Definition storeAnswers (n : nat) (w : World) : Prop :=
  Forall (fun outcome => outcome = None) (take n (storeFaults w)).

(** Every identifier in the collection was handed out before: the next
    one is new. *)
Definition coherent (w : World) : Prop :=
  Forall (fun p => (_id p < nextObjectId w)%N) (products w).




(** *** The application *)

(** A request one of the routes answers. *)
Inductive Request : Type :=
  | GetProducts                                                   (* GET /api/products *)
  | GetProductsByCategory (category : string)   (* GET /api/products/category/:category *)
  | GetProduct (id : string)                                  (* GET /api/products/:id *)
  | GetImage (imageName : string)               (* GET /api/products/images/:imageName *)
  | PostProduct (body : Body) (upload : option Upload)           (* POST /api/products *)
  | PutProduct (id : string) (body : Body) (upload : option Upload)
                                                              (* PUT /api/products/:id *)
  | DeleteProduct (id : string).                           (* DELETE /api/products/:id *)

Section WithEngine.
Context {engine : Engine}.

(** The route of a request. *)
Definition route (policy : UndefinedPolicy) (request : Request) : Eff World Exn Response :=
  match request with
  | GetProducts => listProducts
  | GetProductsByCategory c => listProductsByCategory c
  | GetProduct id => getProduct id
  | GetImage imageName => getImage imageName
  | PostProduct body upload => postProduct body upload
  | PutProduct id body upload => putProduct policy id body upload
  | DeleteProduct id => deleteProduct id
  end.

(** The world after a sequence of requests, each handled to its end at
    the time it arrives. *)
Fixpoint serve (policy : UndefinedPolicy) (requests : list (Z * Request)) (w : World)
  : World :=
  match requests with
  | [] => w
  | (clock, request) :: rest =>
      serve policy rest (route policy request (set_now clock w)).2
  end.

End WithEngine.

(** The identifiers of the collection are pairwise distinct. *)
Definition distinctIds (w : World) : Prop :=
  NoDup (List.map _id (products w)).

(** The largest number an [ObjectId], twelve bytes, can hold is one less. *)
Definition objectIdLimit : N := (16 ^ 24)%N.

(** A decimal digit. *)
Definition isDigit (c : ascii) : bool :=
  let n := N_of_ascii c in
  ((48 <=? n) && (n <=? 57))%N.

(** A string of decimal digits. *)
Fixpoint allDigits (s : string) : bool :=
  match s with
  | EmptyString => true
  | String c s' => isDigit c && allDigits s'
  end.

End Backend.

(** ** Concrete runs *)

Module Scenario.
Import Js Backend.

(** *** A runtime to evaluate closed examples on *)

Definition digitValue (c : ascii) : option Z :=
  let n := Z.of_N (N_of_ascii c) in
  if (48 <=? n) && (n <=? 57) then Some (n - 48) else None.

Fixpoint digitsValue (acc : Z) (s : string) : option Z :=
  match s with
  | EmptyString => Some acc
  | String c s' =>
      match digitValue c with
      | Some d => digitsValue (10 * acc + d) s'
      | None => None
      end
  end.

(** [s] cut at its first dot. *)
Fixpoint cutAtDot (s : string) : string * string :=
  match s with
  | EmptyString => (EmptyString, EmptyString)
  | String c s' =>
      if Ascii.eqb c "."%char then (EmptyString, s')
      else let (a, b) := cutAtDot s' in (String c a, b)
  end.

(** The number of an unsigned decimal of at most fifteen digits, as the
    quotient of two integers that binary64 holds exactly; [NaN] for any
    other text. *)
Definition plainDecimal (s : string) : float :=
  let (whole, fraction) := cutAtDot s in
  let digits := (whole ++ fraction)%string in
  if ((String.length whole =? 0) || (15 <? String.length digits))%nat then nan
  else
    match digitsValue 0 digits with
    | Some n =>
        (PrimFloat.of_uint63 (Uint63.of_Z n)
         / PrimFloat.of_uint63 (Uint63.of_Z (10 ^ Z.of_nat (String.length fraction))))%float
    | None => nan
    end.

Definition codeOrder (a b : string) : float :=
  match String.compare a b with
  | Lt => (-1)%float
  | Eq => 0%float
  | Gt => 1%float
  end.

(** The sort of the example runtime is the stable insertion sort, elements
    entering from the right.  An engine is free to compare other pairs; on
    a comparator that orders the elements totally, as those of the closed
    examples do, every stable sort returns the same array. *)
Section InsertionSort.
Context {E A : Type}.
Implicit Types (cmp : A -> A -> Completion E float) (l r : list A).

Fixpoint insertSorted cmp (x : A) l : Completion E (list A) :=
  match l with
  | [] => Normal [x]
  | y :: l' =>
      v ← cmp x y;
      match sortOrder v with
      | Gt => r ← insertSorted cmp x l'; Normal (y :: r)
      | _ => Normal (x :: l)
      end
  end.

Fixpoint insertionSort cmp l : Completion E (list A) :=
  match l with
  | [] => Normal []
  | x :: l' => s ← insertionSort cmp l'; insertSorted cmp x s
  end.

Lemma insertSorted_permutes cmp x l : forall r,
  insertSorted cmp x l = Normal r -> Permutation r (x :: l).
Proof.
  induction l as [|y l IH]; intros r; cbn [insertSorted].
  - by intros [= <-].
  - unfold mbind, Completion_bind. destruct (cmp x y) as [v|]; [|done].
    destruct (sortOrder v); try (by intros [= <-]).
    destruct (insertSorted cmp x l) as [r'|]; [|done]. intros [= <-].
    rewrite (IH r' eq_refl). apply Permutation_swap.
Qed.

Lemma insertionSort_permutes cmp l : forall r,
  insertionSort cmp l = Normal r -> Permutation r l.
Proof.
  induction l as [|x l IH]; intros r; cbn [insertionSort].
  - by intros [= <-].
  - unfold mbind, Completion_bind. destruct (insertionSort cmp l) as [s|]; [|done].
    intros Hr. rewrite (insertSorted_permutes _ _ _ _ Hr). by rewrite (IH s eq_refl).
Qed.

Lemma insertSorted_returns cmp x l :
  (forall y, In y l -> exists v, cmp x y = Normal v) ->
  exists r, insertSorted cmp x l = Normal r.
Proof.
  induction l as [|y l IH]; intros Hcmp; cbn [insertSorted]; [by eexists|].
  unfold mbind, Completion_bind. destruct (Hcmp y (or_introl eq_refl)) as [v ->].
  destruct (sortOrder v); try (by eexists).
  destruct IH as [r' ->]; [|by eexists]. intros z Hz. apply Hcmp. by right.
Qed.

Lemma insertionSort_returns cmp l :
  (forall a b, In a l -> In b l -> exists v, cmp a b = Normal v) ->
  exists r, insertionSort cmp l = Normal r.
Proof.
  induction l as [|x l IH]; intros Hcmp; cbn [insertionSort]; [by eexists|].
  destruct IH as [s Hs].
  { intros a b Ha Hb. apply Hcmp; by right. }
  unfold mbind, Completion_bind. rewrite Hs. apply insertSorted_returns.
  intros y Hy. apply Hcmp; [by left|]. right.
  apply (Permutation_in y (insertionSort_permutes _ _ _ Hs) Hy).
Qed.

Lemma insertionSort_keeps_equals cmp l :
  (forall a b, In a l -> In b l -> exists v, cmp a b = Normal v /\ sortOrder v = Eq) ->
  insertionSort cmp l = Normal l.
Proof.
  induction l as [|x l IH]; intros Hcmp; cbn [insertionSort]; [done|].
  rewrite IH by (intros a b Ha Hb; apply Hcmp; by right).
  unfold mbind, Completion_bind. destruct l as [|y l]; [done|]. cbn [insertSorted].
  destruct (Hcmp x y (or_introl eq_refl) (or_intror (or_introl eq_refl))) as (v & -> & Hv).
  unfold mbind, Completion_bind. by rewrite Hv.
Qed.

End InsertionSort.

(** The closed examples exercise [StringToNumber] on plain decimals, where
    [plainDecimal] is exact, and [sort]; they reach none of the other
    built-ins, which get the simplest total definitions. *)
Definition exampleEngine : Engine :=
  {| StringToNumber := plainDecimal;
     NumberToString := fun _ => "NaN";
     localeCompare := codeOrder;
     toISOString := decimal;
     sort := @insertionSort;
     sort_permutes := @insertionSort_permutes;
     sort_returns := @insertionSort_returns;
     sort_keeps_equals := @insertionSort_keeps_equals |}.

(** *** Pages *)

(** An object with the properties the page script reads. *)
Definition pageProduct (id title console description : string) (currentPrice : float)
  : gmap string JsVal :=
  <["_id" := JStr id]>
  (<["title" := JStr title]>
  (<["console" := JStr console]>
  (<["description" := JStr description]>
  (<["currentPrice" := JNum currentPrice]>
  (<["image" := JStr (id ++ ".jpg")]> ∅))))).

Definition nineProducts : list (gmap string JsVal) :=
  [ pageProduct "1" "Alpha" "home" "first" 9;
    pageProduct "2" "Bravo" "home" "second" 8;
    pageProduct "3" "Charlie" "home" "third" 7;
    pageProduct "4" "Delta" "home" "fourth" 6;
    pageProduct "5" "Echo" "home" "fifth" 5;
    pageProduct "6" "Foxtrot" "home" "sixth" 4;
    pageProduct "7" "Golf" "home" "seventh" 3;
    pageProduct "8" "Hotel" "home" "eighth" 2;
    pageProduct "9" "India" "home" "ninth" 1 ].

(** The page once [nineProducts] are fetched. *)
Definition loadedPage : Client.Page :=
  (Client.fetchProducts (engine := exampleEngine) (Some nineProducts)
     (Client.initialPage "" "" "")).2.

(** ... and then sorted by price. *)
Definition sortedPage : Client.Page :=
  Client.dispatch (engine := exampleEngine) (Client.SortChange "price_asc") loadedPage.

(** ... and then searched for a text no product has. *)
Definition noMatchPage : Client.Page :=
  Client.dispatch (engine := exampleEngine) (Client.SearchInput "zzz") sortedPage.

(** *** Requests *)

Definition emptyBody : Body :=
  {| bodyName := JUndefined; bodyDescription := JUndefined; bodyPrice := JUndefined;
     bodyCategory := JUndefined; bodyStock := JUndefined; bodyRating := JUndefined |}.

(** The fields of a mug, as a multipart form sends them: all text. *)
Definition mugBody : Body :=
  {| bodyName := JStr "Mug"; bodyDescription := JStr "A mug"; bodyPrice := JStr "9.99";
     bodyCategory := JStr "home"; bodyStock := JStr "10"; bodyRating := JUndefined |}.

(** The same with a price that is no number. *)
Definition wordPriceBody : Body :=
  {| bodyName := JStr "Mug"; bodyDescription := JStr "A mug"; bodyPrice := JStr "abc";
     bodyCategory := JStr "home"; bodyStock := JStr "10"; bodyRating := JUndefined |}.

(** An update of the stock alone. *)
Definition stockBody : Body :=
  {| bodyName := JUndefined; bodyDescription := JUndefined; bodyPrice := JUndefined;
     bodyCategory := JUndefined; bodyStock := JStr "5"; bodyRating := JUndefined |}.

Definition mugPng : Upload := {| originalname := "mug.png"; storingTime := 12 |}.
Definition mug2Png : Upload := {| originalname := "mug2.png"; storingTime := 7 |}.

(** The identifier of the first document, as a route parameter. *)
Definition firstId : string := "000000000000000000000000".

(** *** Worlds *)

(** A fresh deployment in which the mug was created, a minute later. *)
Definition mugWorld : World :=
  set_now 1700000060000
    (postProduct (engine := exampleEngine) mugBody (Some mugPng)
       (freshWorld 1700000000000)).2.

(** The document of the mug. *)
Definition mugDoc : Product :=
  {| _id := 0%N;
     name := Some "Mug";
     description := Some "A mug";
     price := Some 9.99%float;
     category := Some "home";
     image := Some "1700000000000-mug.png";
     stock := Some 10%float;
     rating := Some 0%float;
     createdAt := 1700000000012;
     __v := 0%float |}.

(** The document of the mug once its stock is set to 5. *)
Definition restockedMugDoc : Product :=
  {| _id := 0%N;
     name := Some "Mug";
     description := Some "A mug";
     price := Some 9.99%float;
     category := Some "home";
     image := Some "1700000000000-mug.png";
     stock := Some 5%float;
     rating := Some 0%float;
     createdAt := 1700000000012;
     __v := 0%float |}.


(** ... and once it has a new picture as well. *)
Definition repicturedMugDoc : Product :=
  {| _id := 0%N;
     name := Some "Mug";
     description := Some "A mug";
     price := Some 9.99%float;
     category := Some "home";
     image := Some "1700000060000-mug2.png";
     stock := Some 5%float;
     rating := Some 0%float;
     createdAt := 1700000000012;
     __v := 0%float |}.

(** The same world while the image of the mug is held open: the file
    cannot be removed. *)
Definition busyWorld : World :=
  set_uploads (<["1700000000000-mug.png" := InUse]> (uploads mugWorld))
    mugWorld.

(** The same world with a store that answers one call and rejects the
    next. *)
Definition flakyWorld : World :=
  set_storeFaults [None; Some "connection lost"] mugWorld.

(** The name the picture of the mug was stored under. *)
Definition mugPicture : string := "1700000000000-mug.png".

(** An update that blanks the name. *)
Definition unnamedBody : Body :=
  {| bodyName := JStr ""; bodyDescription := JUndefined; bodyPrice := JUndefined;
     bodyCategory := JUndefined; bodyStock := JUndefined; bodyRating := JUndefined |}.

(** A page holding a product the script can draw and one it cannot, an
    object without properties. *)
Definition halfDrawnPage : Client.Page :=
  Client.set_filteredProducts [pageProduct "1" "Alpha" "home" "first" 9; ∅]
    (Client.initialPage "" "" "").

(** *** From a fresh deployment to the page *)

Section WithEngine.
Context {engine : Engine}.

(** A fresh deployment, started: [seedDatabase] has run. *)
Definition seededWorld : World := startup (freshWorld 1700000000000).

(** The array the page parses from [GET /api/products] of that server. *)
Definition servedProducts : list (gmap string JsVal) :=
  match (listProducts seededWorld).1 with
  | Normal response => default [] (fetched response)
  | Thrown _ => []
  end.

(** The page once it has fetched them. *)
Definition servedPage : Client.Page :=
  (Client.fetchProducts (Some servedProducts) (Client.initialPage "" "" "")).2.

End WithEngine.

End Scenario.

(** * Properties *)

(** Unfolds the monads of [Eff] and [Completion]. *)
Ltac run :=
  repeat
    (progress
       (unfold mbind, mret, Eff_bind, Eff_ret, Completion_bind, Completion_ret,
          get, modify, throw, liftC, tryCatch in *;
        cbn in *)).

(** Closed equations are settled by evaluating both sides in the virtual
    machine; the values, some of them large maps, are compared there and
    not printed back. *)
Ltac evaluate :=
  lazymatch goal with
  | |- ?a = ?b => exact (@eq_refl _ a <: a = b)
  end.

(** The monad, run. *)
Lemma bind_run {S E A B} (m : Eff S E A) (k : A -> Eff S E B) s :
  (m ≫= k) s
  = match m s with
    | (Normal a, s') => k a s'
    | (Thrown e, s') => (Thrown e, s')
    end.
Proof. reflexivity. Qed.

Lemma tryCatch_bind {S E A B} (m : Eff S E A) (k : A -> Eff S E B) (h : E -> Eff S E B) s :
  tryCatch (m ≫= k) h s
  = match m s with
    | (Normal a, s') => tryCatch (k a) h s'
    | (Thrown e, s') => h e s'
    end.
Proof. unfold tryCatch, mbind, Eff_bind. by destruct (m s) as [[a|e] s']. Qed.

Module ClientTheory.
Import Js Client.

#[local] Arguments pageWindow : simpl never.

(** *** Pagination *)

Section Windows.
Context {A : Type}.
Implicit Types l : list A.

Lemma slice_inside (a b : nat) l :
  slice (Z.of_nat a) (Z.of_nat (a + b)) l = take b (drop a l).
Proof.
  unfold slice, relativeIndex.
  destruct (Z.ltb_spec (Z.of_nat a) 0); [lia|].
  destruct (Z.ltb_spec (Z.of_nat (a + b)) 0); [lia|].
  destruct (Nat.le_gt_cases a (length l)) as [Ha|Ha].
  - rewrite (Z.min_l (Z.of_nat a)) by lia.
    rewrite Nat2Z.id.
    destruct (Nat.le_gt_cases (a + b) (length l)) as [Hb|Hb].
    + rewrite Z.min_l by lia. f_equal. lia.
    + rewrite Z.min_r by lia.
      replace (Z.to_nat (Z.of_nat (length l) - Z.of_nat a)) with (length (drop a l))
        by (rewrite length_drop; lia).
      rewrite firstn_all. symmetry. apply take_ge. rewrite length_drop. lia.
  - rewrite !Z.min_r by lia. rewrite Z.sub_diag. simpl.
    rewrite !drop_ge by lia. by destruct b.
Qed.

(** The window of page [k + 1] is the [k]-th block of eight. *)
Lemma pageWindow_block (k : nat) l :
  pageWindow (Z.of_nat (S k)) l = take 8 (drop (8 * k) l).
Proof.
  unfold pageWindow, productsPerPage.
  replace ((Z.of_nat (S k) - 1) * 8) with (Z.of_nat (8 * k)) by lia.
  replace (Z.of_nat (8 * k) + 8) with (Z.of_nat (8 * k + 8)) by lia.
  apply slice_inside.
Qed.

Lemma blocks_concat (n : nat) : forall l,
  (length l <= 8 * n)%nat ->
  concat (List.map (fun k => take 8 (drop (8 * k) l)) (seq 0 n)) = l.
Proof.
  induction n as [|n IH]; intros l Hl.
  - destruct l; [done | simpl in Hl; lia].
  - cbn [seq List.map concat]. rewrite <- seq_shift, List.map_map.
    replace (8 * 0)%nat with 0%nat by lia. rewrite drop_0.
    transitivity (take 8 l ++ drop 8 l); [| apply take_drop].
    f_equal.
    rewrite <- (IH (drop 8 l)) by (rewrite length_drop; lia).
    f_equal. apply List.map_ext. intros k. rewrite drop_drop. do 2 f_equal. lia.
Qed.

Lemma totalPages_covers l :
  0 <= totalPages l /\ Z.of_nat (length l) <= 8 * totalPages l
  /\ 8 * totalPages l < Z.of_nat (length l) + 8.
Proof.
  unfold totalPages, totalPagesOf, productsPerPage.
  pose proof (Z.div_mod (Z.of_nat (length l) + (8 - 1)) 8 ltac:(lia)).
  pose proof (Z.mod_pos_bound (Z.of_nat (length l) + (8 - 1)) 8 ltac:(lia)).
  lia.
Qed.

End Windows.

(** C6.  Pagination partitions the filtered sequence: the windows of pages
    [1 .. totalPages], concatenated in order, are the sequence itself, so
    every element is on exactly one page at its own position; and every
    page before the last holds exactly eight elements. *)
Theorem pagination_partitions {A : Type} (l : list A) :
  concat (List.map (fun p => pageWindow (Z.of_nat p) l)
                   (seq 1 (Z.to_nat (totalPages l)))) = l
  /\ (forall p : Z, 1 <= p < totalPages l -> length (pageWindow p l) = 8%nat).
Proof.
  destruct (totalPages_covers l) as (H0 & Hup & Hlow). split.
  - rewrite <- seq_shift, List.map_map.
    erewrite List.map_ext; [apply blocks_concat; lia|].
    intros k. apply pageWindow_block.
  - intros p Hp.
    replace p with (Z.of_nat (S (Z.to_nat (p - 1)))) by lia.
    rewrite pageWindow_block, length_take, length_drop. lia.
Qed.

(** Nineteen elements make three pages of eight, eight and three. *)
Lemma pagination_partitions_witness :
  1 <= 2 < totalPages (seq 0 19) /\ length (pageWindow 2 (seq 0 19)) = 8%nat.
Proof.
  split; [vm_compute; split; [discriminate | reflexivity] |].
  apply (proj2 (pagination_partitions (seq 0 19))).
  vm_compute; split; [discriminate | reflexivity].
Defined.

(** *** Rendering and events *)

Lemma sameData_refl st : sameData st st.
Proof. by repeat split. Qed.

Lemma sameData_trans st1 st2 st3 : sameData st1 st2 -> sameData st2 st3 -> sameData st1 st3.
Proof. unfold sameData. intros H1 H2. intuition congruence. Qed.

Lemma sameData_grid g st : sameData st (set_productGrid g st).
Proof. by repeat split. Qed.

Lemma sameData_pagination bs st : sameData st (set_paginationElement bs st).
Proof. by repeat split. Qed.

(** The loop of [renderProducts] appends the cards of the window; when
    a card throws, the cards before it are in the grid. *)
Lemma forEach_cards (l : list JsObj) : forall st cs0,
  productGrid st = Cards cs0 ->
  let '(r, st') :=
    forEach (fun product => card ← liftC (productCard product); modify (appendCard card)) l st in
  sameData st st' /\ paginationElement st' = paginationElement st
  /\ match r with
     | Normal _ => exists cs, cardsOf l = Normal cs /\ productGrid st' = Cards (cs0 ++ cs)
     | Thrown _ => forall cs, cardsOf l <> Normal cs
     end.
Proof.
  induction l as [|product l IH]; intros st cs0 Hg.
  - cbn. split; [apply sameData_refl|]. split; [done|]. exists []. by rewrite app_nil_r.
  - cbn [forEach cardsOf]. run. destruct (productCard product) as [c|e]; cbn.
    + specialize (IH (appendCard c st) (cs0 ++ [c])).
      unfold appendCard at 1 in IH. rewrite Hg in IH. specialize (IH eq_refl).
      destruct (forEach _ l (appendCard c st)) as [r st'].
      destruct IH as (Hs & Hp & Hr). split; [|split].
      * eapply sameData_trans; [|exact Hs]. apply sameData_grid.
      * by rewrite Hp.
      * destruct r as [[]|e].
        -- destruct Hr as (cs & -> & ->). exists (c :: cs). by rewrite <- app_assoc.
        -- intros cs. destruct (cardsOf l) as [cs'|]; [|done]. by destruct (Hr cs').
    + split; [apply sameData_refl|]. split; [done|]. done.
Qed.

Lemma forEach_cards_thrown (l : list JsObj) : forall st cs0 e,
  productGrid st = Cards cs0 ->
  cardsOf l = Thrown e ->
  let out :=
    forEach (fun product => card ← liftC (productCard product); modify (appendCard card)) l st in
  out.1 = Thrown e
  /\ productGrid out.2 = Cards (cs0 ++ cardsBefore l)
  /\ paginationElement out.2 = paginationElement st
  /\ sameData st out.2.
Proof.
  induction l as [|product l IH]; intros st cs0 e Hg Hthrown; [done|].
  cbn [forEach cardsOf cardsBefore] in *. cbv zeta. run.
  destruct (productCard product) as [c|e'] eqn:Hc; cbn in *.
  - destruct (cardsOf l) as [cs|e''] eqn:Hl; [done|]. injection Hthrown as ->.
    specialize (IH (appendCard c st) (cs0 ++ [c]) e).
    unfold appendCard at 1 in IH. rewrite Hg in IH. specialize (IH eq_refl eq_refl).
    cbv zeta in IH. destruct IH as (Hr & Hgrid & Hbar & Hsame).
    split; [done|]. split; [by rewrite Hgrid, <- app_assoc|]. split; [done|].
    eapply sameData_trans; [|exact Hsame]. apply sameData_grid.
  - injection Hthrown as ->. rewrite app_nil_r. repeat split; done.
Qed.

Lemma pageButtons_drawn current (n : nat) : forall (i m : Z),
  1 <= i -> i + Z.of_nat n <= m + 1 ->
  Forall (drawnFor m) (pageButtons current i n).
Proof.
  induction n as [|n IH]; intros i m Hi Hm; cbn [pageButtons]; constructor.
  - unfold drawnFor; cbn. lia.
  - apply IH; lia.
Qed.

Lemma renderPagination_spec st :
  let '(r, st') := renderPagination st in
  r = Normal tt /\ sameData st st' /\ productGrid st' = productGrid st
  /\ controlsCurrent st'.
Proof.
  unfold renderPagination. run.
  destruct (totalPages (filteredProducts st) <=? 1) eqn:Hn; cbn.
  - repeat split. constructor.
  - repeat split. unfold controlsCurrent, pageCount; cbn.
    apply Z.leb_gt in Hn.
    constructor; [exact I|]. apply Forall_app. split.
    + apply pageButtons_drawn; lia.
    + constructor; [reflexivity | constructor].
Qed.

Lemma controlsCurrent_sameData st st' :
  sameData st st' -> paginationElement st' = paginationElement st ->
  controlsCurrent st -> controlsCurrent st'.
Proof.
  unfold controlsCurrent, pageCount. intros (_ & -> & _) ->. done.
Qed.

(** [renderProducts] writes the grid and the pagination bar and nothing
    else; when it returns, the grid shows the current window; the bar is
    redrawn exactly when that window is not empty. *)
Lemma renderProducts_spec st :
  let '(r, st') := renderProducts st in
  sameData st st'
  /\ (r = Normal tt -> rendered st')
  /\ (controlsCurrent st -> controlsCurrent st')
  /\ (r = Normal tt -> pageWindow (currentPage st) (filteredProducts st) <> [] ->
      controlsCurrent st').
Proof.
  unfold renderProducts. run.
  destruct (pageWindow (currentPage st) (filteredProducts st)) as [|x window] eqn:Hw;
    cbn [length Nat.eqb].
  - split; [by repeat split|]. split; [|split].
    + intros _. unfold rendered; cbn. by rewrite Hw.
    + done.
    + done.
  - pose proof (forEach_cards (x :: window) (set_productGrid (Cards []) st) [] eq_refl) as H.
    destruct (forEach _ (x :: window) (set_productGrid (Cards []) st)) as [r st1].
    destruct H as (Hs & Hp & Hr).
    assert (Hs1 : sameData st st1) by (eapply sameData_trans; [apply sameData_grid | exact Hs]).
    destruct r as [[]|e].
    + pose proof (renderPagination_spec st1) as H2.
      destruct (renderPagination st1) as [r2 st2].
      destruct H2 as (-> & Hs2 & Hg2 & Hc2).
      assert (Hs12 : sameData st st2) by (eapply sameData_trans; eauto).
      split; [done|]. split; [|split; [done | done]].
      intros _. unfold rendered.
      destruct Hs12 as (_ & -> & -> & _). rewrite Hw.
      destruct Hr as (cs & Hcs & Hgrid). exists cs. split; [done|]. by rewrite Hg2, Hgrid.
    + split; [done|]. split; [done|]. split; [|done].
      intros Hc. eapply controlsCurrent_sameData; eauto.
Qed.

(** [renderProducts], run: what it answers and what it draws. *)
Lemma renderProducts_outcome st :
  sameData st (renderProducts st).2
  /\ drawn (currentPage st) (filteredProducts st) (paginationElement st)
       (renderProducts st).1 (renderProducts st).2.
Proof.
  unfold drawn, renderProducts. run.
  destruct (pageWindow (currentPage st) (filteredProducts st)) as [|x window] eqn:Hw;
    cbn [length Nat.eqb].
  - cbn. split; [by repeat split|]. split; [done|]. split; [|done].
    unfold rendered; cbn. by rewrite Hw.
  - destruct (cardsOf (x :: window)) as [cs|e] eqn:Hcards.
    + pose proof (forEach_cards (x :: window) (set_productGrid (Cards []) st) [] eq_refl) as H.
      destruct (forEach _ (x :: window) (set_productGrid (Cards []) st)) as [r st1].
      destruct H as (Hs & Hp & Hr).
      assert (Hs1 : sameData st st1)
        by (eapply sameData_trans; [apply sameData_grid | exact Hs]).
      destruct r as [[]|e]; [|by destruct (Hr cs)].
      pose proof (renderPagination_spec st1) as H2.
      destruct (renderPagination st1) as [r2 st2].
      destruct H2 as (-> & Hs2 & Hg2 & Hc2).
      assert (Hs12 : sameData st st2) by (eapply sameData_trans; eauto).
      cbn [fst snd]. split; [done|]. split; [done|]. split; [|done].
      unfold rendered.
      destruct Hs12 as (_ & -> & -> & _). rewrite Hw.
      destruct Hr as (cs' & Hcs & Hgrid). exists cs'. split; [done|]. by rewrite Hg2, Hgrid.
    + pose proof (forEach_cards_thrown (x :: window) (set_productGrid (Cards []) st) [] e
                    eq_refl Hcards) as H.
      cbv zeta in H.
      destruct (forEach _ (x :: window) (set_productGrid (Cards []) st)) as [r st1].
      cbn [fst snd] in H. destruct H as (-> & Hgrid & Hbar & Hsame).
      cbn [fst snd]. split; [|done].
      eapply sameData_trans; [|exact Hsame]. apply sameData_grid.
Qed.

Section WithEngine.
Context {engine : Engine}.

Lemma selection_ext st st' :
  allProducts st' = allProducts st -> categoryFilter st' = categoryFilter st ->
  sortBySelect st' = sortBySelect st -> searchInput st' = searchInput st ->
  selection st' = selection st.
Proof. unfold selection. by intros -> -> -> ->. Qed.

(** [applyFilters], once its filter and its sort have returned, is
    [renderProducts] on the page holding the selection at page 1. *)
Lemma applyFilters_selected st l :
  selection st = Normal l ->
  applyFilters st
  = renderProducts (set_currentPage 1 (set_filteredProducts l st)).
Proof.
  unfold selection, applyFilters. run.
  destruct (filterM _ (allProducts st)) as [filtered|]; [|done]. cbn.
  intros ->. done.
Qed.

(** A filter or a sort that throws leaves [currentPage] and the drawn
    page as they were. *)
Lemma applyFilters_thrown st e :
  selection st = Thrown e ->
  (applyFilters st).1 = Thrown e
  /\ currentPage (applyFilters st).2 = currentPage st
  /\ productGrid (applyFilters st).2 = productGrid st.
Proof.
  unfold selection, applyFilters. run.
  destruct (filterM _ (allProducts st)) as [filtered|e']; cbn.
  - intros ->. done.
  - intros [= ->]. done.
Qed.

Lemma pageWindow_first {A} (l : list A) : pageWindow 1 l = take 8 l.
Proof. apply (pageWindow_block 0 l). Qed.

(** [currentPage = c; renderProducts()] *)
Lemma goto_spec st c :
  let '(r, st') := renderProducts (set_currentPage c st) in
  allProducts st' = allProducts st /\ filteredProducts st' = filteredProducts st
  /\ categoryFilter st' = categoryFilter st /\ sortBySelect st' = sortBySelect st
  /\ searchInput st' = searchInput st /\ currentPage st' = c
  /\ (r = Normal tt -> rendered st')
  /\ (controlsCurrent st -> controlsCurrent st').
Proof.
  pose proof (renderProducts_spec (set_currentPage c st)) as H.
  destruct (renderProducts _) as [r st'].
  destruct H as ((Ha & Hf & Hp & Hcat & Hsort & Hsearch & _) & Hr & Hc & _).
  cbn in *. repeat split; done.
Qed.

Lemma click_spec k st :
  let '(r, st') := listenerOf (Click k) st in
  allProducts st' = allProducts st /\ filteredProducts st' = filteredProducts st
  /\ categoryFilter st' = categoryFilter st /\ sortBySelect st' = sortBySelect st
  /\ searchInput st' = searchInput st
  /\ (rendered st -> r = Normal tt -> rendered st')
  /\ (controlsCurrent st -> pageInRange st -> pageInRange st' /\ controlsCurrent st').
Proof.
  assert (Hstay : forall st, (allProducts st = allProducts st
      /\ filteredProducts st = filteredProducts st
      /\ categoryFilter st = categoryFilter st /\ sortBySelect st = sortBySelect st
      /\ searchInput st = searchInput st
      /\ (rendered st -> @Normal Exn unit tt = Normal tt -> rendered st)
      /\ (controlsCurrent st -> pageInRange st -> pageInRange st /\ controlsCurrent st)))
    by (intros st0; do 5 (split; [reflexivity|]); split; intros; [assumption | split; assumption]).
  cbn [listenerOf]. run.
  destruct (paginationElement st !! k) as [b|] eqn:Hb; [|apply Hstay].
  destruct (disabled b); [apply Hstay|].
  assert (Hdrawn : controlsCurrent st -> drawnFor (pageCount st) b).
  { unfold controlsCurrent. rewrite Forall_lookup. eauto. }
  unfold onClick. run. unfold drawnFor in Hdrawn.
  destruct (listener b) as [|i|n].
  - destruct (Z.ltb_spec 1 (currentPage st)); [|apply Hstay]. run.
    pose proof (goto_spec st (currentPage st - 1)) as H'.
    destruct (renderProducts _) as [r st'].
    destruct H' as (Ha & Hf & Hcat & Hsort & Hsearch & Hp & Hr & Hc).
    repeat split; try done; unfold pageInRange, pageCount in *; rewrite ?Hf, ?Hp;
      try lia; auto.
  - pose proof (goto_spec st i) as H'.
    destruct (renderProducts _) as [r st'].
    destruct H' as (Ha & Hf & Hcat & Hsort & Hsearch & Hp & Hr & Hc).
    repeat split; try done; unfold pageInRange, pageCount in *; rewrite ?Hf, ?Hp;
      try (specialize (Hdrawn ltac:(assumption)); lia); auto.
  - destruct (Z.ltb_spec (currentPage st) n); [|apply Hstay]. run.
    pose proof (goto_spec st (currentPage st + 1)) as H'.
    destruct (renderProducts _) as [r st'].
    destruct H' as (Ha & Hf & Hcat & Hsort & Hsearch & Hp & Hr & Hc).
    repeat split; try done; unfold pageInRange, pageCount in *; rewrite ?Hf, ?Hp;
      try (specialize (Hdrawn ltac:(assumption)); lia); auto.
Qed.

End WithEngine.

Section WithEngine.
Context {engine : Engine}.

(** A filter change whose filter or sort throws, run. *)
Lemma applyFilters_thrown_bar st e :
  selection st = Thrown e ->
  paginationElement (applyFilters st).2 = paginationElement st
  /\ allProducts (applyFilters st).2 = allProducts st.
Proof.
  unfold selection, applyFilters. run.
  destruct (filterM _ (allProducts st)) as [filtered|e']; cbn.
  - intros ->. done.
  - intros [= ->]. done.
Qed.

(** The listener of the [k]-th control, run. *)
Lemma click_run k st :
  listenerOf (Click k) st
  = match paginationElement st !! k with
    | Some b =>
        if disabled b then (Normal tt, st)
        else match listener b with
             | OnPrevious =>
                 if 1 <? currentPage st
                 then renderProducts (set_currentPage (currentPage st - 1) st)
                 else (Normal tt, st)
             | OnPage i => renderProducts (set_currentPage i st)
             | OnNext n =>
                 if currentPage st <? n
                 then renderProducts (set_currentPage (currentPage st + 1) st)
                 else (Normal tt, st)
             end
    | None => (Normal tt, st)
    end.
Proof.
  cbn [listenerOf]. run.
  destruct (paginationElement st !! k) as [b|]; [|done].
  destruct (disabled b); [done|]. unfold onClick. run.
  destruct (listener b) as [|i|n]; [|done|].
  - by destruct (1 <? currentPage st).
  - by destruct (currentPage st <? n).
Qed.

(** [currentPage = c; renderProducts()], run. *)
Lemma goto_outcome st c :
  let out := renderProducts (set_currentPage c st) in
  allProducts out.2 = allProducts st /\ filteredProducts out.2 = filteredProducts st
  /\ currentPage out.2 = c
  /\ drawn c (filteredProducts st) (paginationElement st) out.1 out.2.
Proof.
  cbv zeta.
  destruct (renderProducts_outcome (set_currentPage c st))
    as ((Ha & Hf & Hp & _) & Hdrawn).
  done.
Qed.

(** C9, as the script has it, event by event.

    A filter change (category, sort or search) never touches
    [allProducts].  When its filter and its sort raise no exception, it
    sets [filteredProducts] to the sequence the active criteria select and
    [currentPage] to 1, and draws page 1 of that sequence.  When the filter
    or the sort throws, its listener throws, and [currentPage], the grid
    and the pagination bar are left as they were.

    A click changes neither [allProducts] nor [filteredProducts].  A click
    where there is no control, on a disabled control, on Previous at page
    1 or before, or on Next at or beyond the page count the control was
    drawn with, returns and leaves the page as it is.  Any other click sets
    [currentPage] to the page of the control (the one before, the one
    after, or the page of the button) and draws that page of the sequence
    the page holds.

    Drawing a page is [drawn]: the listener returns exactly when every card
    of the window can be drawn, and the grid then shows the window of
    [currentPage] over [filteredProducts].

    A click keeps [filteredProducts] what the active criteria select when
    it was; and while the controls on screen are those drawn for the
    sequence the page holds, it keeps [currentPage] between 1 and the page
    count (1 when the sequence is empty). *)
Theorem page_events_keep_page_consistent (ev : Event) (st : Page) :
  let r := (listenerOf ev st).1 in
  let st' := dispatch ev st in
  let moves (c : Z) : Prop :=
    allProducts st' = allProducts st /\ filteredProducts st' = filteredProducts st
    /\ currentPage st' = c
    /\ drawn c (filteredProducts st) (paginationElement st) r st' in
  let stays : Prop := r = Normal tt /\ st' = st in
  match ev with
  | Click k =>
      match paginationElement st !! k with
      | Some b =>
          if disabled b then stays
          else match listener b with
               | OnPrevious => if 1 <? currentPage st then moves (currentPage st - 1) else stays
               | OnPage i => moves i
               | OnNext n => if currentPage st <? n then moves (currentPage st + 1) else stays
               end
      | None => stays
      end
      /\ (consistent st -> consistent st')
      /\ (controlsCurrent st -> pageInRange st -> pageInRange st' /\ controlsCurrent st')
  | _ =>
      allProducts st' = allProducts st
      /\ match selection (input ev st) with
         | Normal l =>
             filteredProducts st' = l /\ currentPage st' = 1
             /\ consistent st' /\ pageInRange st'
             /\ drawn 1 l (paginationElement st) r st'
         | Thrown e =>
             r = Thrown e /\ currentPage st' = currentPage st
             /\ productGrid st' = productGrid st
             /\ paginationElement st' = paginationElement st
         end
  end.
Proof.
  unfold dispatch. cbv zeta.
  assert (Hfilter : isFilterChange ev = true ->
    allProducts (listenerOf ev st).2 = allProducts st
    /\ match selection (input ev st) with
       | Normal l =>
           filteredProducts (listenerOf ev st).2 = l /\ currentPage (listenerOf ev st).2 = 1
           /\ consistent (listenerOf ev st).2 /\ pageInRange (listenerOf ev st).2
           /\ drawn 1 l (paginationElement st) (listenerOf ev st).1 (listenerOf ev st).2
       | Thrown e =>
           (listenerOf ev st).1 = Thrown e
           /\ currentPage (listenerOf ev st).2 = currentPage st
           /\ productGrid (listenerOf ev st).2 = productGrid st
           /\ paginationElement (listenerOf ev st).2 = paginationElement st
       end).
  { intros Hev.
    assert (Hrun : listenerOf ev st = applyFilters (input ev st))
      by (destruct ev; try done).
    assert (Hin : allProducts (input ev st) = allProducts st
                  /\ currentPage (input ev st) = currentPage st
                  /\ productGrid (input ev st) = productGrid st
                  /\ paginationElement (input ev st) = paginationElement st)
      by (by destruct ev).
    destruct Hin as (Hin1 & Hin2 & Hin3 & Hin4).
    rewrite Hrun.
    destruct (selection (input ev st)) as [l|e] eqn:Hsel.
    - rewrite (applyFilters_selected _ _ Hsel).
      destruct (renderProducts_outcome (set_currentPage 1 (set_filteredProducts l (input ev st))))
        as (Hs & Hdrawn).
      pose proof Hs as (Ha & Hf & Hp & Hcat & Hsort & Hsearch & _).
      cbn [allProducts filteredProducts currentPage categoryFilter sortBySelect searchInput
           paginationElement set_currentPage set_filteredProducts] in *.
      split; [by rewrite Ha|]. split; [done|]. split; [done|]. split; [|split].
      + unfold consistent. rewrite Hf.
        rewrite (selection_ext (input ev st) _) by done. done.
      + unfold pageInRange. rewrite Hp. lia.
      + by rewrite <- Hin4.
    - destruct (applyFilters_thrown _ _ Hsel) as (Hr & Hp & Hg).
      destruct (applyFilters_thrown_bar _ _ Hsel) as (Hbar & Ha).
      split; [by rewrite Ha|]. rewrite Hr, Hp, Hg, Hbar. done. }
  destruct ev as [v|v|v|k]; [by apply Hfilter..|]. clear Hfilter.
  pose proof (click_spec k st) as Hkeep.
  destruct (listenerOf (Click k) st) as [r st'] eqn:Hrun. cbn [fst snd].
  destruct Hkeep as (Ha & Hf & Hcat & Hsort & Hsearch & _ & Hrange).
  split; [|split; [|done]].
  - rewrite click_run in Hrun.
    destruct (paginationElement st !! k) as [b|]; [|by injection Hrun as <- <-].
    destruct (disabled b); [by injection Hrun as <- <-|].
    destruct (listener b) as [|i|n].
    + destruct (1 <? currentPage st); [|by injection Hrun as <- <-].
      pose proof (goto_outcome st (currentPage st - 1)) as H. cbv zeta in H.
      by rewrite Hrun in H.
    + pose proof (goto_outcome st i) as H. cbv zeta in H. by rewrite Hrun in H.
    + destruct (currentPage st <? n); [|by injection Hrun as <- <-].
      pose proof (goto_outcome st (currentPage st + 1)) as H. cbv zeta in H.
      by rewrite Hrun in H.
  - unfold consistent. rewrite Hf. by rewrite (selection_ext st st').
Qed.

End WithEngine.

Lemma sorted_second_button :
  paginationElement Scenario.sortedPage !! 2%nat
  = Some {| listener := OnPage 2; disabled := false; active := false |}.
Proof. evaluate. Qed.

Lemma sorted_second_window :
  exists cards,
    cardsOf (pageWindow 2 (filteredProducts Scenario.sortedPage)) = Normal cards.
Proof. eexists. vm_compute. reflexivity. Qed.

(** On the page of nine products sorted by price, a click on the button
    of page 2 returns, moves the page there, and the grid shows the second
    window. *)
Lemma page_events_keep_page_consistent_witness :
  (listenerOf (engine := Scenario.exampleEngine) (Click 2) Scenario.sortedPage).1 = Normal tt
  /\ currentPage (dispatch (engine := Scenario.exampleEngine) (Click 2) Scenario.sortedPage) = 2
  /\ rendered (dispatch (engine := Scenario.exampleEngine) (Click 2) Scenario.sortedPage).
Proof.
  generalize sorted_second_window, sorted_second_button,
    (page_events_keep_page_consistent (engine := Scenario.exampleEngine)
       (Click 2) Scenario.sortedPage).
  generalize Scenario.sortedPage.
  intros st [cards Hcards] Hbutton H.
  cbv zeta in H. destruct H as [H _].
  rewrite Hbutton in H. cbn [disabled listener] in H.
  destruct H as (_ & Hsame & Hpage & Hdrawn).
  unfold drawn in Hdrawn. rewrite Hcards in Hdrawn.
  destruct Hdrawn as (Hr & Hrendered & _).
  exact (conj Hr (conj Hpage Hrendered)).
Defined.

(** C9, as stated, fails: after a search that matches nothing the page is
    at [currentPage = 1] while the filtered sequence has no page. *)
Lemma currentPage_exceeds_empty_page_count :
  filteredProducts Scenario.noMatchPage = []
  /\ currentPage Scenario.noMatchPage = 1
  /\ pageCount Scenario.noMatchPage = 0.
Proof. repeat split; evaluate. Qed.

(** The controls drawn before that search stay on screen, and a click on
    the old button of page 2 moves [currentPage] there. *)
Lemma stale_controls_after_empty_result :
  length (paginationElement Scenario.noMatchPage) = 4%nat
  /\ currentPage (dispatch (engine := Scenario.exampleEngine) (Click 2) Scenario.noMatchPage) = 2
  /\ pageCount (dispatch (engine := Scenario.exampleEngine) (Click 2) Scenario.noMatchPage) = 0.
Proof. repeat split; evaluate. Qed.

(** *** What the filter does on the properties it reads *)

Lemma lowerChar_idempotent c : lowerChar (lowerChar c) = lowerChar c.
Proof. by destruct c as [[] [] [] [] [] [] [] []]. Qed.

Lemma toLowerCase_idempotent s : toLowerCase (toLowerCase s) = toLowerCase s.
Proof. induction s as [|c s IH]; cbn; [done|]. by rewrite lowerChar_idempotent, IH. Qed.

(** With no search text the filter never throws, and keeps exactly the
    products whose property [console] is the selected category; all of
    them when none is selected. *)
Lemma category_filter_selects_console (c : string) (ps : list JsObj) :
  filterM (matchesFilters c "") ps
  = Normal (List.filter (fun p => isEmpty c || strictEqString (prop p "console") c) ps).
Proof.
  induction ps as [|p ps IH]; cbn [filterM List.filter]; [done|].
  rewrite IH. unfold matchesFilters. cbn.
  rewrite andb_true_r. by destruct (isEmpty c || strictEqString (prop p "console") c).
Qed.

Lemma category_filter_elements (c : string) (ps : list JsObj) (p : JsObj) :
  c <> "" ->
  p ∈ List.filter (fun p => isEmpty c || strictEqString (prop p "console") c) ps
  <-> p ∈ ps /\ p !! "console" = Some (JStr c).
Proof.
  intros Hc. rewrite !list_elem_of_In, filter_In. unfold isEmpty, prop, strictEqString.
  destruct (String.eqb_spec c ""); [done|]. cbn.
  destruct (p !! "console") as [[| | | |s]|]; cbn; try (split; intros [? ?]; done).
  destruct (String.eqb_spec s c) as [->|Hne]; split; intros [? ?]; try done.
  split; [done|]. congruence.
Qed.

Section WithEngine.
Context {engine : Engine}.

(** What [applyFilters] leaves in [filteredProducts]: the selection; the
    filtered, unsorted sequence when the sort threw; what was there when
    the filter threw. *)
Lemma applyFilters_assigns st :
  filteredProducts (applyFilters st).2
  = match filterM (matchesFilters (categoryFilter st) (toLowerCase (searchInput st)))
            (allProducts st) with
    | Thrown _ => filteredProducts st
    | Normal filtered =>
        match applySort (sortBySelect st) filtered with
        | Normal sorted => sorted
        | Thrown _ => filtered
        end
    end.
Proof.
  destruct (selection st) as [l|e] eqn:Hsel.
  - rewrite (applyFilters_selected _ _ Hsel).
    pose proof (renderProducts_spec (set_currentPage 1 (set_filteredProducts l st))) as H.
    destruct (renderProducts _) as [r st']. destruct H as ((_ & Hf & _) & _).
    cbn in Hf. cbn [snd]. rewrite Hf.
    unfold selection in Hsel. run.
    destruct (filterM _ (allProducts st)); [|done]. by rewrite Hsel.
  - unfold selection in Hsel. unfold applyFilters. run.
    destruct (filterM _ (allProducts st)); cbn; [|done]. by rewrite Hsel.
Qed.

(** The search is blind to the case of the text typed: the filtered
    sequence is the same for a text and for its lower-case form. *)
Lemma search_ignores_case_of_text (st : Page) (text : string) :
  filteredProducts (dispatch (SearchInput text) st)
  = filteredProducts (dispatch (SearchInput (toLowerCase text)) st).
Proof.
  unfold dispatch. cbn [listenerOf]. rewrite !bind_run. unfold modify. cbv beta iota.
  rewrite !applyFilters_assigns. cbn. by rewrite toLowerCase_idempotent.
Qed.

End WithEngine.

(** *** Sorting *)

(** The two sorts by price never throw, whatever the products hold, and
    return a rearrangement of the filtered sequence. *)
Lemma price_sorts_rearrange `{engine : Engine} (l : list JsObj) :
  (exists r, applySort "price_asc" l = Normal r /\ r ≡ₚ l)
  /\ (exists r, applySort "price_desc" l = Normal r /\ r ≡ₚ l).
Proof.
  split.
  - destruct (sort_returns byPriceAscending l) as [r Hr]; [intros; by eexists|].
    exists r. split; [exact Hr | by apply sort_permutes in Hr].
  - destruct (sort_returns byPriceDescending l) as [r Hr]; [intros; by eexists|].
    exists r. split; [exact Hr | by apply sort_permutes in Hr].
Qed.

(** *** Windows and pages *)

(** A page from 1 on shows products exactly when it is one of the pages
    of the sequence, and never more than eight of them. *)
Theorem window_empty_beyond_last_page {A : Type} (l : list A) (p : Z) :
  1 <= p ->
  (pageWindow p l = [] <-> totalPages l < p)
  /\ (length (pageWindow p l) <= 8)%nat.
Proof.
  intros Hp. destruct (totalPages_covers l) as (H0 & Hup & Hlow).
  replace p with (Z.of_nat (S (Z.to_nat (p - 1)))) at 1 3 by lia.
  rewrite pageWindow_block. split.
  - split.
    + intros Hnil. apply (f_equal length) in Hnil.
      rewrite length_take, length_drop in Hnil. cbn [length] in Hnil. lia.
    + intros Hlt. apply length_zero_iff_nil. rewrite length_take, length_drop. lia.
  - rewrite length_take. lia.
Qed.

Lemma window_empty_beyond_last_page_witness :
  1 <= 4 /\ pageWindow 4 (seq 0 19) = [] /\ pageWindow 3 (seq 0 19) = [16; 17; 18]%nat.
Proof.
  split; [lia|]. split; [|reflexivity].
  apply (proj1 (window_empty_beyond_last_page (seq 0 19) 4 ltac:(lia))).
  vm_compute. reflexivity.
Defined.

(** *** The pagination bar *)

Lemma pageButtons_length current (n : nat) : forall i, length (pageButtons current i n) = n.
Proof. induction n as [|n IH]; intros i; cbn; [done | by rewrite IH]. Qed.

Lemma pageButtons_lookup current (n : nat) : forall i (k : nat),
  (k < n)%nat ->
  pageButtons current i n !! k
  = Some {| listener := OnPage (i + Z.of_nat k); disabled := false;
            active := Z.eqb (i + Z.of_nat k) current |}.
Proof.
  induction n as [|n IH]; intros i k Hk; [lia|].
  destruct k as [|k]; cbn [pageButtons].
  - cbn. by rewrite Z.add_0_r.
  - cbn [lookup list_lookup]. change (pageButtons current (i + 1) n !! k = 
      Some {| listener := OnPage (i + Z.of_nat (S k)); disabled := false;
              active := Z.eqb (i + Z.of_nat (S k)) current |}).
    rewrite IH by lia. by replace (i + 1 + Z.of_nat k) with (i + Z.of_nat (S k)) by lia.
Qed.

Lemma pageButtons_active current (n : nat) : forall i,
  length (activeButtons (pageButtons current i n))
  = if (i <=? current) && (current <? i + Z.of_nat n) then 1%nat else 0%nat.
Proof.
  unfold activeButtons.
  induction n as [|n IH]; intros i; cbn [pageButtons List.filter active].
  - destruct (Z.leb_spec i current), (Z.ltb_spec current (i + Z.of_nat 0)); cbn; lia.
  - specialize (IH (i + 1)).
    destruct (Z.eqb_spec i current) as [->|Hne]; cbn [length]; rewrite IH.
    + destruct (Z.leb_spec (current + 1) current); [lia|].
      destruct (Z.leb_spec current current); [|lia].
      destruct (Z.ltb_spec current (current + Z.of_nat (S n))); [|lia]. done.
    + destruct (Z.leb_spec (i + 1) current), (Z.leb_spec i current),
        (Z.ltb_spec current (i + 1 + Z.of_nat n)), (Z.ltb_spec current (i + Z.of_nat (S n)));
        cbn; lia.
Qed.

(** The bar [renderPagination] draws.  With at most one page there are no
    controls.  With [n] pages, [n] above 1, there are [n + 2]: Previous,
    disabled on page 1; one button per page, the [i]-th going to page [i]
    and marked active exactly when [i] is the current page; and Next,
    disabled on page [n].  So exactly one button is marked when the current
    page is one of the [n], and none otherwise. *)
Theorem pagination_bar_layout (st : Page) :
  let n := pageCount st in
  let bar := paginationElement (renderPagination st).2 in
  (n <= 1 -> bar = [])
  /\ (1 < n ->
      length bar = S (S (Z.to_nat n))
      /\ bar !! 0%nat
         = Some {| listener := OnPrevious; disabled := Z.eqb (currentPage st) 1;
                   active := false |}
      /\ (forall i, 1 <= i <= n ->
          bar !! Z.to_nat i
          = Some {| listener := OnPage i; disabled := false;
                    active := Z.eqb i (currentPage st) |})
      /\ bar !! S (Z.to_nat n)
         = Some {| listener := OnNext n; disabled := Z.eqb (currentPage st) n;
                   active := false |}
      /\ length (activeButtons bar)
         = if (1 <=? currentPage st) && (currentPage st <=? n) then 1%nat else 0%nat).
Proof.
  cbv zeta. unfold pageCount, renderPagination. run.
  destruct (Z.leb_spec (totalPages (filteredProducts st)) 1) as [Hle|Hgt]; cbn.
  - split; [done | lia].
  - split; [lia|]. intros _.
    set (n := totalPages (filteredProducts st)) in *.
    split; [|split; [done|split; [|split]]].
    + rewrite length_app, pageButtons_length. cbn. lia.
    + intros i Hi. replace (Z.to_nat i) with (S (Z.to_nat (i - 1))) by lia.
      cbn [lookup list_lookup].
      change ((pageButtons (currentPage st) 1 (Z.to_nat n)
               ++ [{| listener := OnNext n; disabled := Z.eqb (currentPage st) n;
                      active := false |}]) !! Z.to_nat (i - 1) = 
              Some {| listener := OnPage i; disabled := false;
                      active := Z.eqb i (currentPage st) |}).
      rewrite lookup_app_l by (rewrite pageButtons_length; lia).
      rewrite pageButtons_lookup by lia.
      by replace (1 + Z.of_nat (Z.to_nat (i - 1))) with i by lia.
    + cbn [lookup list_lookup].
      change ((pageButtons (currentPage st) 1 (Z.to_nat n)
               ++ [{| listener := OnNext n; disabled := Z.eqb (currentPage st) n;
                      active := false |}]) !! Z.to_nat n = 
              Some {| listener := OnNext n; disabled := Z.eqb (currentPage st) n;
                      active := false |}).
      rewrite lookup_app_r by (rewrite pageButtons_length; lia).
      rewrite pageButtons_length, Nat.sub_diag. done.
    + unfold activeButtons. cbn [List.filter active].
      rewrite List.filter_app. cbn [List.filter active]. rewrite app_nil_r.
      fold (activeButtons (pageButtons (currentPage st) 1 (Z.to_nat n))).
      rewrite pageButtons_active.
      destruct (Z.leb_spec 1 (currentPage st)), (Z.leb_spec (currentPage st) n),
        (Z.ltb_spec (currentPage st) (1 + Z.of_nat (Z.to_nat n))); cbn; lia.
Qed.

Lemma pagination_bar_layout_witness :
  1 < pageCount Scenario.loadedPage
  /\ length (activeButtons (paginationElement (renderPagination Scenario.loadedPage).2))
     = 1%nat.
Proof.
  assert (Hpages : 1 < pageCount Scenario.loadedPage) by (vm_compute; reflexivity).
  split; [exact Hpages|].
  exact (proj2 (proj2 (proj2 (proj2 (proj2 (pagination_bar_layout Scenario.loadedPage)
                                       Hpages))))
         <: length (activeButtons (paginationElement (renderPagination Scenario.loadedPage).2))
            = 1%nat).
Defined.

(** *** Product cards *)

Lemma substring0_short (n : nat) : forall s, (String.length s <= n)%nat -> substring0 n s = s.
Proof.
  induction n as [|n IH]; intros [|c s] Hs; cbn in *; try done; [lia|].
  rewrite IH by lia. done.
Qed.

Lemma substring0_long (n : nat) : forall s,
  (n <= String.length s)%nat ->
  String.length (substring0 n s) = n /\ exists rest, s = (substring0 n s ++ rest)%string.
Proof.
  induction n as [|n IH]; intros s Hs; cbn.
  - destruct s; (split; [done|]); by eexists.
  - destruct s as [|c s]; cbn in *; [lia|].
    destruct (IH s ltac:(lia)) as [Hlen [rest Hrest]].
    split; [by rewrite Hlen|]. exists rest.
    change (String c s = String c (substring0 n s ++ rest)). by rewrite <- Hrest.
Qed.

Lemma string_length_append (s t : string) :
  String.length (s ++ t) = (String.length s + String.length t)%nat.
Proof.
  induction s as [|c s IH]; [done|].
  change (S (String.length (s ++ t)) = S (String.length s + String.length t)).
  by rewrite IH.
Qed.

Lemma string_append_empty (s : string) : (s ++ "")%string = s.
Proof.
  induction s as [|c s IH]; [done|].
  change (String c (s ++ "") = String c s). by rewrite IH.
Qed.

#[local] Arguments substring0 : simpl never.

(** The description on a card: a description of at most 60 characters is
    shown whole; a longer one is cut to its first 60 characters, followed
    by three dots. *)
Theorem card_description_is_cut_at_60 (product : JsObj) (c : Card) :
  productCard product = Normal c ->
  exists d,
    prop product "description" = JStr d
    /\ ((String.length d <= 60)%nat -> cardDescription c = d)
    /\ ((60 < String.length d)%nat ->
        String.length (cardDescription c) = 63%nat
        /\ exists rest, cardDescription c = (substring0 60 d ++ "...")%string
                        /\ d = (substring0 60 d ++ rest)%string).
Proof.
  unfold productCard.
  destruct (prop product "currentPrice"); try done.
  destruct (prop product "description") as [| | | |d]; try done.
  intros [= <-]. exists d. split; [done|]. cbn [cardDescription]. split.
  - intros Hd. destruct (Nat.ltb_spec 60 (String.length d)); [lia|].
    rewrite substring0_short by done. apply string_append_empty.
  - intros Hd. destruct (Nat.ltb_spec 60 (String.length d)); [|lia].
    destruct (substring0_long 60 d ltac:(lia)) as [Hlen [rest Hrest]].
    split.
    + rewrite string_length_append, Hlen. done.
    + exists rest. done.
Qed.

Lemma card_description_is_cut_at_60_witness :
  let product := Scenario.pageProduct "1" "Alpha" "home" "first" 9 in
  let card := {| cardImage := JStr "1.jpg"; cardTitle := JStr "Alpha"; cardPrice := 9;
                 cardDescription := "first"; cardId := JStr "1" |} in
  productCard product = Normal card
  /\ exists d,
       prop product "description" = JStr d
       /\ ((String.length d <= 60)%nat -> cardDescription card = d)
       /\ ((60 < String.length d)%nat ->
           String.length (cardDescription card) = 63%nat
           /\ exists rest, cardDescription card = (substring0 60 d ++ "...")%string
                           /\ d = (substring0 60 d ++ rest)%string).
Proof.
  cbv zeta. split; [reflexivity|].
  apply (card_description_is_cut_at_60 (Scenario.pageProduct "1" "Alpha" "home" "first" 9)).
  reflexivity.
Defined.

(** *** What the listeners leave alone *)

Section WithEngine.
Context {engine : Engine}.

Lemma listenerOf_filter_change ev st :
  isFilterChange ev = true -> listenerOf ev st = applyFilters (input ev st).
Proof. by destruct ev. Qed.

(** [applyFilters] writes [filteredProducts], [currentPage], the grid and
    the pagination bar, and nothing else. *)
Lemma applyFilters_frame st :
  allProducts (applyFilters st).2 = allProducts st
  /\ categoryFilter (applyFilters st).2 = categoryFilter st
  /\ sortBySelect (applyFilters st).2 = sortBySelect st
  /\ searchInput (applyFilters st).2 = searchInput st
  /\ loadingElement (applyFilters st).2 = loadingElement st.
Proof.
  destruct (selection st) as [l|e] eqn:Hsel.
  - rewrite (applyFilters_selected _ _ Hsel).
    pose proof (renderProducts_spec (set_currentPage 1 (set_filteredProducts l st))) as H.
    destruct (renderProducts _) as [r st'].
    destruct H as ((Ha & _ & _ & Hcat & Hsort & Hsearch & Hload) & _). done.
  - unfold selection in Hsel. unfold applyFilters. run.
    destruct (filterM _ (allProducts st)) as [filtered|]; cbn; [|done].
    rewrite Hsel. done.
Qed.

(** A filter change that selects nothing, run. *)
Lemma filter_change_empty ev st :
  isFilterChange ev = true ->
  selection (input ev st) = Normal [] ->
  (listenerOf ev st).1 = Normal tt
  /\ filteredProducts (dispatch ev st) = []
  /\ currentPage (dispatch ev st) = 1
  /\ productGrid (dispatch ev st) = NoProductsFound
  /\ paginationElement (dispatch ev st) = paginationElement st.
Proof.
  intros Hev Hsel. unfold dispatch.
  rewrite (listenerOf_filter_change _ _ Hev), (applyFilters_selected _ _ Hsel).
  unfold renderProducts. run. rewrite pageWindow_first. cbn.
  repeat split. by destruct ev.
Qed.

(** A click on a page button that was drawn before a filter change with an
    empty result: the page goes where the button says, although the
    filtered sequence has no page. *)
Lemma stale_click ev st (k : nat) (b : Button) (i : Z) :
  isFilterChange ev = true ->
  selection (input ev st) = Normal [] ->
  paginationElement st !! k = Some b -> disabled b = false -> listener b = OnPage i ->
  currentPage (dispatch (Click k) (dispatch ev st)) = i
  /\ pageCount (dispatch (Click k) (dispatch ev st)) = 0.
Proof.
  intros Hev Hsel Hb Hen Hl.
  destruct (filter_change_empty ev st Hev Hsel) as (_ & Hf & _ & _ & Hbar).
  set (st' := dispatch ev st) in *.
  unfold dispatch. cbn [listenerOf]. rewrite !bind_run. unfold get. cbv beta iota.
  rewrite Hbar, Hb, Hen. unfold onClick. rewrite !bind_run. unfold get. cbv beta iota.
  rewrite Hl, !bind_run. unfold modify. cbv beta iota.
  pose proof (goto_spec st' i) as H.
  destruct (renderProducts (set_currentPage i st')) as [r st2].
  destruct H as (_ & Hf2 & _ & _ & _ & Hp & _).
  cbn [snd]. split; [done|]. unfold pageCount. by rewrite Hf2, Hf.
Qed.

(** A filter change with an empty result: the grid shows the placeholder
    and [renderProducts] returns before it reaches [renderPagination], so
    the pagination bar is the one that was on screen before.  Its page
    buttons still work: a click on an enabled one moves [currentPage] to
    its page, while the filtered sequence has no page at all. *)
Theorem empty_result_keeps_old_controls (ev : Event) (st : Page) :
  isFilterChange ev = true ->
  selection (input ev st) = Normal [] ->
  (listenerOf ev st).1 = Normal tt
  /\ filteredProducts (dispatch ev st) = []
  /\ currentPage (dispatch ev st) = 1
  /\ productGrid (dispatch ev st) = NoProductsFound
  /\ paginationElement (dispatch ev st) = paginationElement st
  /\ (forall (k : nat) (b : Button) (i : Z),
      paginationElement st !! k = Some b -> disabled b = false -> listener b = OnPage i ->
      currentPage (dispatch (Click k) (dispatch ev st)) = i
      /\ pageCount (dispatch (Click k) (dispatch ev st)) = 0).
Proof.
  intros Hev Hsel.
  destruct (filter_change_empty ev st Hev Hsel) as (H1 & H2 & H3 & H4 & H5).
  do 5 (split; [done|]). intros k b i. by apply stale_click.
Qed.

(** [fetchProducts], case by case of the response and of what
    [applyFilters] does with the data. *)
Lemma fetchProducts_spec (response : option (list JsObj)) (st : Page) :
  let r := (fetchProducts response st).1 in
  let st' := (fetchProducts response st).2 in
  r = Normal tt
  /\ (loadingElement st' = LoadingHidden \/ loadingElement st' = LoadingError)
  /\ (response = None ->
      loadingElement st' = LoadingError
      /\ allProducts st' = allProducts st /\ filteredProducts st' = filteredProducts st
      /\ currentPage st' = currentPage st /\ productGrid st' = productGrid st
      /\ paginationElement st' = paginationElement st)
  /\ (forall data, response = Some data ->
      allProducts st' = data
      /\ (loadingElement st' = LoadingHidden ->
          consistent st' /\ currentPage st' = 1 /\ rendered st')).
Proof.
  cbv zeta. destruct response as [data|].
  - set (st1 := set_filteredProducts data
                  (set_allProducts data (set_loadingElement LoadingShown st))).
    assert (Hrun : fetchProducts (Some data) st
                   = match applyFilters st1 with
                     | (Normal _, st2) => (Normal tt, set_loadingElement LoadingHidden st2)
                     | (Thrown _, st2) => (Normal tt, set_loadingElement LoadingError st2)
                     end).
    { unfold fetchProducts. rewrite tryCatch_bind. unfold modify at 1. cbv beta iota.
      rewrite tryCatch_bind. unfold mret at 1, Eff_ret at 1. cbv beta iota.
      rewrite tryCatch_bind. unfold modify at 1. cbv beta iota.
      rewrite tryCatch_bind. unfold modify at 1. cbv beta iota.
      rewrite tryCatch_bind. fold st1.
      by destruct (applyFilters st1) as [[[]|e] st2]. }
    rewrite Hrun.
    pose proof (applyFilters_frame st1) as (Ha & Hcat & Hsort & Hsearch & _).
    destruct (selection st1) as [l|e] eqn:Hsel.
    + rewrite (applyFilters_selected _ _ Hsel) in *.
      pose proof (renderProducts_spec (set_currentPage 1 (set_filteredProducts l st1))) as H.
      destruct (renderProducts _) as [r st2].
      destruct H as ((_ & Hf & Hp & _) & Hr & _). cbn in Ha, Hcat, Hsort, Hsearch, Hf, Hp.
      destruct r as [[]|e]; cbn.
      * split; [done|]. split; [by left|]. split; [done|].
        intros ? [= <-]. split; [done|]. intros _. split; [|split; [done|]].
        -- unfold consistent. cbn. rewrite Hf.
           rewrite <- Hsel. unfold selection. cbn. by rewrite Ha, Hcat, Hsort, Hsearch.
        -- by apply Hr.
      * split; [done|]. split; [by right|]. split; [done|].
        intros ? [= <-]. split; [done|]. done.
    + destruct (applyFilters_thrown _ _ Hsel) as (Hthrown & _).
      destruct (applyFilters st1) as [r st2]. cbn in Hthrown, Ha. subst r. cbn.
      split; [done|]. split; [by right|]. split; [done|].
      intros ? [= <-]. split; [done|]. done.
  - cbn. repeat split; try done. by right.
Qed.

(** [fetchProducts] never throws and never leaves the loading indicator
    as it was shown: it ends hidden or with the error message.  A failed
    fetch changes nothing else on the page.  A fetch that delivered data
    makes it [allProducts], whatever happens next; and when the indicator
    ends hidden, [filteredProducts] is what the controls select from the
    data, at page 1, and the grid shows its first window. *)
Theorem fetchProducts_settles (response : option (list JsObj)) (st : Page) :
  let r := (fetchProducts response st).1 in
  let st' := (fetchProducts response st).2 in
  r = Normal tt
  /\ (loadingElement st' = LoadingHidden \/ loadingElement st' = LoadingError)
  /\ (response = None ->
      loadingElement st' = LoadingError
      /\ allProducts st' = allProducts st /\ filteredProducts st' = filteredProducts st
      /\ currentPage st' = currentPage st /\ productGrid st' = productGrid st
      /\ paginationElement st' = paginationElement st)
  /\ (forall data, response = Some data ->
      allProducts st' = data
      /\ (loadingElement st' = LoadingHidden ->
          consistent st' /\ currentPage st' = 1 /\ rendered st')).
Proof. apply fetchProducts_spec. Qed.

Lemma filterM_sublist {E A} (keep : A -> Completion E bool) (l : list A) : forall r,
  filterM keep l = Normal r -> sublist r l.
Proof.
  induction l as [|x l IH]; intros r; cbn [filterM].
  - intros [= <-]. constructor.
  - run. destruct (keep x) as [k|]; [|done]. cbn.
    destruct (filterM keep l) as [r'|]; [|done]. cbn. intros [= <-].
    destruct k; [apply sublist_skip | apply sublist_cons]; by apply IH.
Qed.

Lemma applySort_Permutation sortValue (l r : list JsObj) :
  applySort sortValue l = Normal r -> r ≡ₚ l.
Proof.
  unfold applySort.
  repeat (destruct (String.eqb sortValue _); [apply sort_permutes|]).
  by intros [= <-].
Qed.

(** What [applyFilters] leaves in [filteredProducts] is made of products
    of [allProducts], each at most as often as it occurs there; when the
    filter threw, it is what was there before. *)
Lemma applyFilters_within st :
  filteredProducts st ⊆+ allProducts st ->
  filteredProducts (applyFilters st).2 ⊆+ allProducts st.
Proof.
  intros Hin. rewrite applyFilters_assigns.
  destruct (filterM _ (allProducts st)) as [filtered|] eqn:Hf; [|done].
  apply filterM_sublist, sublist_submseteq in Hf.
  destruct (applySort _ filtered) as [sorted|] eqn:Hs; [|done].
  apply applySort_Permutation in Hs. by rewrite Hs.
Qed.

Lemma dispatch_within ev st :
  filteredProducts st ⊆+ allProducts st ->
  allProducts (dispatch ev st) = allProducts st
  /\ filteredProducts (dispatch ev st) ⊆+ allProducts (dispatch ev st).
Proof.
  intros Hin. unfold dispatch.
  destruct (isFilterChange ev) eqn:Hev.
  - rewrite (listenerOf_filter_change _ _ Hev).
    destruct (applyFilters_frame (input ev st)) as (Ha & _).
    assert (Hinput : allProducts (input ev st) = allProducts st
                     /\ filteredProducts (input ev st) = filteredProducts st)
      by (by destruct ev).
    destruct Hinput as [Hia Hif]. rewrite Ha, Hia. split; [done|].
    rewrite <- Hia. apply applyFilters_within. by rewrite Hia, Hif.
  - destruct ev as [| | |k]; try done.
    pose proof (click_spec k st) as H.
    destruct (listenerOf (Click k) st) as [r st']. destruct H as (Ha & Hf & _).
    cbn. by rewrite Ha, Hf.
Qed.

(** Whatever the response and whatever the user does next, [allProducts]
    is the array that was fetched (empty when the fetch failed), and
    [filteredProducts] is made of its products, none more often than it
    occurs there: no listener adds a product, or changes [allProducts]. *)
Theorem filtered_products_come_from_the_fetch (response : option (list JsObj))
    (category sortBy search : string) (evs : list Event) :
  let st := dispatchAll evs (loaded response category sortBy search) in
  allProducts st = default [] response
  /\ filteredProducts st ⊆+ allProducts st.
Proof.
  cbv zeta.
  assert (Hload : allProducts (loaded response category sortBy search) = default [] response
                  /\ filteredProducts (loaded response category sortBy search)
                     ⊆+ allProducts (loaded response category sortBy search)).
  { unfold loaded. destruct response as [data|]; [|done].
    set (st0 := initialPage category sortBy search).
    set (st1 := set_filteredProducts data
                  (set_allProducts data (set_loadingElement LoadingShown st0))).
    assert (Hrun : (fetchProducts (Some data) st0).2
                   = match applyFilters st1 with
                     | (Normal _, st2) => set_loadingElement LoadingHidden st2
                     | (Thrown _, st2) => set_loadingElement LoadingError st2
                     end).
    { unfold fetchProducts. rewrite tryCatch_bind. unfold modify at 1. cbv beta iota.
      rewrite tryCatch_bind. unfold mret at 1, Eff_ret at 1. cbv beta iota.
      rewrite tryCatch_bind. unfold modify at 1. cbv beta iota.
      rewrite tryCatch_bind. unfold modify at 1. cbv beta iota.
      rewrite tryCatch_bind. fold st0. fold st1.
      by destruct (applyFilters st1) as [[[]|e] st2]. }
    rewrite Hrun.
    destruct (applyFilters_frame st1) as (Ha & _).
    pose proof (applyFilters_within st1 ltac:(done)) as Hw.
    destruct (applyFilters st1) as [[[]|e] st2]; cbn in *; by rewrite Ha. }
  revert Hload. generalize (loaded response category sortBy search). clear.
  induction evs as [|ev evs IH]; intros st [Ha Hin]; [done|].
  cbn [dispatchAll fold_left]. apply IH.
  destruct (dispatch_within ev st Hin) as [Ha' Hin']. split; [by rewrite Ha' | done].
Qed.

End WithEngine.

Lemma no_match_selection :
  selection (engine := Scenario.exampleEngine)
    (input (SearchInput "zzz") Scenario.sortedPage) = Normal [].
Proof. evaluate. Qed.

Lemma second_page_button :
  paginationElement Scenario.sortedPage !! 2%nat
  = Some {| listener := OnPage 2; disabled := false; active := false |}.
Proof. evaluate. Qed.

(** The search for "zzz" among the nine products finds nothing; the four
    controls of the two pages shown before stay on screen, and the button
    of page 2 still goes there. *)
Lemma empty_result_keeps_old_controls_witness :
  selection (engine := Scenario.exampleEngine)
    (input (SearchInput "zzz") Scenario.sortedPage) = Normal []
  /\ productGrid (dispatch (engine := Scenario.exampleEngine) (SearchInput "zzz")
                    Scenario.sortedPage) = NoProductsFound
  /\ paginationElement (dispatch (engine := Scenario.exampleEngine) (SearchInput "zzz")
                          Scenario.sortedPage)
     = paginationElement Scenario.sortedPage
  /\ currentPage (dispatch (engine := Scenario.exampleEngine) (Click 2)
                    (dispatch (engine := Scenario.exampleEngine) (SearchInput "zzz")
                       Scenario.sortedPage)) = 2
  /\ pageCount (dispatch (engine := Scenario.exampleEngine) (Click 2)
                  (dispatch (engine := Scenario.exampleEngine) (SearchInput "zzz")
                     Scenario.sortedPage)) = 0.
Proof.
  split; [exact no_match_selection|].
  pose proof (empty_result_keeps_old_controls (engine := Scenario.exampleEngine)
                (SearchInput "zzz") Scenario.sortedPage eq_refl no_match_selection)
    as (_ & _ & _ & Hgrid & Hbar & Hclick).
  exact (conj Hgrid (conj Hbar (Hclick 2%nat _ 2 second_page_button eq_refl eq_refl))).
Defined.

(** *** The category filter on the property it reads *)

(** With no search text and a category selected, the filter never throws
    and keeps, in their order, exactly the products whose property
    [console] is that category. *)
Theorem category_filter_is_exact (c : string) (ps : list JsObj) :
  c <> "" ->
  exists l,
    filterM (E := Exn) (matchesFilters c "") ps = Normal l
    /\ sublist l ps
    /\ forall p, p ∈ l <-> p ∈ ps /\ p !! "console" = Some (JStr c).
Proof.
  intros Hc. eexists. split; [apply category_filter_selects_console|]. split.
  - apply (filterM_sublist (E := Exn) (matchesFilters c "")).
    apply category_filter_selects_console.
  - intros p. by apply category_filter_elements.
Qed.

Lemma category_filter_is_exact_witness :
  "home" <> ""
  /\ exists l,
       filterM (E := Exn) (matchesFilters "home" "") Scenario.nineProducts = Normal l
       /\ sublist l Scenario.nineProducts
       /\ forall p, p ∈ l <-> p ∈ Scenario.nineProducts /\ p !! "console" = Some (JStr "home").
Proof.
  split; [discriminate|].
  apply (category_filter_is_exact "home" Scenario.nineProducts). discriminate.
Defined.

(** *** A render that throws *)

(** When a card of the window cannot be drawn, [renderProducts] throws
    what drawing it threw; the cards of the products before it are in the
    grid, and the pagination bar is not redrawn. *)
Theorem failed_render_keeps_first_cards (st : Page) (e : Exn) :
  cardsOf (pageWindow (currentPage st) (filteredProducts st)) = Thrown e ->
  (renderProducts st).1 = Thrown e
  /\ productGrid (renderProducts st).2
     = Cards (cardsBefore (pageWindow (currentPage st) (filteredProducts st)))
  /\ paginationElement (renderProducts st).2 = paginationElement st
  /\ sameData st (renderProducts st).2.
Proof.
  intros Hthrown. unfold renderProducts. run.
  destruct (pageWindow (currentPage st) (filteredProducts st)) as [|x window] eqn:Hw;
    cbn [length Nat.eqb]; [done|].
  pose proof (forEach_cards_thrown (x :: window) (set_productGrid (Cards []) st) [] e
                eq_refl Hthrown) as H.
  cbv zeta in H.
  destruct (forEach _ (x :: window) (set_productGrid (Cards []) st)) as [r st1].
  cbn [fst snd] in H. destruct H as (-> & Hgrid & Hbar & Hsame).
  cbn [fst snd]. split; [done|]. split; [done|]. split; [done|].
  eapply sameData_trans; [|exact Hsame]. apply sameData_grid.
Qed.

Lemma half_drawn_throws :
  cardsOf (pageWindow (currentPage Scenario.halfDrawnPage)
             (filteredProducts Scenario.halfDrawnPage))
  = Thrown (TypeError "product.currentPrice.toFixed").
Proof. evaluate. Qed.

(** The first card is drawn, the second throws. *)
Lemma failed_render_keeps_first_cards_witness :
  cardsOf (pageWindow (currentPage Scenario.halfDrawnPage)
             (filteredProducts Scenario.halfDrawnPage))
  = Thrown (TypeError "product.currentPrice.toFixed")
  /\ (renderProducts Scenario.halfDrawnPage).1
     = Thrown (TypeError "product.currentPrice.toFixed")
  /\ productGrid (renderProducts Scenario.halfDrawnPage).2
     = Cards (cardsBefore (pageWindow (currentPage Scenario.halfDrawnPage)
                             (filteredProducts Scenario.halfDrawnPage))).
Proof.
  split; [exact half_drawn_throws|].
  pose proof (failed_render_keeps_first_cards Scenario.halfDrawnPage _ half_drawn_throws)
    as (Hr & Hgrid & _).
  exact (conj Hr Hgrid).
Defined.

End ClientTheory.

Module BackendTheory.
Import Js Backend.

#[local] Arguments draft : simpl never.
#[local] Arguments invalidPaths : simpl never.
#[local] Arguments findDoc : simpl never.
#[local] Arguments castObjectId : simpl never.
#[local] Arguments advance : simpl never.
#[local] Arguments nextStoreCall : simpl never.
#[local] Arguments applyUpdate : simpl never.
#[local] Arguments updateCastFailures : simpl never.
#[local] Arguments productFields : simpl never.
#[local] Arguments updateData : simpl never.
#[local] Arguments storageFilename : simpl never.
#[local] Arguments draftsFrom : simpl never.
#[local] Arguments sampleProducts : simpl never.

(** *** The store *)

Lemma findDoc_Some id l p : findDoc id l = Some p -> p ∈ l /\ _id p = id.
Proof.
  unfold findDoc. intros H. apply find_some in H as [Hin Heq].
  split; [by apply list_elem_of_In | by apply N.eqb_eq].
Qed.

Lemma findDoc_None id l : findDoc id l = None -> forall p, p ∈ l -> _id p <> id.
Proof.
  unfold findDoc. intros H p Hin Heq.
  apply list_elem_of_In in Hin. apply (find_none _ _ H) in Hin.
  by apply N.eqb_neq in Hin.
Qed.

Lemma storeAnswers_next n w : storeAnswers (S n) w -> nextStoreCall w = None.
Proof.
  unfold storeAnswers, nextStoreCall. destruct (storeFaults w) as [|[m|] rest]; try done.
  cbn. intros H. by inversion H.
Qed.

Lemma storeAnswers_advance n w : storeAnswers (S n) w -> storeAnswers n (advance w).
Proof.
  unfold storeAnswers, advance. destruct (storeFaults w) as [|f rest] eqn:E; cbn.
  - intros _. rewrite E, take_nil. constructor.
  - intros H. by inversion H.
Qed.

(** [findById], run. *)
Lemma findById_run id w :
  findById id w
  = match castObjectId id with
    | None => (Thrown (CastError "_id"), w)
    | Some oid =>
        (match nextStoreCall w with
         | Some message => Thrown (StoreError message)
         | None => Normal (findDoc oid (products (advance w)))
         end, advance w)
    end.
Proof.
  unfold findById, castId, storeCall. run.
  destruct (castObjectId id); [|done]. cbn. by destruct (nextStoreCall w).
Qed.

Lemma products_advance w : products (advance w) = products w.
Proof. unfold advance. by destruct (storeFaults w). Qed.

Lemma uploads_advance w : uploads (advance w) = uploads w.
Proof. unfold advance. by destruct (storeFaults w). Qed.

Lemma nextStoreCall_advance_frame w1 w :
  storeFaults w1 = storeFaults w -> nextStoreCall (advance w1) = nextStoreCall (advance w).
Proof.
  unfold advance, nextStoreCall. intros H. rewrite !H.
  destruct (storeFaults w) eqn:E; cbn; by rewrite ?H, ?E.
Qed.

Lemma now_advance w : now (advance w) = now w.
Proof. unfold advance. by destruct (storeFaults w). Qed.

Lemma nextObjectId_advance w : nextObjectId (advance w) = nextObjectId w.
Proof. unfold advance. by destruct (storeFaults w). Qed.

(** A store call changes nothing but the faults still to come. *)
Ltac unadvance :=
  repeat match goal with
    | |- context [products (advance ?w)] => rewrite (products_advance w)
    | |- context [uploads (advance ?w)] => rewrite (uploads_advance w)
    | |- context [now (advance ?w)] => rewrite (now_advance w)
    | |- context [nextObjectId (advance ?w)] => rewrite (nextObjectId_advance w)
    end.

(** C7, as the route has it.  [GET /api/products/:id] never changes the
    collection or the files.  For an id that casts to an [ObjectId] and a
    store that answers, it responds 404 when no stored document has the
    identifier and 200 with the document when one does.  It responds 500
    exactly when the lookup throws: the store rejected the call, or the id
    does not cast. *)
Theorem getProduct_answers (id : string) (w : World) :
  let r := (getProduct id w).1 in
  let w' := (getProduct id w).2 in
  products w' = products w /\ uploads w' = uploads w
  /\ match castObjectId id with
     | None => r = Normal {| status := 500; payload := ErrorMessage (CastError "_id") |}
     | Some oid =>
         match nextStoreCall w with
         | Some message =>
             r = Normal {| status := 500; payload := ErrorMessage (StoreError message) |}
         | None =>
             match findDoc oid (products w) with
             | Some p =>
                 r = Normal {| status := 200; payload := OneProduct p |}
                 /\ p ∈ products w /\ _id p = oid
             | None =>
                 r = Normal {| status := 404; payload := Message "Product not found" |}
                 /\ (forall p, p ∈ products w -> _id p <> oid)
             end
         end
     end.
Proof.
  unfold getProduct, respond. run. rewrite findById_run.
  destruct (castObjectId id) as [oid|]; cbn; [|done].
  destruct (nextStoreCall w); cbn; rewrite ?products_advance, ?uploads_advance; [done|].
  destruct (findDoc oid (products w)) as [p|] eqn:Hp; cbn;
    rewrite ?products_advance, ?uploads_advance.
  - split; [done|]. split; [done|]. split; [done|]. by apply findDoc_Some.
  - split; [done|]. split; [done|]. split; [done|]. by apply findDoc_None.
Qed.

(** C7, as stated, fails: no document resolves from the id ["abc"], and the
    answer is 500, not 404. *)
Lemma getProduct_malformed_id_is_500 :
  products (freshWorld 0) = []
  /\ (getProduct "abc" (freshWorld 0)).1
     = Normal {| status := 500; payload := ErrorMessage (CastError "_id") |}.
Proof. split; reflexivity. Qed.

(** *** Creating a product *)

Lemma coherent_unused w : coherent w -> findDoc (nextObjectId w) (products w) = None.
Proof.
  unfold coherent. intros H.
  destruct (findDoc (nextObjectId w) (products w)) as [p|] eqn:Hp; [|done].
  apply findDoc_Some in Hp as [Hin Heq].
  rewrite Forall_forall in H. apply H in Hin. lia.
Qed.

Lemma storageFilename_nonempty clock file : storageFilename clock file <> "".
Proof.
  unfold storageFilename. destruct (decimal clock); discriminate.
Qed.

Section WithEngine.
Context {engine : Engine}.

Lemma text_required path v :
  text v -> requiredString path (stored (castString v)) = [].
Proof.
  intros (s & -> & Hs). cbn. unfold isEmpty.
  destruct (String.eqb_spec s ""); done.
Qed.

Lemma numeric_required path v :
  numeric v ->
  requiredNumber path (stored (castNumber v)) = [] /\ castFailure path (castNumber v) = [].
Proof. intros (x & ->). done. Qed.

Lemma castFailure_nil {A} path (c : Cast A) : c <> CastFailed -> castFailure path c = [].
Proof. by destruct c. Qed.

(** A body that is [acceptable] makes a document that passes validation. *)
Lemma acceptable_valid body file clock id :
  acceptable body -> filename file <> "" ->
  invalidPaths (draft clock id (productFields body file)).1
               (draft clock id (productFields body file)).2 = [].
Proof.
  intros (Hn & Hd & Hp & Hc & Hs & Hr) Hf.
  unfold invalidPaths, draft, productFields. cbn [fst snd name description price category image
    nameField descriptionField priceField categoryField stockField ratingField imageField
    castString stored].
  destruct (numeric_required "price" _ Hp) as [Hp1 Hp2].
  rewrite Hp2, (castFailure_nil _ _ Hs), (castFailure_nil _ _ Hr).
  rewrite (text_required _ _ Hn), (text_required _ _ Hd), Hp1, (text_required _ _ Hc).
  cbn. unfold isEmpty. by destruct (String.eqb_spec (filename file) "").
Qed.

(** [POST /api/products] with a file, run. *)
Lemma postProduct_run body file w :
  let f := {| filename := storageFilename (now w) file |} in
  let d := draft (now w + storingTime file) (nextObjectId w) (productFields body f) in
  let w1 :=
    set_nextObjectId (nextObjectId w + 1)%N
      (set_now (now w + storingTime file)
         (set_uploads (<[filename f := Removable]> (uploads w)) w)) in
  postProduct body (Some file) w
  = match invalidPaths d.1 d.2 with
    | [] =>
        match nextStoreCall w with
        | Some message =>
            (Normal {| status := 400; payload := ErrorMessage (StoreError message) |},
             advance w1)
        | None =>
            match findDoc (nextObjectId w) (products w) with
            | Some _ =>
                (Normal {| status := 400;
                           payload := ErrorMessage (DuplicateKey (nextObjectId w)) |},
                 advance w1)
            | None =>
                (Normal {| status := 201; payload := OneProduct d.1 |},
                 set_products (products w ++ [d.1]) (advance w1))
            end
        end
    | paths =>
        (Normal {| status := 400; payload := ErrorMessage (ValidationError paths) |}, w1)
    end.
Proof.
  intros f d w1.
  unfold postProduct, uploadSingle, createProduct, newProduct, save, validate, storeCall,
    respond. run.
  fold f. fold d. fold w1.
  destruct (invalidPaths d.1 d.2) as [|path paths]; run; [|done].
  change (nextStoreCall w1) with (nextStoreCall w).
  destruct (nextStoreCall w); run; [done|].
  rewrite (products_advance w1).
  change (products w1) with (products w). change (_id d.1) with (nextObjectId w).
  by destruct (findDoc (nextObjectId w) (products w)).
Qed.

End WithEngine.

Section WithEngine.
Context {engine : Engine}.

Lemma required_text path v :
  requiredString path (stored (castString v)) = [] -> text v.
Proof.
  unfold requiredString, isEmpty, text.
  destruct (castString v) as [| |s|]; cbn; try done.
  destruct (String.eqb_spec s ""); [done|]. intros _. by exists s.
Qed.

Lemma required_numeric path v :
  requiredNumber path (stored (castNumber v)) = [] -> numeric v.
Proof.
  unfold requiredNumber, numeric.
  destruct (castNumber v) as [| |x|]; cbn; try done. intros _. by exists x.
Qed.

Lemma castFailure_none {A} path (c : Cast A) : castFailure path c = [] -> c <> CastFailed.
Proof. by destruct c. Qed.

(** The bodies whose document passes validation are the [acceptable]
    ones. *)
Lemma valid_acceptable body file clock id :
  invalidPaths (draft clock id (productFields body file)).1
               (draft clock id (productFields body file)).2 = [] ->
  acceptable body.
Proof.
  unfold invalidPaths, draft, productFields. cbn [fst snd name description price category
    image nameField descriptionField priceField categoryField stockField ratingField
    imageField].
  intros H.
  apply app_eq_nil in H as [Hcasts H].
  apply app_eq_nil in H as [Hname H].
  apply app_eq_nil in H as [Hdescription H].
  apply app_eq_nil in H as [Hprice H].
  apply app_eq_nil in H as [Hcategory _].
  apply app_eq_nil in Hcasts as [_ Hcasts].
  apply app_eq_nil in Hcasts as [Hstock Hrating].
  split; [by apply (required_text "name")|].
  split; [by apply (required_text "description")|].
  split; [by apply (required_numeric "price")|].
  split; [by apply (required_text "category")|].
  split; by eapply castFailure_none.
Qed.

(** C3, as the route has it.  [POST /api/products] without a file part
    answers 400 and leaves the world as it was: no document is persisted.
    With a file, stored by multer, there are four cases.  When the body
    passes the validation of the schema (name, description and category
    are texts that are not empty, price is a number, and stock and rating,
    when given, are numbers), the store accepts the write and holds no
    document under the new identifier, the answer is 201 with the stored
    document: the collection grew by that document alone, no document had
    its identifier before, its image is the name the file was stored
    under, and its [createdAt] is the time the handler built it, the time
    in the name of the file plus the time the file took to be written.
    When the body does not pass validation, the answer is 400 with the
    paths that failed.  When the store rejects the write, or holds the
    identifier already, the answer is 400.  In these three cases the
    collection is unchanged.  The identifier is new in every world whose
    identifiers were handed out by the constructor of documents. *)
Theorem createProduct_answers (body : Body) (upload : option Upload) (w : World) :
  let r := (postProduct body upload w).1 in
  let w' := (postProduct body upload w).2 in
  (upload = None ->
   r = Normal {| status := 400; payload := Message "Image file is required" |} /\ w' = w)
  /\ (forall file, upload = Some file ->
      (acceptable body -> nextStoreCall w = None ->
       findDoc (nextObjectId w) (products w) = None ->
       exists p,
         r = Normal {| status := 201; payload := OneProduct p |}
         /\ products w' = products w ++ [p]
         /\ (forall q, q ∈ products w -> _id q <> _id p)
         /\ createdAt p = now w + storingTime file
         /\ image p = Some (storageFilename (now w) file))
      /\ (~ acceptable body ->
          exists path paths,
            r = Normal {| status := 400;
                          payload := ErrorMessage (ValidationError (path :: paths)) |}
            /\ products w' = products w)
      /\ (acceptable body -> forall message, nextStoreCall w = Some message ->
          r = Normal {| status := 400; payload := ErrorMessage (StoreError message) |}
          /\ products w' = products w)
      /\ (acceptable body -> nextStoreCall w = None ->
          forall q, findDoc (nextObjectId w) (products w) = Some q ->
          r = Normal {| status := 400;
                        payload := ErrorMessage (DuplicateKey (nextObjectId w)) |}
          /\ products w' = products w))
  /\ (coherent w -> findDoc (nextObjectId w) (products w) = None).
Proof.
  cbv zeta. split; [|split; [|apply coherent_unused]].
  - by intros ->.
  - intros file ->.
    pose proof (postProduct_run body file w) as Hrun. cbv zeta in Hrun.
    set (f := {| filename := storageFilename (now w) file |}) in *.
    set (d := draft (now w + storingTime file) (nextObjectId w) (productFields body f)) in *.
    assert (Hvalid : acceptable body -> invalidPaths d.1 d.2 = []).
    { intros Hbody. apply acceptable_valid; [done | apply storageFilename_nonempty]. }
    split; [|split; [|split]].
    + intros Hbody Hstore Hnew. rewrite Hrun, (Hvalid Hbody), Hstore, Hnew.
      exists d.1. cbn [fst snd products set_products].
      split; [done|]. split; [done|]. split; [|done].
      by apply findDoc_None.
    + intros Hbody. rewrite Hrun.
      destruct (invalidPaths d.1 d.2) as [|path paths] eqn:Hpaths.
      * destruct Hbody. by apply (valid_acceptable body f _ _ Hpaths).
      * exists path, paths. done.
    + intros Hbody message Hstore. rewrite Hrun, (Hvalid Hbody), Hstore.
      cbn [fst snd]. by rewrite products_advance.
    + intros Hbody Hstore q Hq. rewrite Hrun, (Hvalid Hbody), Hstore, Hq.
      cbn [fst snd]. by rewrite products_advance.
Qed.

End WithEngine.

Lemma mugBody_acceptable : acceptable (engine := Scenario.exampleEngine) Scenario.mugBody.
Proof.
  unfold acceptable, text, numeric.
  repeat split; try (eexists; split; [reflexivity | discriminate]).
  - exists 9.99%float. evaluate.
  - cbn. discriminate.
  - cbn. discriminate.
Qed.

Lemma fresh_unused clock :
  nextStoreCall (freshWorld clock) = None
  /\ findDoc (nextObjectId (freshWorld clock)) (products (freshWorld clock)) = None.
Proof. done. Qed.

(** On a fresh deployment the mug, posted with its picture, is created;
    the picture took 12 ms to be written. *)
Lemma createProduct_answers_witness :
  acceptable (engine := Scenario.exampleEngine) Scenario.mugBody
  /\ exists p,
       (postProduct (engine := Scenario.exampleEngine) Scenario.mugBody
          (Some Scenario.mugPng) (freshWorld 1700000000000)).1
       = Normal {| status := 201; payload := OneProduct p |}
       /\ createdAt p = 1700000000000 + 12
       /\ image p = Some (storageFilename 1700000000000 Scenario.mugPng).
Proof.
  split; [exact mugBody_acceptable|].
  destruct (proj1 (proj1 (proj2 (createProduct_answers (engine := Scenario.exampleEngine)
                                   Scenario.mugBody (Some Scenario.mugPng)
                                   (freshWorld 1700000000000)))
                     Scenario.mugPng eq_refl)
              mugBody_acceptable (proj1 (fresh_unused 1700000000000))
              (proj2 (fresh_unused 1700000000000)))
    as (p & Hp & _ & _ & Hc & Hi).
  exists p. exact (conj Hp (conj Hc Hi)).
Defined.

(** C3, as stated, fails: this request carries the four required fields
    and an image, and is answered 400 with nothing stored, because its
    price, the text "abc", does not pass validation. *)
Lemma createProduct_with_all_fields_is_400 :
  bodyName Scenario.wordPriceBody = JStr "Mug"
  /\ bodyDescription Scenario.wordPriceBody = JStr "A mug"
  /\ bodyPrice Scenario.wordPriceBody = JStr "abc"
  /\ bodyCategory Scenario.wordPriceBody = JStr "home"
  /\ statusOf (postProduct (engine := Scenario.exampleEngine) Scenario.wordPriceBody
              (Some Scenario.mugPng) (freshWorld 1700000000000)).1 = Some 400
  /\ products (postProduct (engine := Scenario.exampleEngine) Scenario.wordPriceBody
                 (Some Scenario.mugPng) (freshWorld 1700000000000)).2 = [].
Proof. repeat split; evaluate. Qed.

(** The identifiers in the collection stay below the counter. *)
Lemma coherent_freshWorld clock : coherent (freshWorld clock).
Proof. constructor. Qed.

Lemma coherent_postProduct `{engine : Engine} body upload w :
  coherent w -> coherent (postProduct body upload w).2.
Proof.
  intros Hcoh. destruct upload as [file|]; [|done].
  rewrite postProduct_run.
  assert (Hgrow : Forall (fun p => (_id p < nextObjectId w + 1)%N) (products w)).
  { eapply Forall_impl; [exact Hcoh|]. cbn. intros x Hx. clear - Hx. lia. }
  destruct (invalidPaths _ _); [|exact Hgrow].
  destruct (nextStoreCall w).
  { unfold coherent. cbn [snd]. unadvance. exact Hgrow. }
  destruct (findDoc _ _).
  { unfold coherent. cbn [snd]. unadvance. exact Hgrow. }
  unfold coherent. cbn [snd products nextObjectId set_products]. unadvance.
  apply Forall_app. split; [exact Hgrow|].
  constructor; [|constructor].
  cbn. change (_id (draft _ _ _).1) with (nextObjectId w). clear. lia.
Qed.

(** *** Updating a product *)

Lemma nextStoreCall_set_uploads u w : nextStoreCall (set_uploads u w) = nextStoreCall w.
Proof. reflexivity. Qed.

Lemma advance_set_uploads u w : advance (set_uploads u w) = set_uploads u (advance w).
Proof. unfold advance. cbn. by destruct (storeFaults w). Qed.

Lemma uploadSingle_run file w :
  uploadSingle (Some file) w
  = (Normal (Some {| filename := storageFilename (now w) file |}),
     set_now (now w + storingTime file)
       (set_uploads (<[storageFilename (now w) file := Removable]> (uploads w)) w)).
Proof. reflexivity. Qed.

(** The deletion of the old image leaves the collection alone. *)
Lemma deleteOldImage_frame id w :
  products (deleteOldImage id w).2 = products w
  /\ now (deleteOldImage id w).2 = now w.
Proof.
  unfold deleteOldImage. run. rewrite findById_run.
  destruct (castObjectId id) as [oid|]; [|done].
  destruct (nextStoreCall w); cbn; rewrite ?products_advance, ?now_advance; [done|].
  destruct (findDoc oid (products w)) as [p|]; cbn; rewrite ?products_advance, ?now_advance;
    [|done].
  unfold deleteImageOf. destruct (image p) as [old|]; run;
    rewrite ?products_advance, ?now_advance; [|done].
  destruct (isEmpty old); run; rewrite ?products_advance, ?now_advance; [done|].
  unfold existsSync, unlinkSync. run.
  destruct (uploads (advance w) !! old) as [[]|] eqn:E; cbn;
    rewrite ?E; cbn; rewrite ?products_advance, ?now_advance; done.
Qed.

(** The deletion of the old image of a document that names one, run: the
    file is removed, or it cannot be and the block throws, or it is not
    there and nothing happens. *)
Lemma deleteOldImage_run id w oid p old :
  castObjectId id = Some oid -> nextStoreCall w = None ->
  findDoc oid (products w) = Some p -> image p = Some old -> old <> "" ->
  deleteOldImage id w
  = match uploads w !! old with
    | Some Removable => (Normal tt, set_uploads (delete old (uploads (advance w))) (advance w))
    | Some InUse => (Thrown (FsError "EPERM" old), advance w)
    | None => (Normal tt, advance w)
    end.
Proof.
  intros Hid Hstore Hp Himg Hold.
  unfold deleteOldImage. run. rewrite findById_run, Hid, Hstore.
  rewrite products_advance, Hp. cbn.
  unfold deleteImageOf. rewrite Himg. unfold isEmpty.
  destruct (String.eqb_spec old ""); [done|].
  unfold existsSync, unlinkSync. run. rewrite uploads_advance.
  destruct (uploads w !! old) as [[]|] eqn:E; cbn; rewrite ?uploads_advance, ?E; done.
Qed.

Section WithEngine.
Context {engine : Engine}.

(** [findByIdAndUpdate], run. *)
Lemma findByIdAndUpdate_run policy id update w :
  findByIdAndUpdate policy id update w
  = match castObjectId id with
    | None => (Thrown (CastError "_id"), w)
    | Some oid =>
        match updateCastFailures update with
        | path :: _ => (Thrown (CastError path), w)
        | [] =>
            match nextStoreCall w with
            | Some message => (Thrown (StoreError message), advance w)
            | None =>
                match findDoc oid (products w) with
                | None => (Normal None, advance w)
                | Some doc =>
                    (Normal (Some (applyUpdate policy update doc)),
                     set_products (replaceDoc (applyUpdate policy update doc) (products w))
                       (advance w))
                end
            end
        end
    end.
Proof.
  unfold findByIdAndUpdate, castId, storeCall. run.
  destruct (castObjectId id) as [oid|]; [|done]. cbn.
  destruct (updateCastFailures update); [|done]. run.
  destruct (nextStoreCall w); [done|]. cbn. rewrite (products_advance w).
  by destruct (findDoc oid (products w)).
Qed.

End WithEngine.

Lemma findDoc_replaceDoc d l p :
  findDoc (_id d) l = Some p -> findDoc (_id d) (replaceDoc d l) = Some d.
Proof.
  unfold findDoc. induction l as [|q l IH]; cbn; [done|].
  destruct (N.eqb_spec (_id q) (_id d)) as [Heq|Hne]; cbn.
  - intros _. by rewrite N.eqb_refl.
  - intros H. apply N.eqb_neq in Hne. rewrite Hne. by apply IH.
Qed.



Section WithEngine.
Context {engine : Engine}.

(** What the update handler does to the collection: nothing, or the
    replacement of the document of [id] by its update, which is then the
    document it answers 200 with. *)
Lemma updateProduct_outcome policy id body file w :
  let r := (updateProduct policy id body file w).1 in
  let w' := (updateProduct policy id body file w).2 in
  (products w' = products w
   /\ forall p', r <> Normal {| status := 200; payload := OneProduct p' |})
  \/ (exists oid p,
        castObjectId id = Some oid /\ findDoc oid (products w) = Some p
        /\ products w' = replaceDoc (applyUpdate policy (updateData body file) p) (products w)
        /\ r = Normal {| status := 200;
                         payload := OneProduct (applyUpdate policy (updateData body file) p) |}).
Proof.
  cbv zeta.
  assert (Hfinish : forall w2, products w2 = products w ->
    let out :=
      tryCatch
        (updatedProduct ← findByIdAndUpdate policy id (updateData body file);
         match updatedProduct with
         | None => respond 404 (Message "Product not found")
         | Some p => respond 200 (OneProduct p)
         end)
        (fun err => respond 400 (ErrorMessage err)) w2 in
    (products out.2 = products w
     /\ forall p', out.1 <> Normal {| status := 200; payload := OneProduct p' |})
    \/ (exists oid p,
          castObjectId id = Some oid /\ findDoc oid (products w) = Some p
          /\ products out.2
             = replaceDoc (applyUpdate policy (updateData body file) p) (products w)
          /\ out.1
             = Normal {| status := 200;
                         payload := OneProduct (applyUpdate policy (updateData body file) p) |})).
  { intros w2 Hw2. cbv zeta. unfold respond. run. rewrite findByIdAndUpdate_run.
    destruct (castObjectId id) as [oid|]; [|left; done].
    destruct (updateCastFailures _); [|left; done].
    destruct (nextStoreCall w2); cbn; rewrite ?products_advance; [left; done|].
    rewrite Hw2.
    destruct (findDoc oid (products w)) as [p|] eqn:Hp; cbn; rewrite ?products_advance.
    - right. exists oid, p. done.
    - left. done. }
  unfold updateProduct. rewrite tryCatch_bind.
  destruct file as [f|].
  - pose proof (deleteOldImage_frame id w) as [Hframe _].
    destruct (deleteOldImage id w) as [[[]|e] w2]; cbn [snd] in Hframe.
    + exact (Hfinish w2 Hframe).
    + left. done.
  - exact (Hfinish w eq_refl).
Qed.





End WithEngine.

Lemma restock_answer :
  (putProduct (engine := Scenario.exampleEngine) StripUndefined Scenario.firstId
     Scenario.stockBody None Scenario.mugWorld).1
  = Normal {| status := 200; payload := OneProduct Scenario.restockedMugDoc |}.
Proof. evaluate. Qed.



Section WithEngine.
Context {engine : Engine}.

(** [PUT /api/products/:id] with a file, for a document that names an
    image, run: the three cases of the old file. *)
Lemma putProduct_file_run policy id body file w oid p old :
  castObjectId id = Some oid -> findDoc oid (products w) = Some p ->
  image p = Some old -> old <> "" -> nextStoreCall w = None ->
  let f := {| filename := storageFilename (now w) file |} in
  let w1 := (uploadSingle (Some file) w).2 in
  putProduct policy id body (Some file) w
  = match uploads w1 !! old with
    | Some InUse =>
        (Normal {| status := 400; payload := ErrorMessage (FsError "EPERM" old) |}, advance w1)
    | Some Removable =>
        tryCatch
          (updatedProduct ← findByIdAndUpdate policy id (updateData body (Some f));
           match updatedProduct with
           | None => respond 404 (Message "Product not found")
           | Some q => respond 200 (OneProduct q)
           end)
          (fun err => respond 400 (ErrorMessage err))
          (set_uploads (delete old (uploads (advance w1))) (advance w1))
    | None =>
        tryCatch
          (updatedProduct ← findByIdAndUpdate policy id (updateData body (Some f));
           match updatedProduct with
           | None => respond 404 (Message "Product not found")
           | Some q => respond 200 (OneProduct q)
           end)
          (fun err => respond 400 (ErrorMessage err))
          (advance w1)
    end.
Proof.
  intros Hid Hp Himg Hold Hstore f w1.
  unfold putProduct. unfold mbind at 1. unfold Eff_bind. rewrite uploadSingle_run.
  fold f. change (set_now _ (set_uploads _ w)) with w1.
  unfold updateProduct. rewrite tryCatch_bind.
  rewrite (deleteOldImage_run id w1 oid p old Hid Hstore Hp Himg Hold).
  by destruct (uploads w1 !! old) as [[]|].
Qed.

(** What multer leaves of the world to the handler. *)
Lemma uploadSingle_frame file w :
  let w1 := (uploadSingle (Some file) w).2 in
  products w1 = products w
  /\ nextStoreCall w1 = nextStoreCall w
  /\ nextStoreCall (advance w1) = nextStoreCall (advance w)
  /\ nextObjectId w1 = nextObjectId w.
Proof.
  cbv zeta. rewrite uploadSingle_run. cbn [snd].
  repeat split. unfold advance, nextStoreCall. cbn. by destruct (storeFaults w).
Qed.

Lemma putProduct_after_multer policy id body file w :
  putProduct policy id body (Some file) w
  = updateProduct policy id body (Some {| filename := storageFilename (now w) file |})
      (uploadSingle (Some file) w).2.
Proof. reflexivity. Qed.

Lemma deleteOldImage_rejected id w oid message :
  castObjectId id = Some oid -> nextStoreCall w = Some message ->
  deleteOldImage id w = (Thrown (StoreError message), advance w).
Proof.
  intros Hid Hstore. unfold deleteOldImage. run. by rewrite findById_run, Hid, Hstore.
Qed.

(** C4, as the route has it.  An update brings a new image, stored by
    multer, for a document that names an old one.  When the store rejects
    the lookup of the document, the answer is 400 and nothing is deleted
    or written.  When the old file is in the image directory and cannot be
    removed, the update is aborted: the answer is 400, and the collection
    and the image directory are left as they were.  When the old file is
    not in the image directory, nothing is deleted, and when it is there
    and can be removed, it is deleted; in both cases the handler goes on
    to the update.  The update is then answered 400, with the collection
    left as it was and the old file still deleted, when a price, stock or
    rating of the request does not cast to a number or when the store
    rejects the write; otherwise it is applied, and the updated document,
    which names the new file, is answered with a 200. *)
Theorem update_with_new_image (policy : UndefinedPolicy) (id : string) (body : Body)
    (file : Upload) (w : World) (oid : ObjectId) (p : Product) (old : string) :
  castObjectId id = Some oid -> findDoc oid (products w) = Some p ->
  image p = Some old -> old <> "" ->
  let f := {| filename := storageFilename (now w) file |} in
  let w1 := (uploadSingle (Some file) w).2 in
  let r := (putProduct policy id body (Some file) w).1 in
  let w' := (putProduct policy id body (Some file) w).2 in
  let p' := applyUpdate policy (updateData body (Some f)) p in
  let updated : Prop :=
    match updateCastFailures (updateData body (Some f)) with
    | path :: _ =>
        r = Normal {| status := 400; payload := ErrorMessage (CastError path) |}
        /\ products w' = products w
    | [] =>
        match nextStoreCall (advance w) with
        | Some message =>
            r = Normal {| status := 400; payload := ErrorMessage (StoreError message) |}
            /\ products w' = products w
        | None =>
            r = Normal {| status := 200; payload := OneProduct p' |}
            /\ products w' = replaceDoc p' (products w)
        end
    end in
  image p' = Some (storageFilename (now w) file)
  /\ match nextStoreCall w with
     | Some message =>
         r = Normal {| status := 400; payload := ErrorMessage (StoreError message) |}
         /\ products w' = products w
         /\ uploads w' = uploads w1
     | None =>
         match uploads w1 !! old with
         | Some InUse =>
             r = Normal {| status := 400; payload := ErrorMessage (FsError "EPERM" old) |}
             /\ products w' = products w
             /\ uploads w' = uploads w1
         | Some Removable => uploads w' = delete old (uploads w1) /\ updated
         | None => uploads w' = uploads w1 /\ updated
         end
     end.
Proof.
  intros Hid Hp Himg Hold. cbv zeta.
  split.
  { unfold applyUpdate, updateData. cbn. by destruct policy. }
  pose proof (uploadSingle_frame file w) as (Hw1 & Hs1 & Hs2 & _). cbv zeta in Hw1, Hs1, Hs2.
  set (f := {| filename := storageFilename (now w) file |}) in *.
  destruct (nextStoreCall w) as [message|] eqn:Hstore.
  { rewrite putProduct_after_multer. fold f.
    set (w1 := (uploadSingle (Some file) w).2) in *.
    unfold updateProduct. rewrite tryCatch_bind.
    rewrite (deleteOldImage_rejected id w1 oid message Hid Hs1).
    unfold respond. cbn [fst snd mret Eff_ret]. by rewrite products_advance, uploads_advance. }
  pose proof (putProduct_file_run policy id body file w oid p old Hid Hp Himg Hold Hstore)
    as Hrun.
  cbv zeta in Hrun. rewrite Hrun. clear Hrun. fold f.
  set (w1 := (uploadSingle (Some file) w).2) in *.
  assert (Hfinish : forall w2, products w2 = products w ->
            nextStoreCall w2 = nextStoreCall (advance w) ->
    let out :=
      tryCatch
        (updatedProduct ← findByIdAndUpdate policy id (updateData body (Some f));
         match updatedProduct with
         | None => respond 404 (Message "Product not found")
         | Some q => respond 200 (OneProduct q)
         end)
        (fun err => respond 400 (ErrorMessage err)) w2 in
    uploads out.2 = uploads w2
    /\ match updateCastFailures (updateData body (Some f)) with
       | path :: _ =>
           out.1 = Normal {| status := 400; payload := ErrorMessage (CastError path) |}
           /\ products out.2 = products w
       | [] =>
           match nextStoreCall (advance w) with
           | Some message =>
               out.1 = Normal {| status := 400; payload := ErrorMessage (StoreError message) |}
               /\ products out.2 = products w
           | None =>
               out.1 = Normal {| status := 200;
                                 payload :=
                                   OneProduct (applyUpdate policy (updateData body (Some f)) p) |}
               /\ products out.2
                  = replaceDoc (applyUpdate policy (updateData body (Some f)) p) (products w)
           end
       end).
  { intros w2 Hw2 Hs. cbv zeta. unfold respond. run.
    rewrite findByIdAndUpdate_run, Hid.
    destruct (updateCastFailures _); [|done].
    rewrite Hs, Hw2, Hp.
    destruct (nextStoreCall (advance w)); cbn; by rewrite ?uploads_advance, ?products_advance. }
  destruct (uploads w1 !! old) as [[]|].
  - destruct (Hfinish (set_uploads (delete old (uploads (advance w1))) (advance w1)))
      as [Hu Hrest].
    + cbn [products set_uploads]. by rewrite products_advance.
    + by rewrite nextStoreCall_set_uploads.
    + split; [|exact Hrest]. rewrite Hu. cbn [uploads set_uploads]. by rewrite uploads_advance.
  - cbn [fst snd]. by rewrite products_advance, uploads_advance.
  - destruct (Hfinish (advance w1)) as [Hu Hrest].
    + by rewrite products_advance.
    + done.
    + split; [|exact Hrest]. by rewrite Hu, uploads_advance.
Qed.

End WithEngine.

Lemma mug_found : findDoc 0 (products Scenario.mugWorld) = Some Scenario.mugDoc.
Proof. evaluate. Qed.

Lemma mug_id : castObjectId Scenario.firstId = Some 0%N.
Proof. evaluate. Qed.

Lemma mugWorld_answers : storeAnswers 2 Scenario.mugWorld.
Proof.
  unfold storeAnswers.
  assert (H : storeFaults Scenario.mugWorld = []) by evaluate.
  rewrite H. constructor.
Qed.

Lemma restock_casts :
  updateCastFailures (engine := Scenario.exampleEngine)
    (updateData Scenario.stockBody
       (Some {| filename := storageFilename (now Scenario.mugWorld) Scenario.mug2Png |})) = [].
Proof. evaluate. Qed.

Lemma mug_picture_removable :
  uploads (uploadSingle (Some Scenario.mug2Png) Scenario.mugWorld).2 !! "1700000000000-mug.png"
  = Some Removable.
Proof. evaluate. Qed.

Lemma mugWorld_next :
  nextStoreCall Scenario.mugWorld = None /\ nextStoreCall (advance Scenario.mugWorld) = None.
Proof. split; evaluate. Qed.

(** The mug gets a new picture while its old one can be removed: the old
    picture is deleted and the update is answered 200. *)
Lemma update_with_new_image_witness :
  (putProduct (engine := Scenario.exampleEngine) StripUndefined Scenario.firstId
     Scenario.stockBody (Some Scenario.mug2Png) Scenario.mugWorld).1
  = Normal
      {| status := 200;
         payload :=
           OneProduct
             (applyUpdate (engine := Scenario.exampleEngine) StripUndefined
                (updateData Scenario.stockBody
                   (Some {| filename :=
                              storageFilename (now Scenario.mugWorld) Scenario.mug2Png |}))
                Scenario.mugDoc) |}.
Proof.
  pose proof (update_with_new_image (engine := Scenario.exampleEngine) StripUndefined
                Scenario.firstId Scenario.stockBody Scenario.mug2Png Scenario.mugWorld
                0%N Scenario.mugDoc "1700000000000-mug.png"
                mug_id mug_found eq_refl ltac:(discriminate)) as H.
  cbv zeta in H. destruct H as [_ H].
  rewrite (proj1 mugWorld_next), mug_picture_removable, restock_casts,
    (proj2 mugWorld_next) in H.
  exact (proj1 (proj2 H)).
Defined.

(** C4, as stated, fails: the mug gets a new picture while its old one is
    held open.  Deleting the old file fails, the answer is 400, and the
    stock the request asked for is not written. *)
Lemma update_aborted_when_old_image_cannot_be_deleted :
  uploads Scenario.busyWorld !! "1700000000000-mug.png" = Some InUse
  /\ findDoc 0 (products Scenario.busyWorld) = Some Scenario.mugDoc
  /\ bodyStock Scenario.stockBody = JStr "5"
  /\ (putProduct (engine := Scenario.exampleEngine) StripUndefined Scenario.firstId
        Scenario.stockBody (Some Scenario.mug2Png) Scenario.busyWorld).1
     = Normal {| status := 400;
                 payload := ErrorMessage (FsError "EPERM" "1700000000000-mug.png") |}
  /\ products (putProduct (engine := Scenario.exampleEngine) StripUndefined Scenario.firstId
                 Scenario.stockBody (Some Scenario.mug2Png) Scenario.busyWorld).2
     = [Scenario.mugDoc].
Proof. repeat split; evaluate. Qed.

(** *** Seeding *)

Lemma decimal_startsLikeNumber n : startsLikeNumber (decimal n) = true.
Proof.
  unfold decimal. destruct (Z.to_int n) as [d|d]; cbn; [|done].
  by destruct d.
Qed.

Lemma uploadedName_startsLikeNumber f : uploadedName f -> startsLikeNumber f = true.
Proof.
  intros (clock & upload & ->). unfold storageFilename.
  pose proof (decimal_startsLikeNumber clock) as H.
  destruct (decimal clock); [done|]. exact H.
Qed.

Lemma insertDocs_new clock (objects : list Fields) `{engine : Engine} : forall id w,
  Forall (fun p => (_id p < id)%N) (products w) ->
  insertDocs (List.map fst (draftsFrom clock id objects)) w
  = (Normal tt, set_products (products w ++ List.map fst (draftsFrom clock id objects)) w).
Proof.
  induction objects as [|o rest IH]; intros id w Hw.
  - change (draftsFrom clock id []) with (@nil (Product * list string)).
    cbn [List.map insertDocs]. rewrite app_nil_r. by destruct w.
  - change (draftsFrom clock id (o :: rest))
      with (draft clock id o :: draftsFrom clock (id + 1)%N rest).
    cbn [List.map insertDocs]. run. change (_id (draft clock id o).1) with id.
    assert (Hnone : findDoc id (products w) = None).
    { destruct (findDoc id (products w)) as [p|] eqn:Hp; [|done].
      apply findDoc_Some in Hp as [Hin Heq]. rewrite Forall_forall in Hw.
      apply Hw in Hin. lia. }
    rewrite Hnone. run.
    rewrite (IH (id + 1)%N).
    + cbn. by rewrite <- app_assoc.
    + cbn. apply Forall_app. split.
      * eapply Forall_impl; [exact Hw|]. cbn. intros x Hx. clear - Hx. lia.
      * constructor; [|constructor]. change (_id (draft clock id o).1) with id. clear. lia.
Qed.

Section WithEngine.
Context {engine : Engine}.

Lemma newProducts_run (objects : list Fields) : forall w,
  newProducts objects w
  = (Normal (draftsFrom (now w) (nextObjectId w) objects),
     set_nextObjectId (nextObjectId w + N.of_nat (length objects))%N w).
Proof.
  induction objects as [|o rest IH]; intros w.
  - change (draftsFrom (now w) (nextObjectId w) []) with (@nil (Product * list string)).
    cbn. rewrite N.add_0_r. by destruct w.
  - change (draftsFrom (now w) (nextObjectId w) (o :: rest))
      with (draft (now w) (nextObjectId w) o
            :: draftsFrom (now w) (nextObjectId w + 1)%N rest).
    cbn [newProducts length]. unfold newProduct. run. rewrite IH. cbn. f_equal.
    unfold set_nextObjectId. cbn. f_equal. lia.
Qed.

Lemma validate_ok doc castErrors w :
  invalidPaths doc castErrors = [] -> validate doc castErrors w = (Normal tt, w).
Proof. unfold validate. by intros ->. Qed.

Lemma validate_all (drafts : list (Product * list string)) w :
  Forall (fun d => invalidPaths d.1 d.2 = []) drafts ->
  forEach (fun d => validate d.1 d.2) drafts w = (Normal tt, w).
Proof.
  induction 1 as [|d drafts Hd _ IH]; cbn [forEach]; [done|].
  cbv beta in Hd. unfold mbind, Eff_bind. rewrite (validate_ok _ _ w Hd). exact IH.
Qed.

(** Every sample passes the validation of the schema. *)
Lemma samples_valid clock id :
  Forall (fun d => invalidPaths d.1 d.2 = []) (draftsFrom clock id sampleProducts).
Proof. repeat constructor. Qed.

(** [insertMany(sampleProducts)] into an empty collection, on a store that
    answers. *)
Lemma insertMany_samples w :
  products w = [] -> nextStoreCall w = None ->
  let docs := List.map fst (draftsFrom (now w) (nextObjectId w) sampleProducts) in
  insertMany sampleProducts w
  = (Normal docs,
     set_products (products w ++ docs)
       (advance (set_nextObjectId (nextObjectId w + N.of_nat (length sampleProducts))%N w))).
Proof.
  intros Hempty Hstore docs. unfold insertMany. unfold mbind at 1. unfold Eff_bind.
  rewrite newProducts_run.
  set (w1 := set_nextObjectId _ w).
  set (drafts := draftsFrom (now w) (nextObjectId w) sampleProducts) in *.
  unfold mbind at 1. unfold Eff_bind.
  rewrite (validate_all drafts w1) by apply samples_valid.
  unfold storeCall. run. change (nextStoreCall w1) with (nextStoreCall w). rewrite Hstore.
  run.
  rewrite (insertDocs_new (now w) sampleProducts (nextObjectId w) (advance w1)).
  - by rewrite (products_advance w1).
  - rewrite (products_advance w1). change (products w1) with (products w).
    rewrite Hempty. constructor.
Qed.

End WithEngine.

Section WithEngine.
Context {engine : Engine}.

(** A document [POST /api/products] answers 201 with names a file that
    was uploaded with the request. *)
Lemma postProduct_created body upload w p :
  (postProduct body upload w).1 = Normal {| status := 201; payload := OneProduct p |} ->
  exists f, image p = Some f /\ uploadedName f.
Proof.
  destruct upload as [file|]; [|done].
  rewrite postProduct_run.
  destruct (invalidPaths _ _); [|done].
  destruct (nextStoreCall w); [done|].
  destruct (findDoc _ _); [done|].
  intros [= <-]. exists (storageFilename (now w) file). split; [done|].
  by exists (now w), file.
Qed.

Lemma countDocuments_run w :
  countDocuments w
  = (match nextStoreCall w with
     | Some message => Thrown (StoreError message)
     | None => Normal (length (products w))
     end, advance w).
Proof.
  unfold countDocuments, storeCall. run. rewrite (products_advance w).
  by destruct (nextStoreCall w).
Qed.

(** [seedDatabase], run. *)
Lemma seedDatabase_run w :
  seedDatabase w
  = match nextStoreCall w with
    | Some message => (Thrown (StoreError message), advance w)
    | None =>
        if (0 <? length (products w))%nat then (Normal tt, advance w)
        else
          tryCatch (insertMany sampleProducts ;; mret tt) (fun _ => mret tt) (advance w)
    end.
Proof.
  unfold seedDatabase. rewrite bind_run, countDocuments_run.
  destruct (nextStoreCall w); [done|].
  by destruct (0 <? length (products w))%nat.
Qed.

(** C10.  [seedDatabase], run when the server starts, leaves a collection
    that holds a document as it is, and writes no file.  Into an empty
    collection, on a store that answers, it inserts the eight samples: the
    documents built from [sampleProducts], in the categories electronics,
    clothing and home, each naming an image that no upload can have
    produced and that the directory does not gain.  So the list a fresh
    deployment serves consists of eight documents none of which
    [POST /api/products] created. *)
Theorem seeding_only_into_empty_collection (w : World) :
  let w' := startup w in
  (products w <> [] -> products w' = products w /\ uploads w' = uploads w)
  /\ (products w = [] -> storeAnswers 2 w ->
      products w' = List.map fst (draftsFrom (now w) (nextObjectId w) sampleProducts)
      /\ length (products w') = 8%nat
      /\ List.map name (products w')
         = [Some "Wireless Headphones"; Some "Smart Watch"; Some "Cotton T-Shirt";
            Some "Denim Jeans"; Some "Coffee Maker"; Some "Blender";
            Some "Wireless Earbuds"; Some "Running Shoes"]
      /\ Forall (fun p => category p = Some "electronics" \/ category p = Some "clothing"
                          \/ category p = Some "home") (products w')
      /\ Forall (fun p => exists f, image p = Some f /\ ~ uploadedName f) (products w')
      /\ uploads w' = uploads w)
  /\ (forall clock,
      let served := products (startup (freshWorld clock)) in
      (listProducts (startup (freshWorld clock))).1
      = Normal {| status := 200; payload := ProductList served |}
      /\ length served = 8%nat
      /\ uploads (startup (freshWorld clock)) = ∅
      /\ forall body upload w0 p,
           (postProduct body upload w0).1
           = Normal {| status := 201; payload := OneProduct p |} ->
           p ∉ served).
Proof.
  assert (Hseed : forall w, products w = [] -> storeAnswers 2 w ->
    products (startup w) = List.map fst (draftsFrom (now w) (nextObjectId w) sampleProducts)
    /\ uploads (startup w) = uploads w).
  { intros w0 Hempty Hstore. unfold startup. rewrite seedDatabase_run.
    rewrite (storeAnswers_next _ _ Hstore), Hempty. cbn [length Nat.ltb Nat.leb].
    rewrite tryCatch_bind.
    rewrite insertMany_samples;
      [| by unadvance
       | exact (storeAnswers_next _ _ (storeAnswers_advance _ _ Hstore))].
    cbn [fst snd products uploads set_products tryCatch mret Eff_ret].
    unadvance. cbn [products uploads set_nextObjectId]. unadvance.
    by rewrite Hempty. }
  assert (Himages : forall clock id,
    Forall (fun p => exists f, image p = Some f /\ ~ uploadedName f)
      (List.map fst (draftsFrom clock id sampleProducts))).
  { intros clock id.
    repeat constructor;
      (eexists; split; [reflexivity|];
       intros H; apply uploadedName_startsLikeNumber in H; discriminate H). }
  cbv zeta. split; [|split].
  - intros Hne. unfold startup. rewrite seedDatabase_run.
    destruct (nextStoreCall w); cbn [snd]; [by unadvance|].
    destruct (products w) as [|p l] eqn:Hp; [done|]. cbn [length Nat.ltb Nat.leb snd].
    unadvance. by rewrite Hp.
  - intros Hempty Hstore. destruct (Hseed w Hempty Hstore) as [-> ->].
    split; [done|]. split; [done|]. split; [done|]. split; [|split; [apply Himages | done]].
    repeat (apply List.Forall_cons; [vm_compute; auto|]). apply List.Forall_nil.
  - intros clock.
    destruct (Hseed (freshWorld clock) eq_refl ltac:(constructor)) as [Hdocs Hfiles].
    split; [|split; [|split]].
    + evaluate.
    + by rewrite Hdocs.
    + by rewrite Hfiles.
    + intros body upload w0 p Hcreated Hin.
      apply postProduct_created in Hcreated as (f & Hf & Hup).
      rewrite Hdocs in Hin.
      pose proof (Himages (now (freshWorld clock)) (nextObjectId (freshWorld clock))) as Hall.
      rewrite Forall_forall in Hall. destruct (Hall _ Hin) as (f' & Hf' & Hno).
      rewrite Hf in Hf'. injection Hf' as ->. done.
Qed.

End WithEngine.

(** A fresh deployment has an empty collection and a store that answers:
    starting it seeds the eight samples. *)
Lemma seeding_only_into_empty_collection_witness :
  length (products (startup (engine := Scenario.exampleEngine)
                      (freshWorld 1700000000000))) = 8%nat.
Proof.
  exact (proj1 (proj2 (proj1 (proj2 (seeding_only_into_empty_collection
                                        (engine := Scenario.exampleEngine)
                                        (freshWorld 1700000000000)))
                         eq_refl ltac:(constructor)))).
Defined.

(** *** Deleting a product *)

(** The deletion of the image a document names, run. *)
Lemma deleteImageOf_run p w :
  deleteImageOf p w
  = match image p with
    | Some old =>
        if isEmpty old then (Normal tt, w)
        else
          match uploads w !! old with
          | Some Removable => (Normal tt, set_uploads (delete old (uploads w)) w)
          | Some InUse => (Thrown (FsError "EPERM" old), w)
          | None => (Normal tt, w)
          end
    | None => (Normal tt, w)
    end.
Proof.
  unfold deleteImageOf. destruct (image p) as [old|]; [|done].
  destruct (isEmpty old); [done|].
  unfold existsSync, unlinkSync. run.
  by destruct (uploads w !! old) as [[]|] eqn:E; cbn; rewrite ?E.
Qed.

Lemma findByIdAndDelete_run id w :
  findByIdAndDelete id w
  = match castObjectId id with
    | None => (Thrown (CastError "_id"), w)
    | Some oid =>
        match nextStoreCall w with
        | Some message => (Thrown (StoreError message), advance w)
        | None =>
            match findDoc oid (products w) with
            | None => (Normal None, advance w)
            | Some doc =>
                (Normal (Some doc),
                 set_products (List.filter (fun p => negb (N.eqb (_id p) oid)) (products w))
                   (advance w))
            end
        end
    end.
Proof.
  unfold findByIdAndDelete, castId, storeCall. run.
  destruct (castObjectId id) as [oid|]; [|done]. cbn.
  destruct (nextStoreCall w); [done|]. cbn. rewrite (products_advance w).
  by destruct (findDoc oid (products w)).
Qed.

(** [DELETE /api/products/:id], run. *)
Lemma deleteProduct_run id w :
  deleteProduct id w
  = match castObjectId id with
    | None => (Normal {| status := 500; payload := ErrorMessage (CastError "_id") |}, w)
    | Some oid =>
        match nextStoreCall w with
        | Some message =>
            (Normal {| status := 500; payload := ErrorMessage (StoreError message) |},
             advance w)
        | None =>
            match findDoc oid (products w) with
            | None =>
                (Normal {| status := 404; payload := Message "Product not found" |},
                 advance w)
            | Some p =>
                match deleteImageOf p (advance w) with
                | (Thrown err, w1) =>
                    (Normal {| status := 500; payload := ErrorMessage err |}, w1)
                | (Normal _, w1) =>
                    match nextStoreCall w1 with
                    | Some message =>
                        (Normal {| status := 500;
                                   payload := ErrorMessage (StoreError message) |},
                         advance w1)
                    | None =>
                        (Normal {| status := 200; payload := Message "Product deleted" |},
                         set_products
                           (List.filter (fun q => negb (N.eqb (_id q) oid)) (products w1))
                           (advance w1))
                    end
                end
            end
        end
    end.
Proof.
  unfold deleteProduct. rewrite tryCatch_bind, findById_run.
  destruct (castObjectId id) as [oid|] eqn:Hid; [|done].
  destruct (nextStoreCall w); [done|].
  rewrite products_advance.
  destruct (findDoc oid (products w)) as [p|] eqn:Hp; [|done].
  rewrite tryCatch_bind.
  assert (Hframe : products (deleteImageOf p (advance w)).2 = products w).
  { rewrite deleteImageOf_run. destruct (image p) as [old|]; [|cbn [snd]; by unadvance].
    destruct (isEmpty old); [cbn [snd]; by unadvance|].
    destruct (uploads (advance w) !! old) as [[]|]; cbn; by unadvance. }
  destruct (deleteImageOf p (advance w)) as [[[]|err] w1]; [|done].
  cbn [snd] in Hframe.
  rewrite tryCatch_bind, findByIdAndDelete_run, Hid.
  destruct (nextStoreCall w1); [done|].
  rewrite Hframe, Hp. done.
Qed.

Lemma listProducts_run w :
  listProducts w
  = (Normal match nextStoreCall w with
            | Some message => {| status := 500; payload := ErrorMessage (StoreError message) |}
            | None => {| status := 200; payload := ProductList (products w) |}
            end,
     advance w).
Proof.
  unfold listProducts, find, storeCall, respond. run. rewrite (products_advance w).
  by destruct (nextStoreCall w).
Qed.

Lemma getProduct_run id w :
  getProduct id w
  = match castObjectId id with
    | None => (Normal {| status := 500; payload := ErrorMessage (CastError "_id") |}, w)
    | Some oid =>
        (Normal match nextStoreCall w with
                | Some message =>
                    {| status := 500; payload := ErrorMessage (StoreError message) |}
                | None =>
                    match findDoc oid (products w) with
                    | Some p => {| status := 200; payload := OneProduct p |}
                    | None => {| status := 404; payload := Message "Product not found" |}
                    end
                end,
         advance w)
    end.
Proof.
  unfold getProduct, respond. run. rewrite findById_run.
  destruct (castObjectId id) as [oid|]; [|done]. cbn.
  destruct (nextStoreCall w); [done|]. cbn. rewrite (products_advance w).
  by destruct (findDoc oid (products w)).
Qed.

Lemma set_uploads_same w : set_uploads (uploads w) w = w.
Proof. by destruct w. Qed.

(** When the file a document names is not held open, the deletion of its
    image returns: the file is gone, the other files stay. *)
Lemma deleteImageOf_clean p w :
  (forall old, image p = Some old -> uploads w !! old <> Some InUse) ->
  exists files,
    deleteImageOf p w = (Normal tt, set_uploads files w)
    /\ (forall old, image p = Some old -> old <> "" -> files !! old = None)
    /\ (forall f, image p <> Some f -> files !! f = uploads w !! f).
Proof.
  intros Hfree. rewrite deleteImageOf_run.
  destruct (image p) as [old|] eqn:Himg.
  - unfold isEmpty. destruct (String.eqb_spec old "") as [->|Hne].
    + exists (uploads w). rewrite set_uploads_same. split; [done|].
      split; [|done]. by intros ? [= <-].
    + destruct (uploads w !! old) as [[]|] eqn:Hold.
      * exists (delete old (uploads w)). split; [done|]. split.
        -- intros ? [= <-] _. apply lookup_delete_eq.
        -- intros f Hf. apply lookup_delete_ne. congruence.
      * by destruct (Hfree old eq_refl).
      * exists (uploads w). rewrite set_uploads_same. split; [done|].
        split; [|done]. by intros ? [= <-].
  - exists (uploads w). rewrite set_uploads_same. done.
Qed.

Lemma elem_of_filter_ids oid (l : list Product) q :
  q ∈ List.filter (fun q => negb (N.eqb (_id q) oid)) l <-> q ∈ l /\ _id q <> oid.
Proof.
  rewrite !list_elem_of_In, filter_In.
  destruct (N.eqb_spec (_id q) oid); cbn; intuition congruence.
Qed.

Lemma sublist_List_filter {A} (f : A -> bool) (l : list A) : sublist (List.filter f l) l.
Proof.
  induction l as [|x l IH]; cbn; [constructor|].
  destruct (f x); [by apply sublist_skip | by apply sublist_cons].
Qed.

Lemma findDoc_filter_ids oid (l : list Product) :
  findDoc oid (List.filter (fun q => negb (N.eqb (_id q) oid)) l) = None.
Proof.
  destruct (findDoc oid _) as [q|] eqn:Hq; [|done].
  apply findDoc_Some in Hq as [Hin Hid]. apply elem_of_filter_ids in Hin. tauto.
Qed.

(** Deleting a product.  For an id that resolves to a document, a store
    that answers and an image file that is not held open, the route
    answers 200; the collection loses the documents of that id and no
    other; the image file the document named is gone and no other file
    is; and from then on the id resolves to nothing: a get answers 404 and
    the list does not hold the document. *)
Theorem delete_removes_product (id : string) (w : World) (oid : ObjectId) (p : Product) :
  castObjectId id = Some oid ->
  storeAnswers 2 w ->
  findDoc oid (products w) = Some p ->
  (forall old, image p = Some old -> uploads w !! old <> Some InUse) ->
  let r := (deleteProduct id w).1 in
  let w' := (deleteProduct id w).2 in
  r = Normal {| status := 200; payload := Message "Product deleted" |}
  /\ (forall q, q ∈ products w' <-> q ∈ products w /\ _id q <> oid)
  /\ sublist (products w') (products w)
  /\ (forall old, image p = Some old -> old <> "" -> uploads w' !! old = None)
  /\ (forall f, image p <> Some f -> uploads w' !! f = uploads w !! f)
  /\ (nextStoreCall w' = None ->
      (getProduct id w').1
      = Normal {| status := 404; payload := Message "Product not found" |}
      /\ exists l,
           (listProducts w').1 = Normal {| status := 200; payload := ProductList l |}
           /\ p ∉ l).
Proof.
  intros Hid Hstore Hp Hfree. cbv zeta.
  rewrite deleteProduct_run, Hid, (storeAnswers_next _ _ Hstore), Hp.
  destruct (deleteImageOf_clean p (advance w)) as (files & -> & Hgone & Hkept).
  { intros old Hold. rewrite uploads_advance. by apply Hfree. }
  rewrite uploads_advance in Hkept.
  rewrite nextStoreCall_set_uploads.
  rewrite (storeAnswers_next _ _ (storeAnswers_advance _ _ Hstore)).
  cbn [fst snd products uploads set_products set_uploads]. unadvance.
  cbn [products uploads set_uploads]. unadvance.
  split; [done|]. split; [apply elem_of_filter_ids|].
  split; [apply sublist_List_filter|]. split; [done|]. split; [done|].
  intros Hnext. rewrite getProduct_run, listProducts_run, Hid, Hnext.
  cbn [fst products set_products]. rewrite findDoc_filter_ids.
  split; [done|]. eexists. split; [done|].
  intros Hin. apply elem_of_filter_ids in Hin as [_ Hne].
  by apply findDoc_Some in Hp as [_ Heq].
Qed.

(** The deletion is not atomic.  When the store answers the lookup and
    rejects the deletion that follows, the image file is already removed:
    the route answers 500 and the document stays, naming a file that is no
    longer there. *)
Theorem delete_can_leave_document_without_image (id : string) (w : World)
    (oid : ObjectId) (p : Product) (old message : string) :
  castObjectId id = Some oid ->
  nextStoreCall w = None ->
  nextStoreCall (advance w) = Some message ->
  findDoc oid (products w) = Some p ->
  image p = Some old -> old <> "" ->
  uploads w !! old = Some Removable ->
  (deleteProduct id w).1
  = Normal {| status := 500; payload := ErrorMessage (StoreError message) |}
  /\ products (deleteProduct id w).2 = products w
  /\ uploads (deleteProduct id w).2 !! old = None.
Proof.
  intros Hid Hfirst Hsecond Hp Himg Hold Hfile.
  rewrite deleteProduct_run, Hid, Hfirst, Hp, deleteImageOf_run, Himg.
  unfold isEmpty. destruct (String.eqb_spec old ""); [done|].
  rewrite uploads_advance, Hfile, nextStoreCall_set_uploads, Hsecond.
  cbn [fst snd]. rewrite products_advance, uploads_advance. cbn [products uploads set_uploads].
  rewrite products_advance. split; [done|]. split; [done|]. apply lookup_delete_eq.
Qed.

(** An image file that is held open aborts the deletion: the route
    answers 500, and both the document and the file stay. *)
Theorem delete_aborted_when_image_cannot_be_deleted (id : string) (w : World)
    (oid : ObjectId) (p : Product) (old : string) :
  castObjectId id = Some oid ->
  nextStoreCall w = None ->
  findDoc oid (products w) = Some p ->
  image p = Some old -> old <> "" ->
  uploads w !! old = Some InUse ->
  (deleteProduct id w).1
  = Normal {| status := 500; payload := ErrorMessage (FsError "EPERM" old) |}
  /\ products (deleteProduct id w).2 = products w
  /\ uploads (deleteProduct id w).2 = uploads w.
Proof.
  intros Hid Hfirst Hp Himg Hold Hfile.
  rewrite deleteProduct_run, Hid, Hfirst, Hp, deleteImageOf_run, Himg.
  unfold isEmpty. destruct (String.eqb_spec old ""); [done|].
  rewrite uploads_advance, Hfile. cbn [fst snd]. by unadvance.
Qed.

(** A deletion that finds no document deletes nothing: an id that does not
    cast is answered 500 and the world is untouched; an id no document has
    is answered 404, and the collection and the files are as before. *)
Theorem delete_without_document (id : string) (w : World) :
  let r := (deleteProduct id w).1 in
  let w' := (deleteProduct id w).2 in
  (castObjectId id = None ->
   r = Normal {| status := 500; payload := ErrorMessage (CastError "_id") |} /\ w' = w)
  /\ (forall oid, castObjectId id = Some oid -> nextStoreCall w = None ->
      findDoc oid (products w) = None ->
      r = Normal {| status := 404; payload := Message "Product not found" |}
      /\ products w' = products w /\ uploads w' = uploads w).
Proof.
  cbv zeta. rewrite deleteProduct_run. split.
  - by intros ->.
  - intros oid -> -> ->. cbn [fst snd]. by unadvance.
Qed.

Lemma mug_picture : uploads Scenario.mugWorld !! Scenario.mugPicture = Some Removable.
Proof. evaluate. Qed.

Lemma mug_picture_free old :
  image Scenario.mugDoc = Some old -> uploads Scenario.mugWorld !! old <> Some InUse.
Proof.
  intros [= <-]. change (uploads Scenario.mugWorld !! Scenario.mugPicture <> Some InUse).
  rewrite mug_picture. discriminate.
Qed.

(** The mug is deleted, and its picture with it. *)
Lemma delete_removes_product_witness :
  castObjectId Scenario.firstId = Some 0%N
  /\ storeAnswers 2 Scenario.mugWorld
  /\ findDoc 0 (products Scenario.mugWorld) = Some Scenario.mugDoc
  /\ (deleteProduct Scenario.firstId Scenario.mugWorld).1
     = Normal {| status := 200; payload := Message "Product deleted" |}
  /\ uploads (deleteProduct Scenario.firstId Scenario.mugWorld).2 !! Scenario.mugPicture
     = None.
Proof.
  split; [exact mug_id|]. split; [exact mugWorld_answers|]. split; [exact mug_found|].
  pose proof (delete_removes_product Scenario.firstId Scenario.mugWorld 0 Scenario.mugDoc
                mug_id mugWorld_answers mug_found mug_picture_free)
    as (Hr & _ & _ & Hgone & _).
  split; [exact Hr|]. apply Hgone; [reflexivity | discriminate].
Defined.

Lemma flaky_first : nextStoreCall Scenario.flakyWorld = None.
Proof. reflexivity. Qed.

Lemma flaky_second : nextStoreCall (advance Scenario.flakyWorld) = Some "connection lost".
Proof. reflexivity. Qed.

Lemma flaky_mug : findDoc 0 (products Scenario.flakyWorld) = Some Scenario.mugDoc.
Proof. evaluate. Qed.

Lemma flaky_picture : uploads Scenario.flakyWorld !! Scenario.mugPicture = Some Removable.
Proof. evaluate. Qed.

Lemma mugPicture_nonempty : Scenario.mugPicture <> "".
Proof. discriminate. Qed.

Lemma delete_can_leave_document_without_image_witness :
  nextStoreCall Scenario.flakyWorld = None
  /\ nextStoreCall (advance Scenario.flakyWorld) = Some "connection lost"
  /\ findDoc 0 (products Scenario.flakyWorld) = Some Scenario.mugDoc
  /\ uploads Scenario.flakyWorld !! Scenario.mugPicture = Some Removable
  /\ (deleteProduct Scenario.firstId Scenario.flakyWorld).1
     = Normal {| status := 500; payload := ErrorMessage (StoreError "connection lost") |}
  /\ products (deleteProduct Scenario.firstId Scenario.flakyWorld).2
     = products Scenario.flakyWorld
  /\ uploads (deleteProduct Scenario.firstId Scenario.flakyWorld).2 !! Scenario.mugPicture
     = None.
Proof.
  split; [exact flaky_first|]. split; [exact flaky_second|]. split; [exact flaky_mug|].
  split; [exact flaky_picture|].
  exact (delete_can_leave_document_without_image Scenario.firstId Scenario.flakyWorld 0
           Scenario.mugDoc Scenario.mugPicture "connection lost"
           mug_id flaky_first flaky_second flaky_mug eq_refl mugPicture_nonempty
           flaky_picture).
Defined.

Lemma busy_first : nextStoreCall Scenario.busyWorld = None.
Proof. reflexivity. Qed.

Lemma busy_mug : findDoc 0 (products Scenario.busyWorld) = Some Scenario.mugDoc.
Proof. evaluate. Qed.

Lemma busy_picture : uploads Scenario.busyWorld !! Scenario.mugPicture = Some InUse.
Proof. evaluate. Qed.

Lemma delete_aborted_when_image_cannot_be_deleted_witness :
  nextStoreCall Scenario.busyWorld = None
  /\ findDoc 0 (products Scenario.busyWorld) = Some Scenario.mugDoc
  /\ uploads Scenario.busyWorld !! Scenario.mugPicture = Some InUse
  /\ (deleteProduct Scenario.firstId Scenario.busyWorld).1
     = Normal {| status := 500;
                 payload := ErrorMessage (FsError "EPERM" Scenario.mugPicture) |}
  /\ products (deleteProduct Scenario.firstId Scenario.busyWorld).2
     = products Scenario.busyWorld
  /\ uploads (deleteProduct Scenario.firstId Scenario.busyWorld).2
     = uploads Scenario.busyWorld.
Proof.
  split; [exact busy_first|]. split; [exact busy_mug|]. split; [exact busy_picture|].
  exact (delete_aborted_when_image_cannot_be_deleted Scenario.firstId Scenario.busyWorld 0
           Scenario.mugDoc Scenario.mugPicture
           mug_id busy_first busy_mug eq_refl mugPicture_nonempty busy_picture).
Defined.

(** No document has the second identifier in the world of the mug. *)
Lemma delete_without_document_witness :
  castObjectId "000000000000000000000001" = Some 1%N
  /\ findDoc 1 (products Scenario.mugWorld) = None
  /\ (deleteProduct "000000000000000000000001" Scenario.mugWorld).1
     = Normal {| status := 404; payload := Message "Product not found" |}.
Proof.
  assert (Hid : castObjectId "000000000000000000000001" = Some 1%N) by evaluate.
  assert (Hnone : findDoc 1 (products Scenario.mugWorld) = None) by evaluate.
  split; [exact Hid|]. split; [exact Hnone|].
  exact (proj1 (proj2 (delete_without_document "000000000000000000000001" Scenario.mugWorld)
                  1%N Hid eq_refl Hnone)).
Defined.

(** *** Listing *)

Lemma listProductsByCategory_run c w :
  listProductsByCategory c w
  = (Normal match nextStoreCall w with
            | Some message => {| status := 500; payload := ErrorMessage (StoreError message) |}
            | None =>
                {| status := 200;
                   payload :=
                     ProductList
                       (List.filter
                          (fun p => match category p with
                                    | Some c' => String.eqb c' c
                                    | None => false
                                    end)
                          (products w)) |}
            end,
     advance w).
Proof.
  unfold listProductsByCategory, findByCategory, storeCall, respond. run.
  rewrite (products_advance w). by destruct (nextStoreCall w).
Qed.

(** The two list routes change neither the collection nor the files.  When
    the store rejects the query both answer 500.  When it answers, the
    list is the whole collection in insertion order, and the list by
    category is made of exactly the documents of that list whose category
    is the one asked for, in the same order. *)
Theorem list_routes_answer (c : string) (w : World) :
  let all := listProducts w in
  let some := listProductsByCategory c w in
  products all.2 = products w /\ uploads all.2 = uploads w
  /\ products some.2 = products w /\ uploads some.2 = uploads w
  /\ match nextStoreCall w with
     | Some message =>
         all.1 = Normal {| status := 500; payload := ErrorMessage (StoreError message) |}
         /\ some.1 = Normal {| status := 500; payload := ErrorMessage (StoreError message) |}
     | None =>
         all.1 = Normal {| status := 200; payload := ProductList (products w) |}
         /\ exists l,
              some.1 = Normal {| status := 200; payload := ProductList l |}
              /\ sublist l (products w)
              /\ forall p, p ∈ l <-> p ∈ products w /\ category p = Some c
     end.
Proof.
  cbv zeta. rewrite listProducts_run, listProductsByCategory_run. cbn [fst snd].
  unadvance. do 4 (split; [done|]).
  destruct (nextStoreCall w); [done|]. split; [done|].
  eexists. split; [done|]. split; [apply sublist_List_filter|].
  intros p. rewrite !list_elem_of_In, filter_In.
  destruct (category p) as [c'|]; [|intuition congruence].
  destruct (String.eqb_spec c' c); intuition congruence.
Qed.

(** *** Uploads that no document names *)

Section WithEngine.
Context {engine : Engine}.

(** [multer] stores the file before the handler runs, and no handler
    removes the file of its own request.  After a [POST] with a file the
    file is in [uploads] whatever the answer; when the answer is 400 no
    document was added, so no document names it.  After a [PUT] with a
    file for an id no document has, the answer is 404, the collection is
    as before and the new file is in [uploads]. *)
Theorem refused_requests_keep_their_upload (policy : UndefinedPolicy) (id : string)
    (body : Body) (file : Upload) (w : World) :
  let stored := storageFilename (now w) file in
  let post := postProduct body (Some file) w in
  let put := putProduct policy id body (Some file) w in
  uploads post.2 = <[stored := Removable]> (uploads w)
  /\ (statusOf post.1 = Some 400 -> products post.2 = products w)
  /\ (forall oid, castObjectId id = Some oid -> storeAnswers 2 w ->
      findDoc oid (products w) = None ->
      updateCastFailures (updateData body (Some {| filename := stored |})) = [] ->
      put.1 = Normal {| status := 404; payload := Message "Product not found" |}
      /\ products put.2 = products w
      /\ uploads put.2 = <[stored := Removable]> (uploads w)).
Proof.
  cbv zeta. split; [|split].
  - rewrite postProduct_run.
    destruct (invalidPaths _ _); [|done].
    destruct (nextStoreCall w); [cbn [snd]; by unadvance|].
    destruct (findDoc _ _); cbn [snd uploads set_products]; by unadvance.
  - rewrite postProduct_run.
    destruct (invalidPaths _ _); [|done].
    destruct (nextStoreCall w); [cbn [snd]; by unadvance|].
    destruct (findDoc _ _); [cbn [snd]; by unadvance | done].
  - intros oid Hid Hstore Hnone Hcasts.
    unfold putProduct. rewrite bind_run, uploadSingle_run.
    set (w1 := set_now _ (set_uploads _ w)).
    unfold updateProduct. rewrite tryCatch_bind.
    unfold deleteOldImage. rewrite bind_run, findById_run, Hid.
    change (nextStoreCall w1) with (nextStoreCall w).
    rewrite (storeAnswers_next _ _ Hstore), (products_advance w1).
    change (products w1) with (products w). rewrite Hnone.
    cbn [mret Eff_ret]. rewrite tryCatch_bind, findByIdAndUpdate_run, Hid, Hcasts.
    assert (Hnext : nextStoreCall (advance w1) = None).
    { rewrite <- (storeAnswers_next _ _ (storeAnswers_advance _ _ Hstore)).
      exact (proj1 (proj2 (proj2 (uploadSingle_frame file w)))). }
    rewrite Hnext, (products_advance w1). change (products w1) with (products w).
    rewrite Hnone. cbn [fst snd respond mret Eff_ret tryCatch]. by unadvance.
Qed.

End WithEngine.

(** *** Identifiers as text *)

Lemma hexDigit_hexChar (d : N) : (d < 16)%N -> hexDigit (hexChar d) = Some d.
Proof.
  intros Hd. destruct d as [|p]; [done|].
  do 5 (try destruct p as [p|p|]); try (exfalso; lia); reflexivity.
Qed.

Lemma hexDigits_length (k : nat) : forall v acc,
  String.length (hexDigits k v acc) = (k + String.length acc)%nat.
Proof.
  induction k as [|k IH]; intros v acc; cbn [hexDigits]; [done|].
  rewrite IH. cbn. lia.
Qed.

Lemma hexValue_hexDigits (k : nat) : forall v acc a,
  hexValue a (hexDigits k v acc)
  = hexValue (a * 16 ^ N.of_nat k + v mod 16 ^ N.of_nat k)%N acc.
Proof.
  induction k as [|k IH]; intros v acc a; cbn [hexDigits].
  - cbn. rewrite N.mod_1_r. f_equal. lia.
  - rewrite IH. cbn [hexValue].
    rewrite hexDigit_hexChar by (apply N.mod_lt; lia). f_equal.
    rewrite Nat2N.inj_succ, N.pow_succ_r'.
    rewrite (N.Div0.mod_mul_r v 16 (16 ^ N.of_nat k)). lia.
Qed.

(** The text of an identifier casts back to the identifier. *)
Lemma castObjectId_toHexString (id : ObjectId) :
  (id < objectIdLimit)%N -> castObjectId (toHexString id) = Some id.
Proof.
  intros Hid. unfold castObjectId, toHexString.
  rewrite hexDigits_length. cbn [String.length Nat.add Nat.eqb].
  rewrite hexValue_hexDigits. cbn [hexValue]. f_equal.
  rewrite N.mod_small by exact Hid. lia.
Qed.

(** *** From one request to the next *)

Lemma findDoc_app_new id (l : list Product) d :
  findDoc id l = None -> _id d = id -> findDoc id (l ++ [d]) = Some d.
Proof.
  unfold findDoc. intros Hnone Hid. induction l as [|q l IH]; cbn in *.
  - by rewrite Hid, N.eqb_refl.
  - destruct (N.eqb (_id q) id); [done | by apply IH].
Qed.

Lemma getImage_run imageName w :
  getImage imageName w
  = (Normal (if bool_decide (is_Some (uploads w !! imageName))
             then {| status := 200; payload := FileContent imageName |}
             else {| status := 404; payload := Message "Image not found" |}),
     w).
Proof.
  unfold getImage, existsSync, respond. run.
  by destruct (bool_decide (is_Some (uploads w !! imageName))).
Qed.

Section WithEngine.
Context {engine : Engine}.

(** [POST /api/products] with a file and an acceptable body, on a store
    that answers, run. *)
Lemma postProduct_accepted body file w :
  acceptable body -> nextStoreCall w = None -> coherent w ->
  let f := {| filename := storageFilename (now w) file |} in
  let d := (draft (now w + storingTime file) (nextObjectId w) (productFields body f)).1 in
  postProduct body (Some file) w
  = (Normal {| status := 201; payload := OneProduct d |},
     set_products (products w ++ [d])
       (advance (set_nextObjectId (nextObjectId w + 1)%N
                   (set_now (now w + storingTime file)
                      (set_uploads (<[filename f := Removable]> (uploads w)) w))))).
Proof.
  intros Hbody Hstore Hcoh f d. rewrite postProduct_run. fold f.
  pose proof (acceptable_valid body f (now w + storingTime file) (nextObjectId w) Hbody
                (storageFilename_nonempty _ _)) as Hvalid.
  rewrite Hvalid, Hstore, (coherent_unused _ Hcoh). done.
Qed.

(** What was created is found.  After a [POST] with a file and an
    acceptable body, on a store that answers, the document of the 201
    answer is the one a get by its identifier, written as the 24
    hexadecimal digits the client received, answers 200 with; it is the
    last document of the list; and the image it names is served. *)
Theorem created_product_is_found (body : Body) (file : Upload) (w : World) :
  acceptable body -> storeAnswers 2 w -> coherent w ->
  (nextObjectId w < objectIdLimit)%N ->
  let w' := (postProduct body (Some file) w).2 in
  exists p,
    (postProduct body (Some file) w).1
    = Normal {| status := 201; payload := OneProduct p |}
    /\ toJSON p !! "_id" = Some (JStr (toHexString (_id p)))
    /\ (getProduct (toHexString (_id p)) w').1
       = Normal {| status := 200; payload := OneProduct p |}
    /\ (listProducts w').1
       = Normal {| status := 200; payload := ProductList (products w ++ [p]) |}
    /\ (forall c, category p = Some c ->
        exists l,
          (listProductsByCategory c w').1
          = Normal {| status := 200; payload := ProductList l |}
          /\ p ∈ l)
    /\ exists stored,
         image p = Some stored
         /\ (getImage stored w').1
            = Normal {| status := 200; payload := FileContent stored |}.
Proof.
  intros Hbody Hstore Hcoh Hlimit. cbv zeta.
  rewrite (postProduct_accepted body file w Hbody (storeAnswers_next _ _ Hstore) Hcoh).
  set (f := {| filename := storageFilename (now w) file |}).
  set (d := (draft (now w + storingTime file) (nextObjectId w) (productFields body f)).1).
  set (w' := set_products _ _).
  assert (Hnext : nextStoreCall w' = None).
  { unfold w'. change (nextStoreCall (set_products ?l ?v)) with (nextStoreCall v).
    rewrite (nextStoreCall_advance_frame _ w) by done.
    exact (storeAnswers_next _ _ (storeAnswers_advance _ _ Hstore)). }
  exists d. cbn [fst snd]. split; [done|]. split; [done|].
  change (_id d) with (nextObjectId w).
  rewrite getProduct_run, listProducts_run, (castObjectId_toHexString _ Hlimit), Hnext.
  cbn [fst]. change (products w') with (products w ++ [d]).
  rewrite (findDoc_app_new _ _ d (coherent_unused _ Hcoh) eq_refl).
  split; [done|]. split; [done|]. split.
  { intros c Hc. rewrite listProductsByCategory_run, Hnext. cbn [fst].
    eexists. split; [done|].
    change (products w') with (products w ++ [d]).
    apply list_elem_of_In, filter_In. split.
    - apply in_or_app. right. by left.
    - rewrite Hc. apply String.eqb_refl. }
  exists (storageFilename (now w) file). split; [done|].
  assert (Hfile : uploads w' !! storageFilename (now w) file = Some Removable).
  { unfold w'. cbn [uploads set_products]. unadvance.
    cbn [uploads set_nextObjectId set_now set_uploads]. apply lookup_insert_eq. }
  rewrite getImage_run, Hfile. rewrite bool_decide_eq_true_2 by by eexists. done.
Qed.

End WithEngine.

Lemma mug_world_fresh :
  storeAnswers 2 (freshWorld 1700000000000)
  /\ coherent (freshWorld 1700000000000)
  /\ (nextObjectId (freshWorld 1700000000000) < objectIdLimit)%N.
Proof. split; [constructor|]. split; [constructor|]. reflexivity. Qed.

(** The mug, created in a fresh deployment, is found under the first
    identifier. *)
Lemma created_product_is_found_witness :
  acceptable (engine := Scenario.exampleEngine) Scenario.mugBody
  /\ exists p,
       (postProduct (engine := Scenario.exampleEngine) Scenario.mugBody
          (Some Scenario.mugPng) (freshWorld 1700000000000)).1
       = Normal {| status := 201; payload := OneProduct p |}
       /\ (getProduct (toHexString (_id p))
             (postProduct (engine := Scenario.exampleEngine) Scenario.mugBody
                (Some Scenario.mugPng) (freshWorld 1700000000000)).2).1
          = Normal {| status := 200; payload := OneProduct p |}.
Proof.
  split; [exact mugBody_acceptable|].
  destruct (created_product_is_found (engine := Scenario.exampleEngine) Scenario.mugBody
              Scenario.mugPng (freshWorld 1700000000000) mugBody_acceptable
              (proj1 mug_world_fresh) (proj1 (proj2 mug_world_fresh))
              (proj2 (proj2 mug_world_fresh)))
    as (p & Hpost & _ & Hget & _).
  exists p. exact (conj Hpost Hget).
Defined.

Lemma length_replaceDoc d (l : list Product) : length (replaceDoc d l) = length l.
Proof.
  induction l as [|q l IH]; cbn; [done|].
  destruct (N.eqb (_id q) (_id d)); cbn; congruence.
Qed.

Lemma elem_of_replaceDoc_other d (l : list Product) q :
  q ∈ l -> _id q <> _id d -> q ∈ replaceDoc d l.
Proof.
  intros Hin Hne. induction l as [|x l IH]; cbn; [by apply elem_of_nil in Hin|].
  apply elem_of_cons in Hin as [->|Hin].
  - apply N.eqb_neq in Hne. rewrite Hne. by left.
  - destruct (N.eqb (_id x) (_id d)); right; [done | by apply IH].
Qed.

Lemma map_id_replaceDoc d (l : list Product) :
  List.map _id (replaceDoc d l) = List.map _id l.
Proof.
  induction l as [|q l IH]; cbn; [done|].
  destruct (N.eqb_spec (_id q) (_id d)); cbn; congruence.
Qed.

Lemma replaceDoc_idempotent d (l : list Product) :
  replaceDoc d (replaceDoc d l) = replaceDoc d l.
Proof.
  induction l as [|q l IH]; cbn; [done|].
  destruct (N.eqb_spec (_id q) (_id d)) as [Heq|Hne]; cbn.
  - by rewrite N.eqb_refl.
  - apply N.eqb_neq in Hne. rewrite Hne. by rewrite IH.
Qed.

Section WithEngine.
Context {engine : Engine}.

(** [PUT /api/products/:id]: what its two parts do to the collection. *)
Lemma putProduct_outcome policy id body upload w :
  let r := (putProduct policy id body upload w).1 in
  let w' := (putProduct policy id body upload w).2 in
  (products w' = products w
   /\ forall p', r <> Normal {| status := 200; payload := OneProduct p' |})
  \/ (exists oid p p',
        castObjectId id = Some oid /\ findDoc oid (products w) = Some p
        /\ _id p' = oid
        /\ products w' = replaceDoc p' (products w)
        /\ r = Normal {| status := 200; payload := OneProduct p' |}).
Proof.
  cbv zeta. unfold putProduct. rewrite bind_run.
  destruct (uploadSingle upload w) as [c w0] eqn:Hmulter.
  assert (Hw0 : products w0 = products w /\ exists file, c = Normal file).
  { destruct upload as [u|]; cbn in Hmulter; injection Hmulter as <- <-;
      (split; [done|]); by eexists. }
  destruct Hw0 as (Hw0 & file & ->).
  pose proof (updateProduct_outcome policy id body file w0) as H. cbv zeta in H.
  rewrite Hw0 in H.
  destruct H as [H|(oid & p & Hid & Hp & Hnew & Hr)]; [by left|].
  right. exists oid, p, (applyUpdate policy (updateData body file) p).
  split; [done|]. split; [done|]. split; [|done].
  by apply findDoc_Some in Hp as [_ Hoid].
Qed.

(** What was updated is found.  When a [PUT] answers 200, the document of
    the answer is the one a get by the same id answers with from then on;
    the collection has as many documents as before, and every document of
    another identifier is still in it. *)
Theorem updated_product_is_found (policy : UndefinedPolicy) (id : string) (body : Body)
    (upload : option Upload) (w : World) (p' : Product) :
  (putProduct policy id body upload w).1
  = Normal {| status := 200; payload := OneProduct p' |} ->
  let w' := (putProduct policy id body upload w).2 in
  (nextStoreCall w' = None ->
   (getProduct id w').1 = Normal {| status := 200; payload := OneProduct p' |})
  /\ length (products w') = length (products w)
  /\ (forall q, q ∈ products w -> _id q <> _id p' -> q ∈ products w').
Proof.
  intros Hr. cbv zeta.
  pose proof (putProduct_outcome policy id body upload w) as H. cbv zeta in H.
  destruct H as [[_ Hno]|(oid & p & p1 & Hid & Hp & Hp1 & Hnew & Hr1)];
    [by destruct (Hno p')|].
  rewrite Hr1 in Hr. injection Hr as ->. rewrite Hnew.
  split; [|split].
  - intros Hnext. rewrite getProduct_run, Hid, Hnext. cbn [fst]. rewrite Hnew.
    rewrite <- Hp1 in Hp |- *. by rewrite (findDoc_replaceDoc _ _ _ Hp).
  - apply length_replaceDoc.
  - intros q Hq Hne. by apply elem_of_replaceDoc_other.
Qed.

End WithEngine.

Lemma restocked_world_answers :
  nextStoreCall
    (putProduct (engine := Scenario.exampleEngine) StripUndefined Scenario.firstId
       Scenario.stockBody None Scenario.mugWorld).2 = None.
Proof. evaluate. Qed.

(** The mug, restocked, is found with its new stock. *)
Lemma updated_product_is_found_witness :
  (putProduct (engine := Scenario.exampleEngine) StripUndefined Scenario.firstId
     Scenario.stockBody None Scenario.mugWorld).1
  = Normal {| status := 200; payload := OneProduct Scenario.restockedMugDoc |}
  /\ (getProduct Scenario.firstId
        (putProduct (engine := Scenario.exampleEngine) StripUndefined Scenario.firstId
           Scenario.stockBody None Scenario.mugWorld).2).1
     = Normal {| status := 200; payload := OneProduct Scenario.restockedMugDoc |}.
Proof.
  split; [exact restock_answer|].
  exact (proj1 (updated_product_is_found (engine := Scenario.exampleEngine) StripUndefined
                  Scenario.firstId Scenario.stockBody None Scenario.mugWorld
                  Scenario.restockedMugDoc restock_answer)
           restocked_world_answers).
Defined.

Section WithEngine.
Context {engine : Engine}.

(** The update is not atomic either.  The old image is deleted before the
    update is cast: when a field of the request does not cast, the answer
    is 400 and the document is unchanged, but the file it names is already
    gone, and the new file stays in [uploads], named by no document. *)
Theorem rejected_update_has_deleted_the_old_image (policy : UndefinedPolicy) (id : string)
    (body : Body) (file : Upload) (w : World) (oid : ObjectId) (p : Product)
    (old path : string) (paths : list string) :
  castObjectId id = Some oid -> findDoc oid (products w) = Some p ->
  image p = Some old -> old <> "" -> nextStoreCall w = None ->
  uploads w !! old = Some Removable ->
  old <> storageFilename (now w) file ->
  updateCastFailures (updateData body (Some {| filename := storageFilename (now w) file |}))
  = path :: paths ->
  let r := (putProduct policy id body (Some file) w).1 in
  let w' := (putProduct policy id body (Some file) w).2 in
  r = Normal {| status := 400; payload := ErrorMessage (CastError path) |}
  /\ products w' = products w
  /\ uploads w' !! old = None
  /\ uploads w' !! storageFilename (now w) file = Some Removable.
Proof.
  intros Hid Hp Himg Hold Hstore Hfile Hnew Hcast. cbv zeta.
  rewrite (putProduct_file_run policy id body file w oid p old Hid Hp Himg Hold Hstore).
  rewrite uploadSingle_run. cbn [snd uploads set_uploads set_now].
  rewrite lookup_insert_ne by done. rewrite Hfile.
  unfold tryCatch. rewrite bind_run, findByIdAndUpdate_run, Hid, Hcast.
  cbn [fst snd respond mret Eff_ret products uploads set_uploads set_now]. unadvance.
  cbn [products uploads set_uploads set_now].
  split; [done|]. split; [done|]. split; [apply lookup_delete_eq|].
  rewrite lookup_delete_ne by done. apply lookup_insert_eq.
Qed.

Lemma assign_idempotent {A} (u : option (option A)) (old : option A) :
  assign u (assign u old) = assign u old.
Proof. by destruct u. Qed.

Lemma applyUpdate_idempotent policy update p :
  applyUpdate policy update (applyUpdate policy update p) = applyUpdate policy update p.
Proof.
  unfold applyUpdate. cbn. rewrite !assign_idempotent.
  destruct (imageField update); by rewrite ?assign_idempotent.
Qed.

(** [PUT /api/products/:id] without a file, run. *)
Lemma putProduct_plain_run policy id body w :
  putProduct policy id body None w
  = match castObjectId id with
    | None => (Normal {| status := 400; payload := ErrorMessage (CastError "_id") |}, w)
    | Some oid =>
        match updateCastFailures (updateData body None) with
        | path :: _ =>
            (Normal {| status := 400; payload := ErrorMessage (CastError path) |}, w)
        | [] =>
            match nextStoreCall w with
            | Some message =>
                (Normal {| status := 400; payload := ErrorMessage (StoreError message) |},
                 advance w)
            | None =>
                match findDoc oid (products w) with
                | None =>
                    (Normal {| status := 404; payload := Message "Product not found" |},
                     advance w)
                | Some doc =>
                    (Normal {| status := 200;
                               payload :=
                                 OneProduct (applyUpdate policy (updateData body None) doc) |},
                     set_products
                       (replaceDoc (applyUpdate policy (updateData body None) doc)
                          (products w))
                       (advance w))
                end
            end
        end
    end.
Proof.
  unfold putProduct. rewrite bind_run. cbn [uploadSingle mret Eff_ret].
  unfold updateProduct. rewrite tryCatch_bind. cbn [mret Eff_ret].
  rewrite tryCatch_bind, findByIdAndUpdate_run.
  destruct (castObjectId id); [|done].
  destruct (updateCastFailures _); [|done].
  destruct (nextStoreCall w); [done|].
  by destruct (findDoc _ (products w)).
Qed.

(** An update without a file is idempotent: on a store that answers,
    sending the same request a second time gives the same answer and
    leaves the collection as the first left it. *)
Theorem update_is_idempotent (policy : UndefinedPolicy) (id : string) (body : Body)
    (w : World) :
  storeAnswers 2 w ->
  let first := putProduct policy id body None w in
  let second := putProduct policy id body None first.2 in
  second.1 = first.1 /\ products second.2 = products first.2.
Proof.
  intros Hstore. cbv zeta. rewrite (putProduct_plain_run policy id body w).
  destruct (castObjectId id) as [oid|] eqn:Hid;
    [|cbn [fst snd]; by rewrite putProduct_plain_run, Hid].
  destruct (updateCastFailures (updateData body None)) as [|path paths] eqn:Hcast;
    [|cbn [fst snd]; by rewrite putProduct_plain_run, Hid, Hcast].
  rewrite (storeAnswers_next _ _ Hstore).
  pose proof (storeAnswers_next _ _ (storeAnswers_advance _ _ Hstore)) as Hnext.
  destruct (findDoc oid (products w)) as [doc|] eqn:Hdoc; cbn [fst snd].
  - set (doc' := applyUpdate policy (updateData body None) doc).
    rewrite putProduct_plain_run, Hid, Hcast.
    change (nextStoreCall (set_products ?l ?v)) with (nextStoreCall v). rewrite Hnext.
    cbn [products set_products].
    assert (Hid' : _id doc' = oid) by (by apply findDoc_Some in Hdoc as [_ ?]).
    assert (Hfound : findDoc oid (replaceDoc doc' (products w)) = Some doc').
    { rewrite <- Hid' in Hdoc |- *. by rewrite (findDoc_replaceDoc _ _ _ Hdoc). }
    rewrite Hfound. cbn [fst snd products set_products].
    fold doc'. unfold doc' at 1 3. rewrite applyUpdate_idempotent. fold doc'.
    by rewrite replaceDoc_idempotent.
  - rewrite putProduct_plain_run, Hid, Hcast, Hnext, products_advance, Hdoc.
    cbn [fst snd]. by unadvance.
Qed.

(** No validation on update.  A request whose name is the empty text is
    refused by [POST] with 400, for any file and in any world; the same
    body sent by [PUT] for an existing document is answered 200, and the
    stored document then has the empty name, which the schema's [required]
    rejects. *)
Theorem update_stores_what_creation_rejects (policy : UndefinedPolicy) (id : string)
    (body : Body) (w : World) (oid : ObjectId) (p : Product) :
  castObjectId id = Some oid -> nextStoreCall w = None ->
  findDoc oid (products w) = Some p ->
  bodyName body = JStr "" ->
  updateCastFailures (updateData body None) = [] ->
  (forall file w0, statusOf (postProduct body (Some file) w0).1 = Some 400)
  /\ exists p',
       (putProduct policy id body None w).1
       = Normal {| status := 200; payload := OneProduct p' |}
       /\ findDoc oid (products (putProduct policy id body None w).2) = Some p'
       /\ name p' = Some ""
       /\ "name" ∈ invalidPaths p' [].
Proof.
  intros Hid Hstore Hp Hname Hcast. split.
  - intros file w0. rewrite postProduct_run.
    set (d := draft _ _ _).
    assert (Hinvalid : "name" ∈ invalidPaths d.1 d.2).
    { unfold invalidPaths. apply elem_of_app. right. apply elem_of_app. left.
      unfold d, draft, productFields. cbn. rewrite Hname. cbn. by left. }
    destruct (invalidPaths d.1 d.2); [by apply elem_of_nil in Hinvalid | done].
  - rewrite putProduct_plain_run, Hid, Hcast, Hstore, Hp. cbn [fst snd products set_products].
    set (p' := applyUpdate policy (updateData body None) p).
    assert (Hid' : _id p' = oid) by (by apply findDoc_Some in Hp as [_ ?]).
    assert (Hn : name p' = Some "").
    { unfold p', applyUpdate, updateData. cbn. rewrite Hname. by destruct policy. }
    exists p'. split; [done|]. split; [|split; [done|]].
    + rewrite <- Hid' in Hp |- *. by rewrite (findDoc_replaceDoc _ _ _ Hp).
    + unfold invalidPaths. cbn [app]. rewrite Hn. by left.
Qed.

End WithEngine.

Lemma word_price_fails :
  updateCastFailures (engine := Scenario.exampleEngine)
    (updateData Scenario.wordPriceBody
       (Some {| filename := storageFilename (now Scenario.mugWorld) Scenario.mug2Png |}))
  = ["price"].
Proof. evaluate. Qed.

Lemma mug_pictures_differ :
  Scenario.mugPicture <> storageFilename (now Scenario.mugWorld) Scenario.mug2Png.
Proof. intros H. vm_compute in H. discriminate H. Qed.

(** The mug, sent a new picture and a price that is no number: the answer
    is 400 and its old picture is gone. *)
Lemma rejected_update_has_deleted_the_old_image_witness :
  findDoc 0 (products Scenario.mugWorld) = Some Scenario.mugDoc
  /\ uploads Scenario.mugWorld !! Scenario.mugPicture = Some Removable
  /\ (putProduct (engine := Scenario.exampleEngine) StripUndefined Scenario.firstId
        Scenario.wordPriceBody (Some Scenario.mug2Png) Scenario.mugWorld).1
     = Normal {| status := 400; payload := ErrorMessage (CastError "price") |}
  /\ products (putProduct (engine := Scenario.exampleEngine) StripUndefined Scenario.firstId
                 Scenario.wordPriceBody (Some Scenario.mug2Png) Scenario.mugWorld).2
     = products Scenario.mugWorld
  /\ uploads (putProduct (engine := Scenario.exampleEngine) StripUndefined Scenario.firstId
                Scenario.wordPriceBody (Some Scenario.mug2Png) Scenario.mugWorld).2
     !! Scenario.mugPicture = None.
Proof.
  split; [exact mug_found|]. split; [exact mug_picture|].
  pose proof (rejected_update_has_deleted_the_old_image (engine := Scenario.exampleEngine)
                StripUndefined Scenario.firstId Scenario.wordPriceBody Scenario.mug2Png
                Scenario.mugWorld 0 Scenario.mugDoc Scenario.mugPicture "price" []
                mug_id mug_found eq_refl mugPicture_nonempty eq_refl mug_picture
                mug_pictures_differ word_price_fails)
    as (Hr & Hdocs & Hold & _).
  exact (conj Hr (conj Hdocs Hold)).
Defined.

(** Restocking the mug twice is restocking it once. *)
Lemma update_is_idempotent_witness :
  storeAnswers 2 Scenario.mugWorld
  /\ (putProduct (engine := Scenario.exampleEngine) StripUndefined Scenario.firstId
        Scenario.stockBody None
        (putProduct (engine := Scenario.exampleEngine) StripUndefined Scenario.firstId
           Scenario.stockBody None Scenario.mugWorld).2).1
     = (putProduct (engine := Scenario.exampleEngine) StripUndefined Scenario.firstId
          Scenario.stockBody None Scenario.mugWorld).1.
Proof.
  split; [exact mugWorld_answers|].
  exact (proj1 (update_is_idempotent (engine := Scenario.exampleEngine) StripUndefined
                  Scenario.firstId Scenario.stockBody Scenario.mugWorld mugWorld_answers)).
Defined.

Lemma unnamed_casts :
  updateCastFailures (engine := Scenario.exampleEngine)
    (updateData Scenario.unnamedBody None) = [].
Proof. reflexivity. Qed.

(** The mug loses its name by an update, which creation would refuse. *)
Lemma update_stores_what_creation_rejects_witness :
  findDoc 0 (products Scenario.mugWorld) = Some Scenario.mugDoc
  /\ bodyName Scenario.unnamedBody = JStr ""
  /\ exists p',
       (putProduct (engine := Scenario.exampleEngine) StripUndefined Scenario.firstId
          Scenario.unnamedBody None Scenario.mugWorld).1
       = Normal {| status := 200; payload := OneProduct p' |}
       /\ name p' = Some "".
Proof.
  split; [exact mug_found|]. split; [reflexivity|].
  destruct (proj2 (update_stores_what_creation_rejects (engine := Scenario.exampleEngine)
                     StripUndefined Scenario.firstId Scenario.unnamedBody Scenario.mugWorld
                     0 Scenario.mugDoc mug_id eq_refl mug_found eq_refl unnamed_casts))
    as (p' & Hr & _ & Hname & _).
  exists p'. exact (conj Hr Hname).
Defined.

(** *** The names of stored files *)

Lemma uint_allDigits (u : Decimal.uint) : allDigits (NilEmpty.string_of_uint u) = true.
Proof. induction u; cbn; done. Qed.

(** The text of a time, which is not negative, is made of digits. *)
Lemma decimal_allDigits (n : Z) : 0 <= n -> allDigits (decimal n) = true.
Proof.
  intros Hn. unfold decimal. destruct n as [|p|p]; [done| |lia].
  cbn [Z.to_int NilZero.string_of_int]. unfold NilZero.string_of_uint.
  destruct (Pos.to_uint p) eqn:Hp; try done;
    rewrite <- Hp; apply uint_allDigits.
Qed.

Lemma decimal_injective (a b : Z) : decimal a = decimal b -> a = b.
Proof.
  unfold decimal. intros H.
  assert (Hnonnil : forall n, Z.to_int n <> Decimal.Pos Decimal.Nil
                              /\ Z.to_int n <> Decimal.Neg Decimal.Nil).
  { intros [|p|p]; cbn; split; try discriminate;
      intros [= Hp]; by apply DecimalPos.Unsigned.to_uint_nonnil in Hp. }
  apply (f_equal NilZero.int_of_string) in H.
  rewrite !NilZero.isi in H by apply Hnonnil.
  injection H as H. apply (f_equal Z.of_int) in H.
  by rewrite !DecimalZ.of_to in H.
Qed.

Lemma string_append_cons (c : ascii) (s t : string) :
  (String c s ++ t)%string = String c (s ++ t)%string.
Proof. reflexivity. Qed.

(** Two texts of digits, each followed by a dash and a name, are the same
    text only when the digits and the names are. *)
Lemma split_at_dash (d1 : string) : forall d2 n1 n2 : string,
  allDigits d1 = true -> allDigits d2 = true ->
  (d1 ++ "-" ++ n1)%string = (d2 ++ "-" ++ n2)%string ->
  d1 = d2 /\ n1 = n2.
Proof.
  induction d1 as [|c d1 IH]; intros [|c' d2] n1 n2 H1 H2 H.
  - by injection H.
  - rewrite string_append_cons in H. injection H as <- _.
    cbn in H2. done.
  - rewrite string_append_cons in H. injection H as -> _.
    cbn in H1. done.
  - rewrite !string_append_cons in H. injection H as -> H.
    cbn in H1, H2. apply andb_true_iff in H1 as [_ H1]. apply andb_true_iff in H2 as [_ H2].
    destruct (IH d2 n1 n2 H1 H2 H) as [-> ->]. done.
Qed.

(** The name a file is stored under tells the upload: two uploads get the
    same name only when they arrive in the same millisecond under the same
    original name, and then the second file replaces the first. *)
Theorem storageFilename_injective (clock1 clock2 : Z) (file1 file2 : Upload) :
  0 <= clock1 -> 0 <= clock2 ->
  (storageFilename clock1 file1 = storageFilename clock2 file2 ->
   clock1 = clock2 /\ originalname file1 = originalname file2)
  /\ (forall w,
        clock1 = clock2 -> originalname file1 = originalname file2 ->
        uploads (uploadSingle (Some file2)
                   (set_now clock2 (uploadSingle (Some file1) (set_now clock1 w)).2)).2
        = uploads (uploadSingle (Some file1) (set_now clock1 w)).2).
Proof.
  intros H1 H2. split.
  - unfold storageFilename. intros H.
    apply split_at_dash in H as [Hd Hn]; try by apply decimal_allDigits.
    split; [by apply decimal_injective | done].
  - intros w -> Hname. rewrite !uploadSingle_run. cbn [snd uploads set_uploads now set_now].
    unfold storageFilename. rewrite Hname. apply insert_insert_eq.
Qed.

Lemma storageFilename_injective_witness :
  0 <= 1700000000000 /\ 0 <= 1700000060000
  /\ (storageFilename 1700000000000 Scenario.mugPng
      = storageFilename 1700000060000 Scenario.mug2Png ->
      1700000000000 = 1700000060000
      /\ originalname Scenario.mugPng = originalname Scenario.mug2Png).
Proof.
  split; [lia|]. split; [lia|].
  apply (storageFilename_injective 1700000000000 1700000060000 Scenario.mugPng
           Scenario.mug2Png); lia.
Defined.

(** *** Identifiers stay distinct *)

Lemma sublist_map_ids (l k : list Product) :
  sublist l k -> sublist (List.map _id l) (List.map _id k).
Proof. induction 1; cbn; by constructor. Qed.

(** A step that hands out identifiers or not, and keeps, updates in place
    or removes documents, keeps the identifiers below the counter and
    distinct. *)
Lemma identifiers_kept w w' :
  (nextObjectId w <= nextObjectId w')%N ->
  sublist (List.map _id (products w')) (List.map _id (products w)) ->
  coherent w /\ distinctIds w -> coherent w' /\ distinctIds w'.
Proof.
  unfold coherent, distinctIds. intros Hn Hsub [Hcoh Hdist]. split.
  - apply Forall_forall. intros q Hq.
    assert (Hin : _id q ∈ List.map _id (products w)).
    { eapply elem_of_sublist; [|exact Hsub]. apply list_elem_of_In, in_map.
      by apply list_elem_of_In. }
    apply list_elem_of_In, in_map_iff in Hin as (q0 & Heq & Hq0).
    rewrite Forall_forall in Hcoh. apply list_elem_of_In, Hcoh in Hq0. lia.
  - by eapply sublist_NoDup.
Qed.

Lemma identifiers_kept_same w w' :
  nextObjectId w' = nextObjectId w -> products w' = products w ->
  coherent w /\ distinctIds w -> coherent w' /\ distinctIds w'.
Proof.
  intros Hn Hp. apply identifiers_kept; [lia | by rewrite Hp].
Qed.

Lemma deleteImageOf_counter p w :
  nextObjectId (deleteImageOf p w).2 = nextObjectId w
  /\ products (deleteImageOf p w).2 = products w
  /\ nextStoreCall (deleteImageOf p w).2 = nextStoreCall w.
Proof.
  rewrite deleteImageOf_run. destruct (image p) as [old|]; [|done].
  destruct (isEmpty old); [done|].
  by destruct (uploads w !! old) as [[]|].
Qed.

Lemma deleteProduct_identifiers id w :
  nextObjectId (deleteProduct id w).2 = nextObjectId w
  /\ sublist (products (deleteProduct id w).2) (products w).
Proof.
  rewrite deleteProduct_run.
  destruct (castObjectId id) as [oid|]; [|done].
  destruct (nextStoreCall w); [cbn [snd]; by unadvance|].
  destruct (findDoc oid (products w)) as [p|]; [|cbn [snd]; by unadvance].
  destruct (deleteImageOf_counter p (advance w)) as (Hn & Hp & _).
  destruct (deleteImageOf p (advance w)) as [[[]|err] w1]; cbn [snd] in *.
  - rewrite nextObjectId_advance in Hn. rewrite products_advance in Hp.
    destruct (nextStoreCall w1); cbn [snd products nextObjectId set_products]; unadvance;
      rewrite ?Hn, ?Hp; [done|].
    split; [done|]. apply sublist_List_filter.
  - rewrite nextObjectId_advance in Hn. rewrite products_advance in Hp.
    by rewrite Hn, Hp.
Qed.

Lemma deleteOldImage_counter id w :
  nextObjectId (deleteOldImage id w).2 = nextObjectId w.
Proof.
  unfold deleteOldImage. rewrite bind_run, findById_run.
  destruct (castObjectId id) as [oid|]; [|done].
  destruct (nextStoreCall w); [cbn [snd]; by unadvance|].
  destruct (findDoc oid (products (advance w))) as [p|];
    [|cbn [snd mret Eff_ret]; by unadvance].
  destruct (deleteImageOf_counter p (advance w)) as (Hn & _). rewrite Hn. by unadvance.
Qed.

Section WithEngine.
Context {engine : Engine}.

Lemma putProduct_counter policy id body upload w :
  nextObjectId (putProduct policy id body upload w).2 = nextObjectId w.
Proof.
  unfold putProduct. rewrite bind_run.
  assert (Hfinish : forall file w2, nextObjectId w2 = nextObjectId w ->
    nextObjectId
      (tryCatch
         (updatedProduct ← findByIdAndUpdate policy id (updateData body file);
          match updatedProduct with
          | None => respond 404 (Message "Product not found")
          | Some p => respond 200 (OneProduct p)
          end)
         (fun err => respond 400 (ErrorMessage err)) w2).2 = nextObjectId w).
  { intros file w2 Hw2. rewrite tryCatch_bind, findByIdAndUpdate_run.
    destruct (castObjectId id) as [oid|]; [|done].
    destruct (updateCastFailures _); [|done].
    destruct (nextStoreCall w2); [cbn [snd respond mret Eff_ret]; by unadvance|].
    destruct (findDoc oid (products w2));
      cbn [snd respond mret Eff_ret tryCatch nextObjectId set_products]; by unadvance. }
  destruct upload as [u|].
  - rewrite uploadSingle_run. set (w1 := set_now _ (set_uploads _ w)).
    unfold updateProduct. rewrite tryCatch_bind.
    pose proof (deleteOldImage_counter id w1) as Hn.
    destruct (deleteOldImage id w1) as [[[]|e] w2]; cbn [snd] in Hn; [|done].
    by apply Hfinish.
  - cbn [uploadSingle mret Eff_ret]. unfold updateProduct. rewrite tryCatch_bind.
    cbn [mret Eff_ret]. by apply Hfinish.
Qed.

Lemma insertMany_samples_rejected w message :
  nextStoreCall w = Some message ->
  insertMany sampleProducts w
  = (Thrown (StoreError message),
     advance (set_nextObjectId (nextObjectId w + N.of_nat (length sampleProducts))%N w)).
Proof.
  intros Hstore. unfold insertMany. unfold mbind at 1. unfold Eff_bind.
  rewrite newProducts_run.
  set (w1 := set_nextObjectId _ w).
  set (drafts := draftsFrom (now w) (nextObjectId w) sampleProducts) in *.
  unfold mbind at 1. unfold Eff_bind.
  rewrite (validate_all drafts w1) by apply samples_valid.
  unfold storeCall. run. change (nextStoreCall w1) with (nextStoreCall w). by rewrite Hstore.
Qed.

Lemma samples_identifiers clock id :
  List.map _id (List.map fst (draftsFrom clock id sampleProducts))
  = [id; id + 1; id + 1 + 1; id + 1 + 1 + 1; id + 1 + 1 + 1 + 1; id + 1 + 1 + 1 + 1 + 1;
     id + 1 + 1 + 1 + 1 + 1 + 1; id + 1 + 1 + 1 + 1 + 1 + 1 + 1]%N.
Proof. reflexivity. Qed.

(** Starting the server keeps the identifiers distinct and below the
    counter. *)
Lemma startup_identifiers w :
  coherent w /\ distinctIds w -> coherent (startup w) /\ distinctIds (startup w).
Proof.
  intros Hinv. unfold startup. rewrite seedDatabase_run.
  destruct (nextStoreCall w);
    [cbn [snd]; apply (identifiers_kept_same w); [by unadvance | by unadvance | done]|].
  destruct (products w) as [|p0 l] eqn:Hempty; cbn [length Nat.ltb Nat.leb];
    [|cbn [snd]; apply (identifiers_kept_same w);
      [by unadvance | by unadvance | done]].
  rewrite tryCatch_bind.
  destruct (nextStoreCall (advance w)) as [message|] eqn:Hnext.
  - rewrite (insertMany_samples_rejected _ _ Hnext). cbn [snd mret Eff_ret].
    unfold coherent, distinctIds. unadvance. cbn [products set_nextObjectId]. unadvance.
    rewrite Hempty. split; constructor.
  - rewrite insertMany_samples; [|by unadvance | done].
    cbn [snd tryCatch mret Eff_ret].
    unfold coherent, distinctIds. cbn [products nextObjectId set_products]. unadvance.
    cbn [products nextObjectId set_nextObjectId]. unadvance. rewrite Hempty, app_nil_l.
    split.
    + apply Forall_forall. intros q Hq.
      assert (Hin : _id q ∈ List.map _id
                      (List.map fst (draftsFrom (now w) (nextObjectId w) sampleProducts))).
      { apply list_elem_of_In, in_map. by apply list_elem_of_In. }
      rewrite samples_identifiers in Hin.
      change (N.of_nat (length sampleProducts)) with 8%N.
      repeat (apply elem_of_cons in Hin as [->|Hin]; [lia|]). by apply elem_of_nil in Hin.
    + rewrite samples_identifiers.
      repeat (apply NoDup_cons; split;
              [rewrite ?elem_of_cons, elem_of_nil; lia|]).
      apply NoDup_nil_2.
Qed.

(** Every route keeps the identifiers distinct and below the counter. *)
Lemma route_identifiers policy request w :
  coherent w /\ distinctIds w ->
  coherent (route policy request w).2 /\ distinctIds (route policy request w).2.
Proof.
  intros Hinv. destruct request as [|c|id|imageName|body upload|id body upload|id];
    cbn [route].
  - rewrite listProducts_run. cbn [snd].
    apply (identifiers_kept_same w); [by unadvance | by unadvance | done].
  - rewrite listProductsByCategory_run. cbn [snd].
    apply (identifiers_kept_same w); [by unadvance | by unadvance | done].
  - rewrite getProduct_run. destruct (castObjectId id); [|done]. cbn [snd].
    apply (identifiers_kept_same w); [by unadvance | by unadvance | done].
  - by rewrite getImage_run.
  - destruct Hinv as [Hcoh Hdist]. split; [by apply coherent_postProduct|].
    destruct upload as [file|]; [|done]. rewrite postProduct_run.
    unfold distinctIds in *.
    destruct (invalidPaths _ _); [|done].
    destruct (nextStoreCall w); [cbn [snd]; by unadvance|].
    destruct (findDoc _ _) eqn:Hfound; [cbn [snd]; by unadvance|].
    cbn [snd products set_products]. rewrite List.map_app. cbn [List.map].
    apply NoDup_app. split; [done|]. split; [|apply NoDup_singleton].
    intros x Hx Hx'. apply list_elem_of_singleton in Hx'. subst x.
    apply list_elem_of_In, in_map_iff in Hx as (q & Hq & Hin).
    apply list_elem_of_In in Hin.
    by apply (findDoc_None _ _ Hfound q Hin).
  - pose proof (putProduct_counter policy id body upload w) as Hn.
    pose proof (putProduct_outcome policy id body upload w) as H. cbv zeta in H.
    destruct H as [[Hsame _]|(oid & p & p' & _ & _ & _ & Hnew & _)].
    + by apply (identifiers_kept_same w).
    + apply (identifiers_kept w); [lia | | done]. by rewrite Hnew, map_id_replaceDoc.
  - destruct (deleteProduct_identifiers id w) as [Hn Hsub].
    apply (identifiers_kept w); [lia | | done]. by apply sublist_map_ids.
Qed.

(** Whatever requests a fresh deployment serves once it is started, and
    in whatever order, no two documents of its collection share an
    identifier, and the next identifier to be handed out is new. *)
Theorem identifiers_stay_distinct (policy : UndefinedPolicy) (clock : Z)
    (requests : list (Z * Request)) :
  let w := serve policy requests (startup (freshWorld clock)) in
  distinctIds w /\ coherent w
  /\ findDoc (nextObjectId w) (products w) = None.
Proof.
  cbv zeta.
  assert (Hserve : forall requests w, coherent w /\ distinctIds w ->
            coherent (serve policy requests w) /\ distinctIds (serve policy requests w)).
  { clear. induction requests as [|[t request] rest IH]; intros w Hinv; [done|].
    cbn [serve]. apply IH, route_identifiers.
    revert Hinv. by apply identifiers_kept_same. }
  destruct (Hserve requests (startup (freshWorld clock))) as [Hcoh Hdist].
  { apply startup_identifiers. split; constructor. }
  split; [done|]. split; [done|]. by apply coherent_unused.
Qed.

End WithEngine.

(** *** What a created document holds *)

Section WithEngine.
Context {engine : Engine}.

Lemma requiredString_ok path v :
  requiredString path v = [] -> exists s, v = Some s /\ s <> "".
Proof.
  unfold requiredString, isEmpty. destruct v as [s|]; [|done].
  destruct (String.eqb_spec s ""); [done|]. by exists s.
Qed.

Lemma castNumber_number v x : castNumber v = Value x -> PrimFloat.is_nan x = false.
Proof.
  unfold castNumber.
  destruct v as [| |b|y|s]; try done;
    try (destruct (PrimFloat.is_nan (ToNumber _)) eqn:Hnan; [done|]; by intros [= <-]).
  destruct s; [done|].
  destruct (PrimFloat.is_nan (ToNumber _)) eqn:Hnan; [done|]. by intros [= <-].
Qed.

Lemma zero_is_a_number : PrimFloat.is_nan 0 = false.
Proof. reflexivity. Qed.

(** [stock || 0] and [rating || 0], cast: a number, or a failed cast. *)
Lemma castNumber_orElse v :
  castNumber (orElse v (JNum 0)) = CastFailed
  \/ exists x, castNumber (orElse v (JNum 0)) = Value x.
Proof.
  unfold orElse. destruct (truthy v) eqn:Ht.
  - unfold castNumber. destruct v as [| |b|y|s]; try done.
    + destruct (PrimFloat.is_nan (ToNumber (JBool b))); [by left | right; by eexists].
    + destruct (PrimFloat.is_nan (ToNumber (JNum y))); [by left | right; by eexists].
    + destruct s; [done|].
      destruct (PrimFloat.is_nan (ToNumber _)); [by left | right; by eexists].
  - right. exists 0%float. unfold castNumber. cbn [ToNumber]. by rewrite zero_is_a_number.
Qed.

(** [stock || 0] and [rating || 0], stored: the number of the value of the
    request, and 0 when the request leaves the field out or sends a falsy
    value. *)
Lemma castNumber_orElse_stored v :
  castNumber (orElse v (JNum 0)) <> CastFailed ->
  withDefault 0%float (castNumber (orElse v (JNum 0)))
  = Some (if truthy v then ToNumber v else 0%float).
Proof.
  unfold orElse. destruct (truthy v) eqn:Ht.
  - unfold castNumber. destruct v as [| |b|y|s]; try done.
    + by destruct (PrimFloat.is_nan (ToNumber (JBool b))).
    + by destruct (PrimFloat.is_nan (ToNumber (JNum y))).
    + destruct s; [done|]. by destruct (PrimFloat.is_nan (ToNumber _)).
  - intros _. unfold castNumber. cbn [ToNumber]. by rewrite zero_is_a_number.
Qed.

(** Every document [POST /api/products] answers 201 with is complete: its
    name, description and category are texts that are not empty, and its
    price, stock and rating are numbers.  Its stock and its rating are the
    numbers of the values of the request, and 0 when the request leaves the
    field out or sends a falsy value.  Its image is the name the file of
    the request was stored under, and its creation time is the time the
    handler built it: the time in the name of the file plus the time the
    file took to be written. *)
Theorem created_document_is_complete (body : Body) (upload : option Upload) (w : World)
    (p : Product) :
  (postProduct body upload w).1 = Normal {| status := 201; payload := OneProduct p |} ->
  (exists s, name p = Some s /\ s <> "")
  /\ (exists s, description p = Some s /\ s <> "")
  /\ (exists s, category p = Some s /\ s <> "")
  /\ (exists x, price p = Some x /\ PrimFloat.is_nan x = false)
  /\ (exists x, stock p = Some x /\ PrimFloat.is_nan x = false)
  /\ stock p = Some (if truthy (bodyStock body) then ToNumber (bodyStock body) else 0%float)
  /\ (exists x, rating p = Some x /\ PrimFloat.is_nan x = false)
  /\ rating p = Some (if truthy (bodyRating body) then ToNumber (bodyRating body) else 0%float)
  /\ (exists file,
        upload = Some file
        /\ image p = Some (storageFilename (now w) file)
        /\ createdAt p = now w + storingTime file)
  /\ invalidPaths p [] = [].
Proof.
  destruct upload as [file|]; [|done].
  rewrite postProduct_run.
  set (f := {| filename := storageFilename (now w) file |}).
  set (d := draft (now w + storingTime file) (nextObjectId w) (productFields body f)).
  destruct (invalidPaths d.1 d.2) eqn:Hvalid; [|done].
  destruct (nextStoreCall w); [done|].
  destruct (findDoc _ _); [done|].
  intros [= <-].
  unfold invalidPaths in Hvalid.
  apply app_eq_nil in Hvalid as [Hcasts Hvalid].
  apply app_eq_nil in Hvalid as [Hname Hvalid].
  apply app_eq_nil in Hvalid as [Hdescription Hvalid].
  apply app_eq_nil in Hvalid as [Hprice Hvalid].
  apply app_eq_nil in Hvalid as [Hcategory Himage].
  change d.2 with (castFailure "price" (castNumber (bodyPrice body))
                   ++ castFailure "stock" (castNumber (orElse (bodyStock body) (JNum 0)))
                   ++ castFailure "rating" (castNumber (orElse (bodyRating body) (JNum 0))))%list
    in Hcasts.
  apply app_eq_nil in Hcasts as [_ Hcasts].
  apply app_eq_nil in Hcasts as [Hstock Hrating].
  apply castFailure_none in Hstock, Hrating.
  split; [by apply (requiredString_ok "name")|].
  split; [by apply (requiredString_ok "description")|].
  split; [by apply (requiredString_ok "category")|].
  split.
  { change (price d.1) with (stored (castNumber (bodyPrice body))) in *.
    destruct (castNumber (bodyPrice body)) as [| |x|] eqn:Hcast; try done.
    exists x. split; [done|]. by apply castNumber_number in Hcast. }
  split.
  { change (stock d.1)
      with (withDefault 0%float (castNumber (orElse (bodyStock body) (JNum 0)))).
    destruct (castNumber_orElse (bodyStock body)) as [Hfail|[x Hx]]; [done|].
    rewrite Hx. exists x. split; [done|]. by apply castNumber_number in Hx. }
  split.
  { change (stock d.1)
      with (withDefault 0%float (castNumber (orElse (bodyStock body) (JNum 0)))).
    by apply castNumber_orElse_stored. }
  split.
  { change (rating d.1)
      with (withDefault 0%float (castNumber (orElse (bodyRating body) (JNum 0)))).
    destruct (castNumber_orElse (bodyRating body)) as [Hfail|[x Hx]]; [done|].
    rewrite Hx. exists x. split; [done|]. by apply castNumber_number in Hx. }
  split.
  { change (rating d.1)
      with (withDefault 0%float (castNumber (orElse (bodyRating body) (JNum 0)))).
    by apply castNumber_orElse_stored. }
  split; [by exists file|].
  change (invalidPaths d.1 [] = []). unfold invalidPaths. cbn [app].
  by rewrite Hname, Hdescription, Hprice, Hcategory, Himage.
Qed.

End WithEngine.

Lemma mug_created :
  (postProduct (engine := Scenario.exampleEngine) Scenario.mugBody (Some Scenario.mugPng)
     (freshWorld 1700000000000)).1
  = Normal {| status := 201; payload := OneProduct Scenario.mugDoc |}.
Proof. evaluate. Qed.

(** The mug has all its fields: the rating, which the request left out,
    is 0, and it was created 12 ms after its picture was named. *)
Lemma created_document_is_complete_witness :
  (postProduct (engine := Scenario.exampleEngine) Scenario.mugBody (Some Scenario.mugPng)
     (freshWorld 1700000000000)).1
  = Normal {| status := 201; payload := OneProduct Scenario.mugDoc |}
  /\ rating Scenario.mugDoc = Some 0%float
  /\ exists file,
       Some Scenario.mugPng = Some file
       /\ image Scenario.mugDoc = Some (storageFilename 1700000000000 file)
       /\ createdAt Scenario.mugDoc = 1700000000000 + storingTime file.
Proof.
  split; [exact mug_created|].
  pose proof (created_document_is_complete (engine := Scenario.exampleEngine)
                Scenario.mugBody (Some Scenario.mugPng) (freshWorld 1700000000000)
                Scenario.mugDoc mug_created)
    as (_ & _ & _ & _ & _ & _ & _ & Hrating & Hfile & _).
  exact (conj Hrating Hfile).
Defined.

End BackendTheory.

(** ** The page on the documents of this server *)

Module CatalogTheory.
Import Js Client.

Section WithEngine.
Context {engine : Engine}.

(** What the server sends for a document has none of the three
    properties the page script filters, sorts and draws prices by. *)
Lemma served_lacks_page_properties (p : Backend.Product) :
  prop (Backend.toJSON p) "console" = JUndefined
  /\ prop (Backend.toJSON p) "title" = JUndefined
  /\ prop (Backend.toJSON p) "currentPrice" = JUndefined.
Proof.
  unfold prop, Backend.toJSON.
  repeat split; rewrite !lookup_insert_ne by done; by rewrite lookup_empty.
Qed.

Lemma served_unpriced (ps : list Backend.Product) :
  Forall (fun a : JsObj => prop a "currentPrice" = JUndefined) (List.map Backend.toJSON ps).
Proof.
  apply Forall_forall. intros a Ha. apply list_elem_of_In, in_map_iff in Ha as (p & <- & _).
  apply served_lacks_page_properties.
Qed.

Lemma unpriced_comparison :
  sortOrder (ToNumber JUndefined - ToNumber JUndefined) = Eq.
Proof. evaluate. Qed.

(** Products without a [currentPrice] are left in their order by a
    comparator that subtracts it: every difference is [NaN]. *)
Lemma sort_unpriced (cmp : JsObj -> JsObj -> Completion Exn float) (l : list JsObj) :
  (forall a b, prop a "currentPrice" = JUndefined -> prop b "currentPrice" = JUndefined ->
     cmp a b = Normal (ToNumber JUndefined - ToNumber JUndefined)%float) ->
  Forall (fun a : JsObj => prop a "currentPrice" = JUndefined) l ->
  sort cmp l = Normal l.
Proof.
  intros Hcmp Hl. apply sort_keeps_equals. intros a b Ha Hb.
  rewrite Forall_forall in Hl.
  eexists. split; [|exact unpriced_comparison].
  apply Hcmp; apply Hl; by apply list_elem_of_In.
Qed.

Lemma price_sorts_unpriced (ps : list Backend.Product) :
  applySort "price_asc" (List.map Backend.toJSON ps) = Normal (List.map Backend.toJSON ps)
  /\ applySort "price_desc" (List.map Backend.toJSON ps)
     = Normal (List.map Backend.toJSON ps).
Proof.
  split; cbn; (apply sort_unpriced; [|apply served_unpriced]);
    intros a b Ha Hb; unfold byPriceAscending, byPriceDescending; by rewrite Ha, Hb.
Qed.

(** The page that fetched the documents of a fresh deployment holds them,
    with its controls empty. *)
Lemma servedPage_holds :
  allProducts Scenario.servedPage
  = List.map Backend.toJSON (Backend.products Scenario.seededWorld)
  /\ categoryFilter Scenario.servedPage = ""
  /\ searchInput Scenario.servedPage = "".
Proof. repeat split; evaluate. Qed.

(** Sorting a page of served documents by price, with no category and no
    search text, leaves the products as they were served. *)
Lemma served_sorted_by_price (ps : list Backend.Product) (st : Page) (sortValue : string) :
  allProducts st = List.map Backend.toJSON ps ->
  categoryFilter st = "" -> searchInput st = "" ->
  sortValue = "price_asc" \/ sortValue = "price_desc" ->
  filteredProducts (dispatch (SortChange sortValue) st) = List.map Backend.toJSON ps.
Proof.
  intros Hall Hcat Hsearch Hsort. unfold dispatch. cbn [listenerOf]. rewrite bind_run.
  unfold modify. cbv beta iota. rewrite ClientTheory.applyFilters_assigns.
  cbn [allProducts categoryFilter searchInput sortBySelect set_sortBySelect].
  rewrite Hall, Hcat, Hsearch. cbn [toLowerCase].
  rewrite ClientTheory.category_filter_selects_console. cbn [isEmpty String.eqb orb].
  rewrite filter_true.
  destruct (price_sorts_unpriced ps) as [Hasc Hdesc].
  by destruct Hsort as [-> | ->]; [rewrite Hasc | rewrite Hdesc].
Qed.

Lemma servedPage_sorted_by_price (sortValue : string) :
  sortValue = "price_asc" \/ sortValue = "price_desc" ->
  filteredProducts (dispatch (SortChange sortValue) Scenario.servedPage)
  = List.map Backend.toJSON (Backend.products Scenario.seededWorld).
Proof.
  destruct servedPage_holds as (Hall & Hcat & Hsearch).
  by apply served_sorted_by_price.
Qed.

(** C1 on the array a fresh deployment serves.  The documents carry their
    category under [category] and have no property [console], which is
    the one the filter compares: with "home" selected the filtered
    sequence is empty, although two of the eight products are of that
    category. *)
Theorem category_filter_on_served_products :
  let page := dispatch (CategoryChange "home") Scenario.servedPage in
  List.map (fun p : JsObj => p !! "category") Scenario.servedProducts
  = [Some (JStr "electronics"); Some (JStr "electronics"); Some (JStr "clothing");
     Some (JStr "clothing"); Some (JStr "home"); Some (JStr "home");
     Some (JStr "electronics"); Some (JStr "clothing")]
  /\ List.map (fun p : JsObj => p !! "console") Scenario.servedProducts
     = [None; None; None; None; None; None; None; None]
  /\ allProducts page = Scenario.servedProducts
  /\ categoryFilter page = "home"
  /\ filteredProducts page = [].
Proof. cbv zeta. repeat split; evaluate. Qed.

(** C2 on the same array.  The documents carry their price under [price]
    and have no property [currentPrice], which is the one the comparators
    subtract: every comparison is [NaN], and both price sorts leave the
    sequence in the order it was served, which is neither ascending nor
    descending. *)
Theorem price_sort_on_served_products :
  let ascending := dispatch (SortChange "price_asc") Scenario.servedPage in
  let descending := dispatch (SortChange "price_desc") Scenario.servedPage in
  List.map (fun p : JsObj => p !! "price") (filteredProducts ascending)
  = [Some (JNum 149.99); Some (JNum 199.99); Some (JNum 19.99); Some (JNum 59.99);
     Some (JNum 89.99); Some (JNum 79.99); Some (JNum 129.99); Some (JNum 89.99)]
  /\ List.map (fun p : JsObj => p !! "price") (filteredProducts descending)
     = [Some (JNum 149.99); Some (JNum 199.99); Some (JNum 19.99); Some (JNum 59.99);
        Some (JNum 89.99); Some (JNum 79.99); Some (JNum 129.99); Some (JNum 89.99)]
  /\ List.map (fun p : JsObj => p !! "currentPrice") Scenario.servedProducts
     = [None; None; None; None; None; None; None; None]
  /\ PrimFloat.ltb 19.99 199.99 = true
  /\ PrimFloat.ltb 149.99 199.99 = true.
Proof.
  cbv zeta.
  rewrite !servedPage_sorted_by_price by auto.
  repeat split; evaluate.
Qed.

(** C8 on the same array.  The documents carry their name under [name] and
    have no property [title], which is the one the search lowers: with a
    search text the filter throws on the first product, and
    [filteredProducts] stays the whole array, although exactly one product
    has "blender" in its name. *)
Theorem search_on_served_products :
  (listenerOf (SearchInput "Blender") Scenario.servedPage).1
  = Thrown (TypeError "product.title.toLowerCase")
  /\ filteredProducts (dispatch (SearchInput "Blender") Scenario.servedPage)
     = Scenario.servedProducts
  /\ List.map (fun p : JsObj => p !! "title") Scenario.servedProducts
     = [None; None; None; None; None; None; None; None]
  /\ List.map (fun p : JsObj =>
                 match p !! "name" with
                 | Some (JStr s) => includes (toLowerCase s) (toLowerCase "Blender")
                 | _ => false
                 end) Scenario.servedProducts
     = [false; false; false; false; false; true; false; false].
Proof. repeat split; evaluate. Qed.

(** The first load already fails on these documents: the card of the
    first product throws, and the page shows its error message. *)
Lemma first_load_on_served_products :
  loadingElement Scenario.servedPage = LoadingError
  /\ length (filteredProducts Scenario.servedPage) = 8%nat.
Proof. split; evaluate. Qed.

End WithEngine.

(** *** Any documents of this server, on the page *)

Section Served.
Context {engine : Engine}.
Implicit Types (ps : list Backend.Product) (st : Page).

(** Both sorts by price leave any documents of this server in the order
    they came in: no document has a [currentPrice], every difference is
    [NaN], and [sort] reads [NaN] as equal. *)
Theorem price_sorts_keep_served_order ps :
  applySort "price_asc" (List.map Backend.toJSON ps) = Normal (List.map Backend.toJSON ps)
  /\ applySort "price_desc" (List.map Backend.toJSON ps)
     = Normal (List.map Backend.toJSON ps).
Proof. apply price_sorts_unpriced. Qed.

Lemma served_category_filter (c : string) ps :
  c <> "" ->
  filterM (matchesFilters c "") (List.map Backend.toJSON ps) = Normal [].
Proof.
  intros Hc. rewrite ClientTheory.category_filter_selects_console. f_equal.
  unfold isEmpty. destruct (String.eqb_spec c ""); [done|].
  induction ps as [|p ps IH]; [done|]. cbn [List.map List.filter].
  by destruct (served_lacks_page_properties p) as (-> & _).
Qed.

Lemma applySort_nil sortValue : applySort sortValue [] = Normal [].
Proof.
  unfold applySort.
  repeat (destruct (String.eqb sortValue _);
          [apply sort_keeps_equals; by intros a b []|]).
  done.
Qed.

(** Choosing a category hides every document of this server: the filter
    compares [product.console], which no document has, so the filtered
    sequence is empty and the grid shows the placeholder, whatever the
    categories of the documents are. *)
Theorem category_choice_hides_served_products ps (c : string) st :
  c <> "" ->
  allProducts st = List.map Backend.toJSON ps ->
  searchInput st = "" ->
  filteredProducts (dispatch (CategoryChange c) st) = []
  /\ productGrid (dispatch (CategoryChange c) st) = NoProductsFound.
Proof.
  intros Hc Hall Hsearch.
  assert (Hsel : selection (input (CategoryChange c) st) = Normal []).
  { unfold selection. cbn. rewrite Hall, Hsearch. cbn [toLowerCase].
    rewrite (served_category_filter c ps Hc). apply applySort_nil. }
  destruct (ClientTheory.filter_change_empty (CategoryChange c) st eq_refl Hsel)
    as (_ & Hf & _ & Hg & _).
  done.
Qed.

Lemma toLowerCase_nonempty (s : string) : s <> "" -> isEmpty (toLowerCase s) = false.
Proof. by destruct s. Qed.

Lemma served_search (c text : string) ps :
  ps <> [] -> text <> "" ->
  filterM (matchesFilters c (toLowerCase text)) (List.map Backend.toJSON ps)
  = Thrown (TypeError "product.title.toLowerCase").
Proof.
  intros Hps Htext. destruct ps as [|p ps]; [done|]. cbn [List.map filterM].
  assert (Hfirst : matchesFilters c (toLowerCase text) (Backend.toJSON p)
                   = Thrown (TypeError "product.title.toLowerCase")).
  { unfold matchesFilters. rewrite (toLowerCase_nonempty _ Htext).
    by destruct (served_lacks_page_properties p) as (_ & -> & _). }
  by rewrite Hfirst.
Qed.

(** Typing a search text throws on any documents of this server: the
    filter lowers [product.title], which no document has.  The listener
    stops there: the filtered sequence, the page and the grid stay as they
    were. *)
Theorem search_throws_on_served_products ps (text : string) st :
  ps <> [] -> text <> "" ->
  allProducts st = List.map Backend.toJSON ps ->
  (listenerOf (SearchInput text) st).1 = Thrown (TypeError "product.title.toLowerCase")
  /\ filteredProducts (dispatch (SearchInput text) st) = filteredProducts st
  /\ currentPage (dispatch (SearchInput text) st) = currentPage st
  /\ productGrid (dispatch (SearchInput text) st) = productGrid st.
Proof.
  intros Hps Htext Hall.
  assert (Hsel : selection (input (SearchInput text) st)
                 = Thrown (TypeError "product.title.toLowerCase")).
  { unfold selection. cbn. rewrite Hall, (served_search _ _ _ Hps Htext). done. }
  unfold dispatch.
  rewrite (ClientTheory.listenerOf_filter_change (SearchInput text) st eq_refl).
  destruct (ClientTheory.applyFilters_thrown _ _ Hsel) as (Hr & Hp & Hg).
  split; [done|]. split; [|done].
  rewrite ClientTheory.applyFilters_assigns. cbn.
  by rewrite Hall, (served_search _ _ _ Hps Htext).
Qed.

Lemma served_card_throws (p : Backend.Product) (l : list JsObj) (cards : list Card) :
  cardsOf (Backend.toJSON p :: l) <> Normal cards.
Proof.
  cbn [cardsOf]. unfold productCard.
  destruct (served_lacks_page_properties p) as (_ & _ & ->). done.
Qed.

(** The first load fails on any documents of this server, as long as no
    category is preselected: whatever the sort order and the search text
    the controls hold, the page ends with the error message, because the
    card of a document cannot be drawn ([product.currentPrice] is
    undefined) when the filter and the sort have not thrown before. *)
Theorem first_load_fails_on_served_products ps (sortBy search : string) :
  ps <> [] ->
  let st := loaded (Some (List.map Backend.toJSON ps)) "" sortBy search in
  loadingElement st = LoadingError
  /\ allProducts st = List.map Backend.toJSON ps.
Proof.
  intros Hps. cbv zeta. unfold loaded.
  pose proof (ClientTheory.fetchProducts_spec (Some (List.map Backend.toJSON ps))
                (initialPage "" sortBy search)) as H. cbv zeta in H.
  set (st := (fetchProducts _ _).2) in *.
  destruct H as (_ & Hload & _ & Hdata).
  destruct (Hdata _ eq_refl) as (Hall & Hhidden). split; [|done].
  destruct Hload as [Hh|He]; [|done]. exfalso.
  destruct (Hhidden Hh) as (Hcons & Hpage & Hrendered).
  assert (Hctl : categoryFilter st = "" /\ searchInput st = search).
  { subst st. unfold fetchProducts, tryCatch. run.
    pose proof (ClientTheory.applyFilters_frame
                  (set_filteredProducts (List.map Backend.toJSON ps)
                     (set_allProducts (List.map Backend.toJSON ps)
                        (set_loadingElement LoadingShown (initialPage "" sortBy search)))))
      as (_ & Hcat & _ & Hsearch & _).
    destruct (applyFilters _) as [[[]|e] st2]; cbn in *; done. }
  destruct Hctl as [Hcat Hsearch].
  unfold consistent, selection in Hcons. rewrite Hall, Hcat, Hsearch in Hcons.
  destruct (String.eqb_spec search "") as [->|Hne].
  - cbn [toLowerCase] in Hcons.
    rewrite ClientTheory.category_filter_selects_console in Hcons. cbn in Hcons.
    rewrite filter_true in Hcons.
    apply ClientTheory.applySort_Permutation in Hcons.
    destruct ps as [|p ps]; [done|].
    unfold rendered in Hrendered. rewrite Hpage, ClientTheory.pageWindow_first in Hrendered.
    destruct (filteredProducts st) as [|x l] eqn:Hf.
    { apply Permutation_nil_l in Hcons. done. }
    cbn [take] in Hrendered. destruct Hrendered as (cards & Hcards & _).
    assert (Hx : x ∈ List.map Backend.toJSON (p :: ps)).
    { rewrite <- Hcons. by left. }
    apply list_elem_of_In, in_map_iff in Hx as (q & <- & _).
    by apply served_card_throws in Hcards.
  - by rewrite (served_search "" search ps Hps Hne) in Hcons.
Qed.

End Served.

(** The documents a fresh deployment holds once it is seeded, and the page
    that fetched them. *)
Lemma seeded_served :
  allProducts (Scenario.servedPage (engine := Scenario.exampleEngine))
  = List.map (Backend.toJSON (engine := Scenario.exampleEngine))
      (Backend.products (Scenario.seededWorld (engine := Scenario.exampleEngine))).
Proof. evaluate. Qed.

Lemma seeded_nonempty :
  Backend.products (Scenario.seededWorld (engine := Scenario.exampleEngine)) <> [].
Proof.
  intros H. apply (f_equal length) in H. revert H.
  assert (Hlen : length (Backend.products
                           (Scenario.seededWorld (engine := Scenario.exampleEngine)))
                 = 8%nat) by evaluate.
  rewrite Hlen. discriminate.
Qed.

Lemma served_search_empty :
  searchInput (Scenario.servedPage (engine := Scenario.exampleEngine)) = "".
Proof. evaluate. Qed.

Lemma category_choice_hides_served_products_witness :
  "home" <> ""
  /\ filteredProducts
       (dispatch (engine := Scenario.exampleEngine) (CategoryChange "home")
          (Scenario.servedPage (engine := Scenario.exampleEngine))) = [].
Proof.
  split; [discriminate|].
  apply (category_choice_hides_served_products (engine := Scenario.exampleEngine)
           (Backend.products (Scenario.seededWorld (engine := Scenario.exampleEngine)))
           "home" (Scenario.servedPage (engine := Scenario.exampleEngine))).
  - discriminate.
  - exact seeded_served.
  - exact served_search_empty.
Defined.

Lemma search_throws_on_served_products_witness :
  "Blender" <> ""
  /\ (listenerOf (engine := Scenario.exampleEngine) (SearchInput "Blender")
        (Scenario.servedPage (engine := Scenario.exampleEngine))).1
     = Thrown (TypeError "product.title.toLowerCase").
Proof.
  split; [discriminate|].
  apply (search_throws_on_served_products (engine := Scenario.exampleEngine)
           (Backend.products (Scenario.seededWorld (engine := Scenario.exampleEngine)))
           "Blender" (Scenario.servedPage (engine := Scenario.exampleEngine))).
  - exact seeded_nonempty.
  - discriminate.
  - exact seeded_served.
Defined.

Lemma first_load_fails_on_served_products_witness :
  Backend.products (Scenario.seededWorld (engine := Scenario.exampleEngine)) <> []
  /\ loadingElement
       (loaded (engine := Scenario.exampleEngine)
          (Some (List.map (Backend.toJSON (engine := Scenario.exampleEngine))
                   (Backend.products
                      (Scenario.seededWorld (engine := Scenario.exampleEngine)))))
          "" "price_asc" "") = LoadingError.
Proof.
  split; [exact seeded_nonempty|].
  apply (first_load_fails_on_served_products (engine := Scenario.exampleEngine)
           (Backend.products (Scenario.seededWorld (engine := Scenario.exampleEngine)))
           "price_asc" "").
  exact seeded_nonempty.
Defined.

End CatalogTheory.
